(** * pysces/panel.py: lumped-vortex panels and free vortex particles

    A shallow embedding of [pysces/panel.py] and the verification of its
    specification.

    Number model.  numpy's float64 values are read as real numbers with exact
    arithmetic: rounding, overflow and underflow are outside the model.  The
    one way an exact computation leaves the finite numbers is a division by
    zero, which numpy answers with [inf] or [nan] and a warning, not with an
    exception; the model records it as the outcome [NotFinite].  Where a
    property is about rounding, overflow or underflow themselves, the code
    is read a second time in binary64, in the module [Float64].

    Array model.  An array of shape (2,n) is the list of its n columns, each
    a pair of reals; an array of shape (n,) is a list of reals; a square
    matrix is the list of its rows. *)

From Stdlib Require Import Reals Lra Lia List Permutation.
From Stdlib Require Floats.
Import ListNotations.
Open Scope R_scope.

(** ** Outcomes of a call *)

(** The Python exceptions the module can raise. *)
Inductive exn : Set :=
| TypeError
| AttributeError
| IndexError
| ValueError
| LinAlgError.

(** A call returns a value ([Ok]), raises ([Raise]), or returns arrays that
    hold [inf] or [nan] after a division by zero ([NotFinite]); the model
    does not follow a run past [NotFinite]. *)
Inductive outcome (A : Type) : Type :=
| Ok (a : A)
| Raise (e : exn)
| NotFinite.

Arguments Ok {A} a.
Arguments Raise {A} e.
Arguments NotFinite {A}.

Definition bind {A B : Type} (m : outcome A) (k : A -> outcome B) : outcome B :=
  match m with
  | Ok a => k a
  | Raise e => Raise e
  | NotFinite => NotFinite
  end.

Notation "x <- m ;; k" := (bind m (fun x => k))
  (at level 61, m at next level, right associativity).

(** ** Vectors and arrays *)

Definition vec2 : Type := (R * R)%type.
Definition array2 : Type := list vec2.
Definition matrix : Type := list (list R).

Definition vadd (a b : vec2) : vec2 := (fst a + fst b, snd a + snd b).
Definition vsub (a b : vec2) : vec2 := (fst a - fst b, snd a - snd b).
Definition vscale (c : R) (a : vec2) : vec2 := (c * fst a, c * snd a).
Definition vdot (a b : vec2) : R := fst a * fst b + snd a * snd b.

(** [np.linalg.norm] of a vector of shape (2,). *)
Definition norm (a : vec2) : R := sqrt (fst a * fst a + snd a * snd a).

(** [d == 0], the test behind every [NotFinite]. *)
Definition is_zero (d : R) : bool := if Req_dec_T d 0 then true else false.

(** [a + b] and [a += b] on arrays of one shape. *)
Definition add_arr (a b : array2) : array2 :=
  map (fun pq => vadd (fst pq) (snd pq)) (combine a b).

(** [a * b] on arrays of shape (2,n) followed by [np.sum(..., 0)]. *)
Definition sum_prod (a b : array2) : list R :=
  map (fun pq => vdot (fst pq) (snd pq)) (combine a b).

(** [a + u[:, np.newaxis]] and [a - u[:, np.newaxis]]: a column broadcast. *)
Definition add_col (a : array2) (u : vec2) : array2 := map (fun p => vadd p u) a.
Definition sub_col (a : array2) (u : vec2) : array2 := map (fun p => vsub p u) a.

(** [c * a] for a scalar [c]. *)
Definition scale (c : R) (a : array2) : array2 := map (vscale c) a.

(** [np.zeros_like(x)] and [np.zeros((2,n))]. *)
Definition zeros_like (x : array2) : array2 := map (fun _ => (0, 0)) x.
Definition zeros2 (n : nat) : array2 := repeat (0, 0) n.

(** [np.vstack([r[1], -r[0]])]: every column turned by a quarter turn. *)
Definition perp (r : array2) : array2 := map (fun p => (snd p, - fst p)) r.

(** [a / d] for [a] of shape (2,n) and [d] of shape (n,): column i of [a]
    divided by [d[i]].  The callers build [d] from [a], so the shapes agree. *)
Definition div_cols (a : array2) (d : list R) : outcome array2 :=
  if existsb is_zero d then NotFinite
  else Ok (map (fun ps => (fst (fst ps) / snd ps, snd (fst ps) / snd ps))
               (combine a d)).

(** [v / s] for a vector [v] and a numpy scalar [s]. *)
Definition div_scalar (v : vec2) (s : R) : outcome vec2 :=
  if is_zero s then NotFinite else Ok (fst v / s, snd v / s).

Definition sum_list (l : list R) : R := fold_right Rplus 0 l.

(** [np.dot] of two vectors of shape (n,). *)
Definition dot (a b : list R) : R :=
  sum_list (map (fun pq => fst pq * snd pq) (combine a b)).

(** [np.dot(A, x)] for a matrix [A] and a vector [x]. *)
Definition mat_vec (A : matrix) (x : list R) : list R :=
  map (fun row => dot row x) A.

(** ** The store of array objects

    numpy arrays are mutable objects.  The arrays whose identity a caller can
    observe (the position of the shed vortex) live in a store: an address is
    an index and an allocation appends.  Every address an object holds was
    allocated before. *)

Definition addr : Type := nat.
Definition store : Type := list vec2.

Definition alloc (s : store) (v : vec2) : store * addr := (s ++ [v], length s).
Definition deref (s : store) (a : addr) : vec2 := nth a s (0, 0).

(** ** class LumpedVortex *)

Module LumpedVortex.

(** The class attribute [_core_radius = 1.e-3]. *)
Definition _core_radius : R := 1e-3.

(** [np.sum(r * r, 0)]. *)
Definition sum_sq (r : array2) : list R :=
  map (fun p => fst p * fst p + snd p * snd p) r.

(** [np.maximum(s, c)] for a scalar [c]. *)
Definition maximum (s : list R) (c : R) : list R := map (fun a => Rmax a c) s.

(** The denominator [rsq] of [induced_velocity_single]. *)
Definition rsq (core_radius : R) (x : array2) (xvort : vec2) : list R :=
  maximum (sum_sq (sub_col x xvort)) (core_radius ^ 2).

(** [induced_velocity_single(self, x, xvort, gam)], with [self.core_radius]
    as first argument. *)
Definition induced_velocity_single (core_radius : R) (x : array2)
    (xvort : vec2) (gam : R) : outcome array2 :=
  let r := sub_col x xvort in
  let rsq := maximum (sum_sq r) (core_radius ^ 2) in
  div_cols (scale (gam / (2 * PI)) (perp r)) rsq.

(** One turn of the loops [for xv, gam in zip(...): vel +=
    self.induced_velocity_single(x, xv, gam)] of the two subclasses. *)
Definition accumulate (core_radius : R) (x : array2) (acc : outcome array2)
    (vortex : vec2 * R) : outcome array2 :=
  vel <- acc ;;
  v <- induced_velocity_single core_radius x (fst vortex) (snd vortex) ;;
  Ok (add_arr vel v).

(** The kernel in the words of the specification, for one target point:
    [(Gamma / 2 pi) * (r_y, - r_x) / max(|r|^2, r0^2)] with
    [r = p - xv]. *)
Definition point_vortex_velocity (r0 : R) (xv : vec2) (Gamma : R)
    (p : vec2) : vec2 :=
  let rx := fst p - fst xv in
  let ry := snd p - snd xv in
  let d := Rmax (rx * rx + ry * ry) (r0 * r0) in
  (Gamma / (2 * PI) * ry / d, Gamma / (2 * PI) * (- rx) / d).

End LumpedVortex.

(** ** class FreeVortexParticles(LumpedVortex) *)

Module FreeVortexParticles.

(** The attributes of an instance.  [_x_vortices] is [None] or an array of
    shape (2,n) with n >= 1. *)
Record t : Type := mk {
  core_radius : R;
  _x_vortices : option array2;
  _gamma : list R;
  _num_vortices : nat;
  _circulation : R
}.

(** [reset(self)]. *)
Definition reset (self : t) : t :=
  {| core_radius := core_radius self;
     _x_vortices := None;
     _gamma := [];
     _num_vortices := 0;
     _circulation := 0 |}.

(** [FreeVortexParticles()]: the inherited core radius, then [reset]. *)
Definition __init__ : t :=
  reset {| core_radius := LumpedVortex._core_radius;
           _x_vortices := None;
           _gamma := [];
           _num_vortices := 0;
           _circulation := 0 |}.

(** The setter of the property [core_radius]. *)
Definition set_core_radius (self : t) (value : R) : t :=
  {| core_radius := value;
     _x_vortices := _x_vortices self;
     _gamma := _gamma self;
     _num_vortices := _num_vortices self;
     _circulation := _circulation self |}.

(** The property [circulation]. *)
Definition circulation (self : t) : R := _circulation self.

(** [add_vortex(self, x, gamma)].  The first position is stored as the view
    [x[:,np.newaxis]] of the caller's array and the later ones are copied by
    [np.append]; the wake holds values here. *)
Definition add_vortex (self : t) (x : vec2) (gamma : R) : t :=
  {| core_radius := core_radius self;
     _x_vortices :=
       match _x_vortices self with
       | None => Some [x]
       | Some xs => Some (xs ++ [x])
       end;
     _gamma := _gamma self ++ [gamma];
     _num_vortices := _num_vortices self + 1;
     _circulation := _circulation self + gamma |}.

(** [induced_velocity(self, x)].  [np.zeros_like(x)] comes first and
    succeeds; [zip] then asks [np.transpose(self._x_vortices)] for an
    iterator, and for [None] that is a 0-d array, which has none. *)
Definition induced_velocity (self : t) (x : array2) : outcome array2 :=
  match _x_vortices self with
  | None => Raise TypeError
  | Some xv =>
      fold_left (LumpedVortex.accumulate (core_radius self) x)
                (combine xv (_gamma self)) (Ok (zeros_like x))
  end.

(** [Uinfty.any()]. *)
Definition any (u : vec2) : bool := negb (is_zero (fst u) && is_zero (snd u)).

(** The property [vortices]. *)
Definition vortices (self : t) : option array2 * list R :=
  (_x_vortices self, _gamma self).

(** [body] is any object with [induced_velocity] and [get_newly_shed]:
    the methods are passed with it. *)
Section Body.
Variable panels : Type.
Variable panels_induced_velocity : panels -> array2 -> outcome array2.
Variable panels_get_newly_shed :
  panels -> store -> outcome (store * (addr * R)).

(** [vel += body.induced_velocity(...)]: a body answers with the shape it
    was asked for; another shape does not fit [vel]. *)
Definition iadd (vel bv : array2) : outcome array2 :=
  if Nat.eqb (length vel) (length bv) then Ok (add_arr vel bv)
  else Raise ValueError.

(** [advect(self, dt, Uinfty, body)].  With [self._x_vortices] equal to
    [None] the first statement calls [self.induced_velocity(None)],
    which raises as above. *)
Definition advect (self : t) (dt : R) (Uinfty : option vec2)
    (body : option panels) : outcome t :=
  match _x_vortices self with
  | None => Raise TypeError
  | Some xs =>
      vel <- induced_velocity self xs ;;
      vel <- match body with
             | Some b => bv <- panels_induced_velocity b xs ;; iadd vel bv
             | None => Ok vel
             end ;;
      let vel :=
        match Uinfty with
        | Some u => if any u then add_col vel u else vel
        | None => vel
        end in
      Ok {| core_radius := core_radius self;
            _x_vortices := Some (add_arr xs (scale dt vel));
            _gamma := _gamma self;
            _num_vortices := _num_vortices self;
            _circulation := _circulation self |}
  end.

(** [add_newly_shed(self, body)]. *)
Definition add_newly_shed (self : t) (body : panels) (s : store)
    : outcome (store * t) :=
  shed <- panels_get_newly_shed body s ;;
  Ok (fst shed,
      add_vortex self (deref (fst shed) (fst (snd shed))) (snd (snd shed))).
End Body.

End FreeVortexParticles.

(** ** class BoundVortexPanels(LumpedVortex) *)

Module BoundVortexPanels.

(** The motion of a body: what [get_motion()] returns when it is not
    [None].  Its three maps act on every column of an array. *)
Record Motion : Type := {
  map_position : vec2 -> vec2;
  map_vector : vec2 -> vec2;
  map_velocity : vec2 -> vec2
}.

(** The body: [get_points(body_frame=True)] and [get_motion()]. *)
Record Body : Type := {
  get_points : array2;
  get_motion : option Motion
}.

(** The attributes of an instance.  [_x_shed] and [_gam_shed] are [None]
    as long as the attribute does not exist. *)
Record t : Type := mk {
  core_radius : R;
  _body : Body;
  _numpanels : nat;
  _normals : array2;
  _xvort : array2;
  _xcoll : array2;
  _trailing_edge : vec2;
  _wake_dir : vec2;
  _gam : list R;
  _influence_matrix : option matrix;
  _x_shed : option addr;
  _gam_shed : option R
}.

Definition set_influence_matrix (self : t) (A : option matrix) : t :=
  mk (core_radius self) (_body self) (_numpanels self) (_normals self)
     (_xvort self) (_xcoll self) (_trailing_edge self) (_wake_dir self)
     (_gam self) A (_x_shed self) (_gam_shed self).

Definition set_gam (self : t) (gam : list R) : t :=
  mk (core_radius self) (_body self) (_numpanels self) (_normals self)
     (_xvort self) (_xcoll self) (_trailing_edge self) (_wake_dir self)
     gam (_influence_matrix self) (_x_shed self) (_gam_shed self).

Definition set_shed (self : t) (x : addr) (gam : R) : t :=
  mk (core_radius self) (_body self) (_numpanels self) (_normals self)
     (_xvort self) (_xcoll self) (_trailing_edge self) (_wake_dir self)
     (_gam self) (_influence_matrix self) (Some x) (Some gam).

(** The setter of the property [core_radius]. *)
Definition set_core_radius (self : t) (value : R) : t :=
  mk value (_body self) (_numpanels self) (_normals self)
     (_xvort self) (_xcoll self) (_trailing_edge self) (_wake_dir self)
     (_gam self) (_influence_matrix self) (_x_shed self) (_gam_shed self).

(** The body moved or was replaced: the caller's side of [self._body]. *)
Definition set_body (self : t) (body : Body) : t :=
  mk (core_radius self) body (_numpanels self) (_normals self)
     (_xvort self) (_xcoll self) (_trailing_edge self) (_wake_dir self)
     (_gam self) (_influence_matrix self) (_x_shed self) (_gam_shed self).

(** [np.diff(q)] along the columns. *)
Fixpoint diff (q : array2) : array2 :=
  match q with
  | a :: (b :: _) as tl => vsub b a :: diff tl
  | _ => []
  end.

(** [np.dot(Uinfty, dq) <= 0], column by column. *)
Definition against_flow (Uinfty : vec2) (dq : array2) : list bool :=
  map (fun d => if Rle_dec (vdot Uinfty d) 0 then true else false) dq.

(** [a = lo.copy(); a[:,top] = hi[:,top]]. *)
Fixpoint assign_where (top : list bool) (lo hi : array2) : array2 :=
  match top, lo, hi with
  | b :: top', l :: lo', h :: hi' =>
      (if b then h else l) :: assign_where top' lo' hi'
  | _, _, _ => []
  end.

(** The trailing edge and the direction of the wake: lines 91 to 100. *)
Definition trailing_edge (q dq : array2) : outcome (vec2 * vec2) :=
  match q with
  | [] => Raise IndexError
  | q0 :: _ =>
      let qlast := last q q0 in
      if Rlt_dec (norm (vsub q0 qlast)) 0.005 then
        match dq with
        | [] => Raise IndexError
        | dq0 :: _ =>
            let dqlast := last dq dq0 in
            let wake_dir := vscale (- 0.5) (vsub dq0 dqlast) in
            wd <- div_scalar wake_dir (norm wake_dir) ;;
            Ok (vscale 0.5 (vadd q0 qlast), wd)
        end
      else
        match dq with
        | [] => Raise IndexError
        | dq0 :: _ =>
            wd <- div_scalar (vscale (-1) dq0) (norm dq0) ;;
            Ok (q0, wd)
        end
  end.

(** [_update(self, Uinfty)]. *)
Definition _update (self : t) (Uinfty : vec2) : outcome t :=
  let q := get_points (_body self) in
  let dq := diff q in
  normals <- div_cols (perp dq) (map norm dq) ;;
  let q25 := add_arr (removelast q) (scale 0.25 dq) in
  let q75 := add_arr (removelast q) (scale 0.75 dq) in
  let top := against_flow Uinfty dq in
  te <- trailing_edge q dq ;;
  Ok (mk (core_radius self) (_body self) (length dq) normals
         (assign_where top q25 q75) (assign_where top q75 q25)
         (fst te) (snd te)
         (repeat 0 (length dq)) None (_x_shed self) (_gam_shed self)).

(** [BoundVortexPanels(body, Uinfty)]: the object has the class's core
    radius and no other attribute than [_body] when [_update] starts. *)
Definition __init__ (body : Body) (Uinfty : vec2) : outcome t :=
  _update (mk LumpedVortex._core_radius body 0 [] [] [] (0, 0) (0, 0) []
              None None None) Uinfty.

Definition update_positions (self : t) : t := set_influence_matrix self None.

Fixpoint map_outcome {A B : Type} (f : A -> outcome B) (l : list A)
    : outcome (list B) :=
  match l with
  | [] => Ok []
  | a :: l' => b <- f a ;; bs <- map_outcome f l' ;; Ok (b :: bs)
  end.

(** The matrix of [n] rows whose columns are [cols]: [A[:, i] = cols[i]]. *)
Definition of_columns (n : nat) (cols : list (list R)) : matrix :=
  map (fun j => map (fun col => nth j col 0) cols) (seq 0 n).

(** The body of the property [influence_matrix] when the cache is empty. *)
Definition compute_influence_matrix (self : t) : outcome matrix :=
  cols <- map_outcome
            (fun xv =>
               vel <- LumpedVortex.induced_velocity_single
                        (core_radius self) (_xcoll self) xv 1 ;;
               Ok (sum_prod vel (_normals self)))
            (_xvort self) ;;
  Ok (of_columns (_numpanels self) cols).

(** The property [influence_matrix]: the object after the access, and the
    matrix. *)
Definition influence_matrix (self : t) : outcome (t * matrix) :=
  match _influence_matrix self with
  | Some A => Ok (self, A)
  | None =>
      A <- compute_influence_matrix self ;;
      Ok (set_influence_matrix self (Some A), A)
  end.

(** [induced_velocity(self, x)]. *)
Definition induced_velocity (self : t) (x : array2) : outcome array2 :=
  let xvort_in :=
    match get_motion (_body self) with
    | Some motion => map (map_position motion) (_xvort self)
    | None => _xvort self
    end in
  fold_left (LumpedVortex.accumulate (core_radius self) x)
            (combine xvort_in (_gam self)) (Ok (zeros_like x)).

(** [a -= b] on arrays of one shape. *)
Definition sub_arr (a b : array2) : array2 :=
  map (fun pq => vsub (fst pq) (snd pq)) (combine a b).

(** [compute_rhs(self, Uinfty, wake)].  A wake object is true. *)
Definition compute_rhs (self : t) (Uinfty : vec2)
    (wake : option FreeVortexParticles.t) : outcome (list R) :=
  let motion := get_motion (_body self) in
  let xcoll_inertial :=
    match motion with
    | Some m => map (map_position m) (_xcoll self)
    | None => _xcoll self
    end in
  let normals_inertial :=
    match motion with
    | Some m => map (map_vector m) (_normals self)
    | None => _normals self
    end in
  vel <- match wake with
         | Some w => FreeVortexParticles.induced_velocity w xcoll_inertial
         | None => Ok (zeros2 (_numpanels self))
         end ;;
  let vel :=
    match motion with
    | Some m => sub_arr vel (map (map_velocity m) (_xcoll self))
    | None => vel
    end in
  let vel := add_col vel Uinfty in
  Ok (map Ropp (sum_prod vel normals_inertial)).

(** The total circulation of the last equation: lines 191 to 195. *)
Definition total_circulation (circ : option R)
    (wake : option FreeVortexParticles.t) : R :=
  match circ with
  | Some c => c
  | None =>
      match wake with
      | None => 0
      | Some w => - FreeVortexParticles.circulation w
      end
  end.

(** [np.hstack([A, c[:, np.newaxis]])]. *)
Definition hstack_col (A : matrix) (c : list R) : matrix :=
  map (fun rc => fst rc ++ [snd rc]) (combine A c).

(** Lines 177 to 196 of [update_strengths_unsteady]: the object after the
    access to [influence_matrix], the position of the shed vortex, and the
    system [A], [rhs]. *)
Definition unsteady_system (self : t) (dt : R) (Uinfty : vec2)
    (wake : option FreeVortexParticles.t) (circ : option R) (wake_fac : R)
    : outcome (t * (vec2 * (matrix * list R))) :=
  let distance :=
    wake_fac * sqrt (fst Uinfty ^ 2 + snd Uinfty ^ 2) * dt in
  let x_shed := vadd (_trailing_edge self) (vscale distance (_wake_dir self)) in
  shed_vel <- LumpedVortex.induced_velocity_single
                (core_radius self) (_xcoll self) x_shed 1 ;;
  let shed_normal := sum_prod shed_vel (_normals self) in
  infl <- influence_matrix self ;;
  let A := hstack_col (snd infl) shed_normal
           ++ [repeat 1 (_numpanels self + 1)] in
  rhs0 <- compute_rhs (fst infl) Uinfty wake ;;
  let rhs := rhs0 ++ [total_circulation circ wake] in
  Ok (fst infl, (x_shed, (A, rhs))).

(** [np.linalg.solve] is numpy's. *)
Section Solve.
Variable solve : matrix -> list R -> outcome (list R).

(** [update_strengths(self, Uinfty)]. *)
Definition update_strengths (self : t) (Uinfty : vec2) : outcome t :=
  rhs <- compute_rhs self Uinfty None ;;
  infl <- influence_matrix self ;;
  gam <- solve (snd infl) rhs ;;
  Ok (set_gam (fst infl) gam).

(** [update_strengths_unsteady(self, dt, Uinfty, wake, circ, wake_fac)].
    [x_shed] is a new array object. *)
Definition update_strengths_unsteady (self : t) (s : store) (dt : R)
    (Uinfty : vec2) (wake : option FreeVortexParticles.t)
    (circ : option R) (wake_fac : R) : outcome (store * t) :=
  sys <- unsteady_system self dt Uinfty wake circ wake_fac ;;
  let x_shed := alloc s (fst (snd sys)) in
  gam <- solve (fst (snd (snd sys))) (snd (snd (snd sys))) ;;
  Ok (fst x_shed,
      set_shed (set_gam (fst sys) (removelast gam))
               (snd x_shed) (last gam 0)).
End Solve.

(** [get_newly_shed(self)]: the store after the call, the address of the
    returned array and the strength.  Both branches build a new array. *)
Definition get_newly_shed (self : t) (s : store)
    : outcome (store * (addr * R)) :=
  match _x_shed self with
  | None => Raise AttributeError
  | Some a =>
      let x_shed_inertial :=
        match get_motion (_body self) with
        | Some motion => alloc s (map_position motion (deref s a))
        | None => alloc s (deref s a)
        end in
      match _gam_shed self with
      | None => Raise AttributeError
      | Some g => Ok (fst x_shed_inertial, (snd x_shed_inertial, g))
      end
  end.

(** The properties [vortices], [collocation_pts] and [normals]. *)
Definition vortices (self : t) : array2 * list R := (_xvort self, _gam self).
Definition collocation_pts (self : t) : array2 := _xcoll self.
Definition normals (self : t) : list R * list R :=
  (map fst (_normals self), map snd (_normals self)).

End BoundVortexPanels.


(** ** Reference definitions, in the words of the specification *)

(** The velocity a list of point vortices induces at [p]: the sum of the
    kernel over the vortices, in their order. *)
Definition induced_sum (r0 : R) (vortices : list (vec2 * R)) (p : vec2) : vec2 :=
  fold_left
    (fun acc v => vadd acc (LumpedVortex.point_vortex_velocity r0 (fst v) (snd v) p))
    vortices (0, 0).

(** A sequence of [add_vortex] calls. *)
Definition add_all (w : FreeVortexParticles.t) (l : list (vec2 * R))
    : FreeVortexParticles.t :=
  fold_left (fun w xg => FreeVortexParticles.add_vortex w (fst xg) (snd xg)) l w.

(** The bound vortices of a panel object in the inertial frame, with their
    strengths. *)
Definition bound_vortices (b : BoundVortexPanels.t) : list (vec2 * R) :=
  combine
    (match BoundVortexPanels.get_motion (BoundVortexPanels._body b) with
     | Some m => map (BoundVortexPanels.map_position m) (BoundVortexPanels._xvort b)
     | None => BoundVortexPanels._xvort b
     end)
    (BoundVortexPanels._gam b).

(** The velocity that advects a particle at [p]: the wake's own, the
    body's when there is one, and the free stream. *)
Definition advection_velocity (w : FreeVortexParticles.t) (xs : array2)
    (Uinfty : option vec2) (body : option BoundVortexPanels.t) (p : vec2) : vec2 :=
  vadd
    (vadd (induced_sum (FreeVortexParticles.core_radius w)
                       (combine xs (FreeVortexParticles._gamma w)) p)
          (match body with
           | Some b => induced_sum (BoundVortexPanels.core_radius b)
                                   (bound_vortices b) p
           | None => (0, 0)
           end))
    (match Uinfty with
     | Some u => u
     | None => (0, 0)
     end).

(** The words of the specification for the trailing edge: the first and
    last boundary points, the first and last panels (each from a boundary
    point to the next), a midpoint, a normalized vector. *)
Definition first_point (q : array2) : vec2 := hd (0, 0) q.
Definition last_point (q : array2) : vec2 := last q (0, 0).
Definition first_panel (q : array2) : vec2 := vsub (nth 1 q (0, 0)) (nth 0 q (0, 0)).
Definition last_panel (q : array2) : vec2 :=
  vsub (last q (0, 0)) (last (removelast q) (0, 0)).
Definition midpoint (a b : vec2) : vec2 :=
  ((fst a + fst b) / 2, (snd a + snd b) / 2).
Definition normalize (v : vec2) : vec2 := (fst v / norm v, snd v / norm v).
(** The unit vector along the mean of two vectors, and the unit vector that
    bisects the angle between two directions: the sum of the two unit
    vectors, normalized. *)
Definition mean_direction (a b : vec2) : vec2 := normalize (midpoint a b).
Definition bisector (a b : vec2) : vec2 :=
  normalize (vadd (normalize a) (normalize b)).

(** The distance between the first and last boundary points under which a
    body counts as closed. *)
Definition closed_threshold : R := 0.005.

(** The trailing edge and the wake direction for boundary points [q], in
    these words: for a closed body the wake direction is the mean direction
    of the reversed first panel and the last panel. *)
Definition trailing_edge_descriptor (q : array2) : vec2 * vec2 :=
  if Rlt_dec (norm (vsub (first_point q) (last_point q))) closed_threshold
  then (midpoint (first_point q) (last_point q),
        mean_direction (vscale (-1) (first_panel q)) (last_panel q))
  else (first_point q, normalize (vscale (-1) (first_panel q))).

(** ** Invariants and reachable objects *)

(** The shapes of the attributes agree with the number of panels. *)
Definition shapes_agree (self : BoundVortexPanels.t) : Prop :=
  length (BoundVortexPanels._normals self) = BoundVortexPanels._numpanels self
  /\ length (BoundVortexPanels._xvort self) = BoundVortexPanels._numpanels self
  /\ length (BoundVortexPanels._xcoll self) = BoundVortexPanels._numpanels self
  /\ (forall A, BoundVortexPanels._influence_matrix self = Some A ->
             length A = BoundVortexPanels._numpanels self).

(** One call on a panel object other than a completed
    [update_strengths_unsteady].  The calls that only read are left out; a
    call that raises after it read [influence_matrix] has done
    [step_influence_matrix]. *)
Inductive step : BoundVortexPanels.t -> BoundVortexPanels.t -> Prop :=
| step_update_positions (self : BoundVortexPanels.t) :
    step self (BoundVortexPanels.update_positions self)
| step__update (self self' : BoundVortexPanels.t) (Uinfty : vec2) :
    BoundVortexPanels._update self Uinfty = Ok self' -> step self self'
| step_update_strengths (solve : matrix -> list R -> outcome (list R))
    (self self' : BoundVortexPanels.t) (Uinfty : vec2) :
    BoundVortexPanels.update_strengths solve self Uinfty = Ok self' ->
    step self self'
| step_influence_matrix (self self' : BoundVortexPanels.t) (A : matrix) :
    BoundVortexPanels.influence_matrix self = Ok (self', A) -> step self self'
| step_core_radius (self : BoundVortexPanels.t) (value : R) :
    step self (BoundVortexPanels.set_core_radius self value)
| step_body (self : BoundVortexPanels.t) (body : BoundVortexPanels.Body) :
    step self (BoundVortexPanels.set_body self body).

(** The objects on which no [update_strengths_unsteady] has completed. *)
Inductive before_unsteady : BoundVortexPanels.t -> Prop :=
| before_init (body : BoundVortexPanels.Body) (Uinfty : vec2)
    (self : BoundVortexPanels.t) :
    BoundVortexPanels.__init__ body Uinfty = Ok self -> before_unsteady self
| before_step (self self' : BoundVortexPanels.t) :
    before_unsteady self -> step self self' -> before_unsteady self'.

(** The objects a program can hold: built by the constructor and changed
    by the calls above and by completed unsteady solves, with any solver. *)
Inductive reachable : BoundVortexPanels.t -> Prop :=
| reachable_init (body : BoundVortexPanels.Body) (Uinfty : vec2)
    (self : BoundVortexPanels.t) :
    BoundVortexPanels.__init__ body Uinfty = Ok self -> reachable self
| reachable_step (self self' : BoundVortexPanels.t) :
    reachable self -> step self self' -> reachable self'
| reachable_unsteady (solve : matrix -> list R -> outcome (list R))
    (self self' : BoundVortexPanels.t) (s s' : store) (dt : R) (Uinfty : vec2)
    (wake : option FreeVortexParticles.t) (circ : option R) (wake_fac : R) :
    reachable self ->
    BoundVortexPanels.update_strengths_unsteady solve self s dt Uinfty wake
      circ wake_fac = Ok (s', self') ->
    reachable self'.

(** ** The solver and the store in the statements *)

(** What [np.linalg.solve] promises in exact arithmetic: a result has the
    shape of the right-hand side and solves the system. *)
Definition exact_solver (solve : matrix -> list R -> outcome (list R)) : Prop :=
  forall (A : matrix) (b x : list R),
    solve A b = Ok x -> length x = length b /\ mat_vec A x = b.

(** In-place assignment to the array at address [a]. *)
Fixpoint write (s : store) (a : addr) (v : vec2) : store :=
  match s, a with
  | [], _ => []
  | _ :: s', O => v :: s'
  | u :: s', S a' => u :: write s' a' v
  end.

(** ** Worked inputs *)

(** A flat plate from (1,0) to (0,0): one panel, open at the trailing edge. *)
Definition flat_plate : BoundVortexPanels.Body :=
  {| BoundVortexPanels.get_points := [(1, 0); (0, 0)];
     BoundVortexPanels.get_motion := None |}.

(** A wake of one vortex of strength 2. *)
Definition one_vortex_wake : FreeVortexParticles.t :=
  FreeVortexParticles.add_vortex FreeVortexParticles.__init__ (2, 1) 2.

(** Cramer's rule, for the systems of two equations. *)
Definition solve_2x2 (A : matrix) (b : list R) : outcome (list R) :=
  match A, b with
  | [[a11; a12]; [a21; a22]], [b1; b2] =>
      let det := a11 * a22 - a12 * a21 in
      if is_zero det then Raise LinAlgError
      else Ok [(b1 * a22 - a12 * b2) / det; (a11 * b2 - b1 * a21) / det]
  | _, _ => Raise LinAlgError
  end.

(** The panel object of the flat plate in a unit stream along y, as the
    constructor builds it, and as the unsteady solve of one step of length 1
    leaves it. *)
Definition plate_across : BoundVortexPanels.t :=
  BoundVortexPanels.mk LumpedVortex._core_radius flat_plate 1
    [(0, 1)] [(0.25, 0)] [(0.75, 0)] (1, 0) (1, 0) [0] None None None.

Definition plate_across_solved : BoundVortexPanels.t :=
  BoundVortexPanels.mk LumpedVortex._core_radius flat_plate 1
    [(0, 1)] [(0.25, 0)] [(0.75, 0)] (1, 0) (1, 0) [PI / 2]
    (Some [[- (1 / PI)]]) (Some 0%nat) (Some (- (PI / 2))).

(** The plate across the stream after the unsteady solve of one step of
    length 1 that was given the total circulation [c]. *)
Definition plate_across_given (c : R) : BoundVortexPanels.t :=
  BoundVortexPanels.mk LumpedVortex._core_radius flat_plate 1
    [(0, 1)] [(0.25, 0)] [(0.75, 0)] (1, 0) (1, 0) [(c + PI) / 2]
    (Some [[- (1 / PI)]]) (Some 0%nat) (Some ((c - PI) / 2)).

(** Two closed bodies, their boundary running from the trailing edge at the
    origin and back to it.  The end panels of the wedge have the same
    length; the kinked body ends with a panel three times as long as its
    first one, at a right angle to it. *)
Definition wedge : BoundVortexPanels.Body :=
  {| BoundVortexPanels.get_points := [(0, 0); (-1, 1); (-1, -1); (0, 0)];
     BoundVortexPanels.get_motion := None |}.

Definition kinked : BoundVortexPanels.Body :=
  {| BoundVortexPanels.get_points := [(0, 0); (-1, 0); (0, -3); (0, 0)];
     BoundVortexPanels.get_motion := None |}.

(** ** The wake a program can hold *)

(** The attributes of a wake agree: as many strengths and positions as the
    count says, no position array while the count is 0, and the running
    circulation equal to the sum of the strengths. *)
Definition wake_consistent (w : FreeVortexParticles.t) : Prop :=
  length (FreeVortexParticles._gamma w) = FreeVortexParticles._num_vortices w
  /\ FreeVortexParticles.circulation w = sum_list (FreeVortexParticles._gamma w)
  /\ match FreeVortexParticles._x_vortices w with
     | None => FreeVortexParticles._num_vortices w = 0%nat
     | Some xs => length xs = FreeVortexParticles._num_vortices w /\ xs <> []
     end.

(** The wakes built by the constructor and changed by the methods, with any
    body object. *)
Inductive wake_reachable : FreeVortexParticles.t -> Prop :=
| wake_init : wake_reachable FreeVortexParticles.__init__
| wake_reset (w : FreeVortexParticles.t) :
    wake_reachable w -> wake_reachable (FreeVortexParticles.reset w)
| wake_add_vortex (w : FreeVortexParticles.t) (x : vec2) (gamma : R) :
    wake_reachable w -> wake_reachable (FreeVortexParticles.add_vortex w x gamma)
| wake_set_core_radius (w : FreeVortexParticles.t) (value : R) :
    wake_reachable w -> wake_reachable (FreeVortexParticles.set_core_radius w value)
| wake_advect (panels : Type)
    (panels_induced_velocity : panels -> array2 -> outcome array2)
    (w w' : FreeVortexParticles.t) (dt : R) (Uinfty : option vec2)
    (body : option panels) :
    wake_reachable w ->
    FreeVortexParticles.advect panels panels_induced_velocity w dt Uinfty body
    = Ok w' ->
    wake_reachable w'
| wake_add_newly_shed (panels : Type)
    (panels_get_newly_shed : panels -> store -> outcome (store * (addr * R)))
    (w w' : FreeVortexParticles.t) (body : panels) (s s' : store) :
    wake_reachable w ->
    FreeVortexParticles.add_newly_shed panels panels_get_newly_shed w body s
    = Ok (s', w') ->
    wake_reachable w'.

(** The matrix in the cache, if any, is the one the geometry and the core
    radius of the object give. *)
Definition cache_current (self : BoundVortexPanels.t) : Prop :=
  forall A : matrix,
    BoundVortexPanels._influence_matrix self = Some A ->
    BoundVortexPanels.compute_influence_matrix self = Ok A.

(** The sum of the strength-weighted positions of a wake. *)
Definition vorticity_moment (xs : array2) (gs : list R) : vec2 :=
  (sum_list (map (fun xg => snd xg * fst (fst xg)) (combine xs gs)),
   sum_list (map (fun xg => snd xg * snd (fst xg)) (combine xs gs))).

(** The normal velocity a unit vortex at [xv] induces at the collocation
    point and normal [z]. *)
Definition unit_influence (r0 : R) (xv : vec2) (z : vec2 * vec2) : R :=
  vdot (LumpedVortex.point_vortex_velocity r0 xv 1 (fst z)) (snd z).

(** A solver for the systems of one equation. *)
Definition solve_1x1 (A : matrix) (b : list R) : outcome (list R) :=
  match A, b with
  | [[a]], [b1] => if is_zero a then Raise LinAlgError else Ok [b1 / a]
  | _, _ => Raise LinAlgError
  end.

(** The plate across the stream after the steady solve. *)
Definition plate_across_steady : BoundVortexPanels.t :=
  BoundVortexPanels.mk LumpedVortex._core_radius flat_plate 1
    [(0, 1)] [(0.25, 0)] [(0.75, 0)] (1, 0) (1, 0) [PI]
    (Some [[- (1 / PI)]]) None None.

(** A rigid motion of the body: positions are turned by the angle of
    cosine [c] and sine [s] and then translated, vectors are turned. *)
Definition rigid (m : BoundVortexPanels.Motion) : Prop :=
  exists c s tx ty : R,
    c * c + s * s = 1
    /\ (forall p : vec2,
          BoundVortexPanels.map_position m p
          = (c * fst p - s * snd p + tx, s * fst p + c * snd p + ty))
    /\ (forall v : vec2,
          BoundVortexPanels.map_vector m v
          = (c * fst v - s * snd v, s * fst v + c * snd v)).

(** The flat plate held at rest at the place (1,2) of the inertial frame,
    its panel object in a unit stream along y, and that object after the
    unsteady solve of one step of length 1. *)
Definition shift : BoundVortexPanels.Motion :=
  {| BoundVortexPanels.map_position := fun p => (fst p + 1, snd p + 2);
     BoundVortexPanels.map_vector := fun v => v;
     BoundVortexPanels.map_velocity := fun _ => (0, 0) |}.

Definition shifted_plate : BoundVortexPanels.Body :=
  {| BoundVortexPanels.get_points := [(1, 0); (0, 0)];
     BoundVortexPanels.get_motion := Some shift |}.

Definition plate_shifted : BoundVortexPanels.t :=
  BoundVortexPanels.mk LumpedVortex._core_radius shifted_plate 1
    [(0, 1)] [(0.25, 0)] [(0.75, 0)] (1, 0) (1, 0) [0] None None None.

Definition plate_shifted_solved : BoundVortexPanels.t :=
  BoundVortexPanels.mk LumpedVortex._core_radius shifted_plate 1
    [(0, 1)] [(0.25, 0)] [(0.75, 0)] (1, 0) (1, 0) [PI / 2]
    (Some [[- (1 / PI)]]) (Some 0%nat) (Some (- (PI / 2))).

(** ** The position array of the wake as an object

    [add_vortex] on a wake without vortices stores [x[:,np.newaxis]], a view
    of the caller's array [x]; from the second vortex on, [np.append] builds
    a new array.  [advect] updates [self._x_vortices] in place, so it writes
    through a view.  The wake is the wake above together with [base], the
    address of the array its positions are a view of, if they are one. *)
Module InPlace.

Record t : Type := mk {
  wake : FreeVortexParticles.t;
  base : option addr
}.

Definition reset (self : t) : t :=
  mk (FreeVortexParticles.reset (wake self)) None.

(** [add_vortex(self, x, gamma)] with [x] the array at address [x]. *)
Definition add_vortex (self : t) (s : store) (x : addr) (gamma : R) : t :=
  mk (FreeVortexParticles.add_vortex (wake self) (deref s x) gamma)
     (match FreeVortexParticles._x_vortices (wake self) with
      | None => Some x
      | Some _ => None
      end).

Section Body.
Variable panels : Type.
Variable panels_induced_velocity : panels -> array2 -> outcome array2.

(** [advect(self, dt, Uinfty, body)]: [self._x_vortices += vel * dt]. *)
Definition advect (self : t) (s : store) (dt : R) (Uinfty : option vec2)
    (body : option panels) : outcome (store * t) :=
  w <- FreeVortexParticles.advect panels panels_induced_velocity
         (wake self) dt Uinfty body ;;
  Ok (match base self, FreeVortexParticles._x_vortices w with
      | Some a, Some (p :: _) => write s a p
      | _, _ => s
      end,
      mk w (base self)).
End Body.

End InPlace.

(** ** The code in binary64

    The strengths and the kernel once more, with the numbers the program
    has: Python floats and numpy float64, IEEE 754 binary64 with rounding
    to nearest.  A decimal literal stands for the nearest binary64 value, as
    it does in Python. *)
#[local] Set Warnings "-inexact-float".

Module Float64.
Import PrimFloat.

Definition vec2 : Type := (float * float)%type.
Definition array2 : Type := list vec2.

(** The class attribute [_core_radius = 1.e-3], and the numbers of the
    worked inputs. *)
Definition _core_radius : float := 1e-3%float.

Module LumpedVortex.

(** [np.pi]. *)
Definition pi : float := 3.141592653589793%float.

(** [np.maximum(a, c)]: [a] when [a >= c] or [a] is nan, else [c]; a nan
    on either side comes out. *)
Definition maximum (a c : float) : float :=
  if (leb c a || is_nan a)%bool then a else c.

(** The denominators [rsq = np.maximum(np.sum(r * r, 0),
    self.core_radius**2)], one for each target. *)
Definition rsq (core_radius : float) (x : array2) (xvort : vec2) : list float :=
  map (fun p =>
         let r0 := sub (fst p) (fst xvort) in
         let r1 := sub (snd p) (snd xvort) in
         maximum (add (mul r0 r0) (mul r1 r1)) (mul core_radius core_radius))
      x.

(** [induced_velocity_single(self, x, xvort, gam)]:
    [gam / (2 * np.pi) * np.vstack([r[1], -r[0]]) / rsq], evaluated from the
    left.  A division by zero is not an exception in numpy: the quotient is
    [inf] or [nan]. *)
Definition induced_velocity_single (core_radius : float) (x : array2)
    (xvort : vec2) (gam : float) : array2 :=
  map (fun pd : vec2 * float =>
         let r0 := sub (fst (fst pd)) (fst xvort) in
         let r1 := sub (snd (fst pd)) (snd xvort) in
         let k := div gam (mul two pi) in
         (div (mul k r1) (snd pd), div (mul k (opp r0)) (snd pd)))
      (combine x (rsq core_radius x xvort)).

End LumpedVortex.

Module FreeVortexParticles.

Record t : Type := mk {
  core_radius : float;
  _x_vortices : option array2;
  _gamma : list float;
  _num_vortices : nat;
  _circulation : float
}.

(** [reset(self)]. *)
Definition reset (self : t) : t :=
  {| core_radius := core_radius self;
     _x_vortices := None;
     _gamma := [];
     _num_vortices := 0;
     _circulation := zero |}.

(** [FreeVortexParticles()]. *)
Definition __init__ : t :=
  reset {| core_radius := _core_radius;
           _x_vortices := None;
           _gamma := [];
           _num_vortices := 0;
           _circulation := zero |}.

(** The property [circulation]. *)
Definition circulation (self : t) : float := _circulation self.

(** [add_vortex(self, x, gamma)]: [self._circulation += gamma] is one
    binary64 addition. *)
Definition add_vortex (self : t) (x : vec2) (gamma : float) : t :=
  {| core_radius := core_radius self;
     _x_vortices :=
       match _x_vortices self with
       | None => Some [x]
       | Some xs => Some (xs ++ [x])
       end;
     _gamma := _gamma self ++ [gamma];
     _num_vortices := _num_vortices self + 1;
     _circulation := add (_circulation self) gamma |}.

End FreeVortexParticles.

(** A sequence of [add_vortex] calls. *)
Definition add_all (w : FreeVortexParticles.t) (l : list (vec2 * float))
    : FreeVortexParticles.t :=
  fold_left (fun w xg => FreeVortexParticles.add_vortex w (fst xg) (snd xg)) l w.


End Float64.

(** * Properties *)

(** ** Arrays *)

Lemma is_zero_false (d : R) : d <> 0 -> is_zero d = false.
Proof.
  intros Hd. unfold is_zero. destruct (Req_dec_T d 0) as [E | _]; [contradiction | reflexivity].
Qed.

Lemma is_zero_true (d : R) : d = 0 -> is_zero d = true.
Proof.
  intros Hd. unfold is_zero. destruct (Req_dec_T d 0) as [_ | N]; [reflexivity | contradiction].
Qed.

Lemma existsb_is_zero_false (d : list R) :
  Forall (fun a => a <> 0) d -> existsb is_zero d = false.
Proof.
  induction 1 as [| a d Ha _ IH]; simpl.
  - reflexivity.
  - now rewrite (is_zero_false a Ha), IH.
Qed.

Lemma add_arr_map (f g : vec2 -> vec2) (x : array2) :
  add_arr (map f x) (map g x) = map (fun p => vadd (f p) (g p)) x.
Proof.
  unfold add_arr. induction x as [| p x IH]; simpl; [reflexivity | now rewrite IH].
Qed.

Lemma add_arr_map_r (g : vec2 -> vec2) (x : array2) :
  add_arr x (map g x) = map (fun p => vadd p (g p)) x.
Proof.
  rewrite <- (map_id x) at 1. apply add_arr_map.
Qed.

Lemma vadd_zero_r (v : vec2) : vadd v (0, 0) = v.
Proof.
  destruct v as [a b]. unfold vadd. simpl. f_equal; lra.
Qed.

Lemma norm_nonneg (v : vec2) : 0 <= norm v.
Proof. apply sqrt_pos. Qed.

Lemma norm_sqr (v : vec2) : norm v * norm v = fst v * fst v + snd v * snd v.
Proof.
  unfold norm. apply sqrt_sqrt. nra.
Qed.

Lemma norm_zero_iff (v : vec2) : norm v = 0 <-> v = (0, 0).
Proof.
  split.
  - intros H. pose proof (norm_sqr v) as S. rewrite H in S.
    destruct v as [a b]. simpl in S.
    assert (a = 0) by nra. assert (b = 0) by nra. now subst.
  - intros ->. unfold norm. simpl.
    replace (0 * 0 + 0 * 0) with 0 by lra. apply sqrt_0.
Qed.

(** ** The kernel *)

Lemma rsq_bounds (r0 : R) (x : array2) (xv : vec2) :
  Forall (fun d => r0 ^ 2 <= d) (LumpedVortex.rsq r0 x xv).
Proof.
  unfold LumpedVortex.rsq, LumpedVortex.maximum, LumpedVortex.sum_sq, sub_col.
  rewrite !map_map. apply Forall_forall. intros d Hd.
  apply in_map_iff in Hd. destruct Hd as [p [<- _]]. apply Rmax_r.
Qed.

Lemma rsq_nonzero (r0 : R) (x : array2) (xv : vec2) :
  r0 <> 0 -> Forall (fun d => d <> 0) (LumpedVortex.rsq r0 x xv).
Proof.
  intros H0. eapply Forall_impl; [| apply rsq_bounds].
  simpl. intros d Hd. assert (0 < r0 ^ 2) by nra. lra.
Qed.

(** With a core radius that is not zero the array code computes, in every
    column, the formula of the specification. *)
Lemma induced_velocity_single_pointwise (r0 : R) (x : array2) (xv : vec2)
    (gam : R) :
  r0 <> 0 ->
  LumpedVortex.induced_velocity_single r0 x xv gam
  = Ok (map (LumpedVortex.point_vortex_velocity r0 xv gam) x).
Proof.
  intros H0. unfold LumpedVortex.induced_velocity_single, div_cols.
  change (LumpedVortex.maximum (LumpedVortex.sum_sq (sub_col x xv)) (r0 ^ 2))
    with (LumpedVortex.rsq r0 x xv).
  rewrite (existsb_is_zero_false _ (rsq_nonzero r0 x xv H0)).
  cbv iota. apply f_equal.
  unfold LumpedVortex.rsq, LumpedVortex.maximum, LumpedVortex.sum_sq,
    scale, perp, sub_col.
  induction x as [| p x IH]; cbn [map combine]; [reflexivity |].
  rewrite IH. apply (f_equal (fun v => v :: _)).
  unfold LumpedVortex.point_vortex_velocity, vscale, vsub. cbn [fst snd].
  replace (r0 ^ 2) with (r0 * r0) by ring. reflexivity.
Qed.

(** Without regularisation the kernel divides by zero at the vortex. *)
Example induced_velocity_single_unregularised :
  LumpedVortex.induced_velocity_single 0 [(0, 0)] (0, 0) 1 = NotFinite.
Proof.
  unfold LumpedVortex.induced_velocity_single, div_cols. simpl.
  rewrite is_zero_true; [reflexivity |].
  unfold Rmax. destruct (Rle_dec _ _); lra.
Qed.

Lemma point_vortex_velocity_far (r0 : R) (xv : vec2) (Gamma : R) (p : vec2) :
  0 <= r0 -> r0 < norm (vsub p xv) ->
  norm (LumpedVortex.point_vortex_velocity r0 xv Gamma p)
  = Rabs Gamma / (2 * PI * norm (vsub p xv)).
Proof.
  intros H0 Hfar. set (d := norm (vsub p xv)) in *.
  assert (Hd : 0 < d) by lra.
  pose proof (norm_sqr (vsub p xv)) as Hsq. fold d in Hsq.
  unfold vsub in Hsq. simpl in Hsq.
  pose proof PI_RGT_0 as Hpi.
  unfold LumpedVortex.point_vortex_velocity.
  set (rx := fst p - fst xv) in *. set (ry := snd p - snd xv) in *.
  rewrite Rmax_left by nra. rewrite <- Hsq.
  unfold norm. simpl. apply sqrt_lem_1.
  - nra.
  - apply Rmult_le_pos; [apply Rabs_pos |]. left. apply Rinv_0_lt_compat. nra.
  - replace (Rabs Gamma / (2 * PI * d) * (Rabs Gamma / (2 * PI * d)))
      with ((Rabs Gamma * Rabs Gamma) / (2 * PI * d * (2 * PI * d)))
      by (field; lra).
    replace (Rabs Gamma * Rabs Gamma) with (Gamma * Gamma)
      by (unfold Rabs; destruct (Rcase_abs Gamma); ring).
    replace (Gamma / (2 * PI) * ry / (d * d) * (Gamma / (2 * PI) * ry / (d * d))
             + Gamma / (2 * PI) * - rx / (d * d) * (Gamma / (2 * PI) * - rx / (d * d)))
      with (Gamma * Gamma * (rx * rx + ry * ry)
            / (2 * PI * (2 * PI) * (d * d) * (d * d)))
      by (field; lra).
    rewrite <- Hsq. field. lra.
Qed.

Lemma point_vortex_velocity_at_vortex (r0 : R) (xv : vec2) (Gamma : R) :
  r0 <> 0 -> LumpedVortex.point_vortex_velocity r0 xv Gamma xv = (0, 0).
Proof.
  intros H0. unfold LumpedVortex.point_vortex_velocity.
  replace (fst xv - fst xv) with 0 by ring.
  replace (snd xv - snd xv) with 0 by ring.
  rewrite Rmax_right by nra.
  pose proof PI_RGT_0. f_equal; field; split; lra || nra.
Qed.

(** C1.  With core radius [r0 > 0], [induced_velocity_single] returns in
    every column the velocity [(Gamma / 2 pi) (r_y, - r_x) / max(|r|^2, r0^2)]
    with [r = p - xv]; at a distance [|r| > r0] its magnitude is
    [|Gamma| / (2 pi |r|)], and at the vortex itself it is [(0, 0)]. *)
Theorem induced_velocity_single_spec (r0 : R) (x : array2) (xv : vec2)
    (Gamma : R) :
  0 < r0 ->
  LumpedVortex.induced_velocity_single r0 x xv Gamma
  = Ok (map (LumpedVortex.point_vortex_velocity r0 xv Gamma) x)
  /\ (forall p : vec2,
        r0 < norm (vsub p xv) ->
        norm (LumpedVortex.point_vortex_velocity r0 xv Gamma p)
        = Rabs Gamma / (2 * PI * norm (vsub p xv)))
  /\ LumpedVortex.point_vortex_velocity r0 xv Gamma xv = (0, 0).
Proof.
  intros H0. split; [| split].
  - apply induced_velocity_single_pointwise. lra.
  - intros p Hp. apply point_vortex_velocity_far; lra.
  - apply point_vortex_velocity_at_vortex. lra.
Qed.

(** In exact arithmetic, for every core radius [r0 > 0] the denominator of
    [induced_velocity_single] is at least [r0 ^ 2 > 0] in every column, so
    the kernel never divides by zero: it returns an array of finite
    velocities of the shape of [x], whatever the targets, the vortex and
    its strength. *)
Lemma induced_velocity_single_exact (r0 : R) (x : array2) (xv : vec2)
    (gam : R) :
  0 < r0 ->
  Forall (fun d => 0 < r0 ^ 2 /\ r0 ^ 2 <= d) (LumpedVortex.rsq r0 x xv)
  /\ exists vel : array2,
       LumpedVortex.induced_velocity_single r0 x xv gam = Ok vel
       /\ length vel = length x.
Proof.
  intros H0. split.
  - eapply Forall_impl; [| apply rsq_bounds].
    simpl. intros d Hd. split; [nra | exact Hd].
  - exists (map (LumpedVortex.point_vortex_velocity r0 xv gam) x). split.
    + apply induced_velocity_single_pointwise. lra.
    + apply length_map.
Qed.

(** *** The kernel in binary64 *)








Lemma induced_velocity_single_spec_witness :
  0 < 1
  /\ LumpedVortex.induced_velocity_single 1 [(2, 0)] (0, 0) 1
     = Ok (map (LumpedVortex.point_vortex_velocity 1 (0, 0) 1) [(2, 0)])
  /\ (forall p : vec2,
        1 < norm (vsub p (0, 0)) ->
        norm (LumpedVortex.point_vortex_velocity 1 (0, 0) 1 p)
        = Rabs 1 / (2 * PI * norm (vsub p (0, 0))))
  /\ LumpedVortex.point_vortex_velocity 1 (0, 0) 1 (0, 0) = (0, 0).
Proof.
  split; [lra |].
  apply (induced_velocity_single_spec 1 [(2, 0)] (0, 0) 1). lra.
Defined.

(** The scenario of the specification: a unit vortex at the origin, seen
    from (1,0) with the default core radius. *)
Example unit_vortex_at_origin :
  LumpedVortex.induced_velocity_single LumpedVortex._core_radius
    [(1, 0); (0, 0)] (0, 0) 1
  = Ok [(0, - (1 / (2 * PI))); (0, 0)].
Proof.
  rewrite induced_velocity_single_pointwise
    by (unfold LumpedVortex._core_radius; lra).
  pose proof PI_RGT_0 as Hpi. simpl. f_equal.
  unfold LumpedVortex.point_vortex_velocity, LumpedVortex._core_radius.
  cbn [fst snd].
  replace (1 - 0) with 1 by ring. replace (0 - 0) with 0 by ring.
  rewrite Rmax_left by lra. rewrite Rmax_right by lra.
  repeat f_equal; field; lra.
Qed.

(** ** The loop over the vortices *)

Lemma fold_accumulate (r0 : R) (x : array2) (vs : list (vec2 * R)) :
  r0 <> 0 ->
  forall f : vec2 -> vec2,
    fold_left (LumpedVortex.accumulate r0 x) vs (Ok (map f x))
    = Ok (map (fun p =>
                 fold_left
                   (fun acc v =>
                      vadd acc (LumpedVortex.point_vortex_velocity r0 (fst v) (snd v) p))
                   vs (f p))
              x).
Proof.
  intros H0. induction vs as [| v vs IH]; intros f; cbn [fold_left].
  - reflexivity.
  - unfold LumpedVortex.accumulate at 2. cbn [bind].
    rewrite induced_velocity_single_pointwise by exact H0. cbn [bind].
    rewrite add_arr_map. apply IH.
Qed.

Lemma induced_velocity_sum (r0 : R) (x : array2) (vs : list (vec2 * R)) :
  r0 <> 0 ->
  fold_left (LumpedVortex.accumulate r0 x) vs (Ok (zeros_like x))
  = Ok (map (induced_sum r0 vs) x).
Proof.
  intros H0. unfold zeros_like. now rewrite fold_accumulate.
Qed.

(** ** The wake *)

Lemma sum_list_app (l1 l2 : list R) :
  sum_list (l1 ++ l2) = sum_list l1 + sum_list l2.
Proof.
  unfold sum_list. induction l1 as [| a l1 IH]; simpl; [lra | rewrite IH; lra].
Qed.

Lemma sum_list_permutation (l l' : list R) :
  Permutation l l' -> sum_list l = sum_list l'.
Proof.
  unfold sum_list.
  induction 1 as [| a l l' _ IH | a b l | l l' l'' _ IH1 _ IH2]; simpl.
  - reflexivity.
  - now rewrite IH.
  - lra.
  - now rewrite IH1.
Qed.

Lemma add_all_circulation (l : list (vec2 * R)) :
  forall w : FreeVortexParticles.t,
    FreeVortexParticles.circulation (add_all w l)
    = FreeVortexParticles.circulation w + sum_list (map snd l).
Proof.
  unfold add_all, FreeVortexParticles.circulation.
  induction l as [| xg l IH]; intros w; cbn [fold_left map].
  - unfold sum_list. simpl. lra.
  - rewrite IH. unfold sum_list. simpl. lra.
Qed.

Lemma add_all_gamma (l : list (vec2 * R)) :
  forall w : FreeVortexParticles.t,
    FreeVortexParticles._gamma (add_all w l)
    = FreeVortexParticles._gamma w ++ map snd l.
Proof.
  unfold add_all.
  induction l as [| xg l IH]; intros w; cbn [fold_left map].
  - now rewrite app_nil_r.
  - rewrite IH. simpl. now rewrite <- app_assoc.
Qed.

Lemma add_all_num_vortices (l : list (vec2 * R)) :
  forall w : FreeVortexParticles.t,
    FreeVortexParticles._num_vortices (add_all w l)
    = (FreeVortexParticles._num_vortices w + length l)%nat.
Proof.
  unfold add_all.
  induction l as [| xg l IH]; intros w; cbn [fold_left length].
  - lia.
  - rewrite IH. simpl. lia.
Qed.

(** In exact arithmetic: after [reset()] (or construction) and the calls
    [add_vortex(x_i, gamma_i)] of a list [l], the circulation is the sum of
    the strengths, the same for every reordering [l'] of the calls, and the
    particles are counted; [reset()] gives circulation 0, count 0 and no
    particle. *)
Lemma add_vortex_circulation_exact (w : FreeVortexParticles.t)
    (l l' : list (vec2 * R)) :
  Permutation l l' ->
  FreeVortexParticles.circulation (add_all (FreeVortexParticles.reset w) l)
  = sum_list (map snd l)
  /\ FreeVortexParticles.circulation (add_all FreeVortexParticles.__init__ l)
     = sum_list (map snd l)
  /\ FreeVortexParticles.circulation (add_all (FreeVortexParticles.reset w) l')
     = FreeVortexParticles.circulation (add_all (FreeVortexParticles.reset w) l)
  /\ FreeVortexParticles._num_vortices (add_all (FreeVortexParticles.reset w) l)
     = length l
  /\ FreeVortexParticles._gamma (add_all (FreeVortexParticles.reset w) l)
     = map snd l
  /\ FreeVortexParticles.circulation
       (FreeVortexParticles.reset (add_all (FreeVortexParticles.reset w) l)) = 0
  /\ FreeVortexParticles._num_vortices
       (FreeVortexParticles.reset (add_all (FreeVortexParticles.reset w) l)) = 0%nat
  /\ FreeVortexParticles._gamma
       (FreeVortexParticles.reset (add_all (FreeVortexParticles.reset w) l)) = []
  /\ FreeVortexParticles._x_vortices
       (FreeVortexParticles.reset (add_all (FreeVortexParticles.reset w) l)) = None.
Proof.
  intros HP. rewrite !add_all_circulation, add_all_num_vortices, add_all_gamma.
  cbn [FreeVortexParticles.reset FreeVortexParticles.__init__
       FreeVortexParticles.circulation FreeVortexParticles._circulation
       FreeVortexParticles._num_vortices FreeVortexParticles._gamma
       FreeVortexParticles._x_vortices].
  repeat split; try lra; try reflexivity.
  rewrite (sum_list_permutation (map snd l) (map snd l')); [reflexivity |].
  now apply Permutation_map.
Qed.

(** *** The running circulation in binary64 *)




(** C6.  [reset()] after any calls of [add_vortex] leaves circulation 0 and
    count 0, and the next [induced_velocity(x)] raises [TypeError] for
    every [x]: [self._x_vortices] is [None] and the loop cannot iterate
    over it.  The specification asks for zero vectors. *)
Theorem reset_then_induced_velocity (w : FreeVortexParticles.t)
    (l : list (vec2 * R)) (x : array2) :
  FreeVortexParticles.circulation (FreeVortexParticles.reset (add_all w l)) = 0
  /\ FreeVortexParticles._num_vortices (FreeVortexParticles.reset (add_all w l))
     = 0%nat
  /\ FreeVortexParticles.induced_velocity
       (FreeVortexParticles.reset (add_all w l)) x = Raise TypeError
  /\ FreeVortexParticles.induced_velocity
       (FreeVortexParticles.reset (add_all w l)) x <> Ok (zeros_like x).
Proof.
  repeat split. discriminate.
Qed.

(** C7.  [advect] on a wake without particles (after [reset()] or
    construction) raises [TypeError], for every step, free stream and body:
    it is not a no-op. *)
Theorem advect_empty_raises (panels : Type)
    (panels_induced_velocity : panels -> array2 -> outcome array2)
    (w : FreeVortexParticles.t) (dt : R) (Uinfty : option vec2)
    (body : option panels) :
  FreeVortexParticles.advect panels panels_induced_velocity
    (FreeVortexParticles.reset w) dt Uinfty body = Raise TypeError
  /\ FreeVortexParticles.advect panels panels_induced_velocity
       FreeVortexParticles.__init__ dt Uinfty body = Raise TypeError.
Proof.
  split; reflexivity.
Qed.

Lemma is_zero_spec (d : R) : is_zero d = true <-> d = 0.
Proof.
  unfold is_zero. destruct (Req_dec_T d 0); split; intros; congruence.
Qed.

Lemma any_false (u : vec2) : FreeVortexParticles.any u = false -> u = (0, 0).
Proof.
  unfold FreeVortexParticles.any. intros H.
  apply Bool.negb_false_iff, Bool.andb_true_iff in H. destruct H as [H1 H2].
  apply is_zero_spec in H1, H2. destruct u; simpl in *; now subst.
Qed.

Lemma bound_induced_velocity (b : BoundVortexPanels.t) (x : array2) :
  BoundVortexPanels.core_radius b <> 0 ->
  BoundVortexPanels.induced_velocity b x
  = Ok (map (induced_sum (BoundVortexPanels.core_radius b) (bound_vortices b)) x).
Proof.
  intros H0. unfold BoundVortexPanels.induced_velocity, bound_vortices.
  now apply induced_velocity_sum.
Qed.

Lemma wake_induced_velocity (w : FreeVortexParticles.t) (xs x : array2) :
  FreeVortexParticles._x_vortices w = Some xs ->
  FreeVortexParticles.core_radius w <> 0 ->
  FreeVortexParticles.induced_velocity w x
  = Ok (map (induced_sum (FreeVortexParticles.core_radius w)
                         (combine xs (FreeVortexParticles._gamma w))) x).
Proof.
  intros Hxs H0. unfold FreeVortexParticles.induced_velocity. rewrite Hxs.
  now apply induced_velocity_sum.
Qed.

(** C10.  On a wake with particles at [xs] (core radii not zero, so that no
    velocity is [inf] or [nan]) [advect] returns; every position [p] has
    become [p + dt * v(p)], where [v] is the velocity induced by the wake at
    [xs] before the step, by the body and by the free stream; the strengths,
    the count, the circulation and the core radius are as before. *)
Theorem advect_frame (w : FreeVortexParticles.t) (xs : array2) (dt : R)
    (Uinfty : option vec2) (body : option BoundVortexPanels.t) :
  FreeVortexParticles._x_vortices w = Some xs ->
  FreeVortexParticles.core_radius w <> 0 ->
  (forall b, body = Some b -> BoundVortexPanels.core_radius b <> 0) ->
  exists w' : FreeVortexParticles.t,
    FreeVortexParticles.advect BoundVortexPanels.t
      BoundVortexPanels.induced_velocity w dt Uinfty body = Ok w'
    /\ FreeVortexParticles._x_vortices w'
       = Some (map (fun p => vadd p (vscale dt (advection_velocity w xs Uinfty body p)))
                   xs)
    /\ FreeVortexParticles._gamma w' = FreeVortexParticles._gamma w
    /\ FreeVortexParticles._num_vortices w' = FreeVortexParticles._num_vortices w
    /\ FreeVortexParticles.circulation w' = FreeVortexParticles.circulation w
    /\ FreeVortexParticles.core_radius w' = FreeVortexParticles.core_radius w.
Proof.
  intros Hxs H0 Hb. unfold FreeVortexParticles.advect. rewrite Hxs.
  rewrite (wake_induced_velocity w xs xs Hxs H0). cbn [bind].
  set (fw := induced_sum (FreeVortexParticles.core_radius w)
               (combine xs (FreeVortexParticles._gamma w))).
  set (fb := fun p : vec2 =>
               match body with
               | Some b => induced_sum (BoundVortexPanels.core_radius b)
                                       (bound_vortices b) p
               | None => (0, 0)
               end).
  assert (Hvel :
    match Uinfty with
    | Some u => if FreeVortexParticles.any u
                then add_col (map (fun p => vadd (fw p) (fb p)) xs) u
                else map (fun p => vadd (fw p) (fb p)) xs
    | None => map (fun p => vadd (fw p) (fb p)) xs
    end = map (advection_velocity w xs Uinfty body) xs).
  { unfold advection_velocity. fold fw.
    destruct Uinfty as [u |].
    - destruct (FreeVortexParticles.any u) eqn:Hany.
      + unfold add_col. rewrite map_map. reflexivity.
      + apply any_false in Hany. subst u. apply map_ext. intros p.
        now rewrite vadd_zero_r.
    - apply map_ext. intros p. now rewrite vadd_zero_r. }
  assert (Hpos :
    add_arr xs (scale dt (map (advection_velocity w xs Uinfty body) xs))
    = map (fun p => vadd p (vscale dt (advection_velocity w xs Uinfty body p))) xs).
  { unfold scale. rewrite map_map. apply add_arr_map_r. }
  destruct body as [b |].
  - rewrite bound_induced_velocity by (apply Hb; reflexivity). cbn [bind].
    unfold FreeVortexParticles.iadd. rewrite !length_map, Nat.eqb_refl.
    rewrite add_arr_map. cbn [bind].
    eexists. split; [reflexivity |].
    cbn [FreeVortexParticles._x_vortices FreeVortexParticles._gamma
         FreeVortexParticles._num_vortices FreeVortexParticles.circulation
         FreeVortexParticles._circulation FreeVortexParticles.core_radius].
    split; [| repeat split].
    f_equal. rewrite <- Hpos, <- Hvel. reflexivity.
  - cbn [bind].
    eexists. split; [reflexivity |].
    cbn [FreeVortexParticles._x_vortices FreeVortexParticles._gamma
         FreeVortexParticles._num_vortices FreeVortexParticles.circulation
         FreeVortexParticles._circulation FreeVortexParticles.core_radius].
    split; [| repeat split].
    f_equal. rewrite <- Hpos, <- Hvel.
    assert (E : map fw xs = map (fun p => vadd (fw p) (fb p)) xs).
    { apply map_ext. intros p. subst fb. cbv beta. now rewrite vadd_zero_r. }
    rewrite <- E. reflexivity.
Qed.

Lemma advect_frame_witness :
  exists w' : FreeVortexParticles.t,
    FreeVortexParticles.advect BoundVortexPanels.t
      BoundVortexPanels.induced_velocity one_vortex_wake
      1 (Some (1, 0)) (Some plate_across_solved) = Ok w'
    /\ FreeVortexParticles._gamma w' = [2]
    /\ FreeVortexParticles._num_vortices w' = 1%nat
    /\ FreeVortexParticles.circulation w'
       = FreeVortexParticles.circulation one_vortex_wake.
Proof.
  destruct (advect_frame one_vortex_wake [(2, 1)] 1 (Some (1, 0))
              (Some plate_across_solved))
    as [w' [H1 [_ [H3 [H4 [H5 _]]]]]].
  - reflexivity.
  - simpl. unfold LumpedVortex._core_radius. lra.
  - intros b Hb. injection Hb as <-. simpl.
    unfold LumpedVortex._core_radius. lra.
  - exists w'. split; [exact H1 |]. split; [| split].
    + rewrite H3. reflexivity.
    + rewrite H4. reflexivity.
    + exact H5.
Defined.

(** ** Geometry of the panels *)

Lemma norm_normalize (v : vec2) : v <> (0, 0) -> norm (normalize v) = 1.
Proof.
  intros Hv. assert (Hn : norm v <> 0) by (intros E; now apply norm_zero_iff in E).
  pose proof (norm_nonneg v) as Hp. pose proof (norm_sqr v) as Hs.
  unfold normalize. unfold norm at 1. cbn [fst snd].
  apply sqrt_lem_1; [| lra |].
  - replace (fst v / norm v * (fst v / norm v) + snd v / norm v * (snd v / norm v))
      with ((fst v * fst v + snd v * snd v) / (norm v * norm v)) by (field; exact Hn).
    rewrite <- Hs. unfold Rdiv. rewrite Rinv_r by nra. lra.
  - replace (fst v / norm v * (fst v / norm v) + snd v / norm v * (snd v / norm v))
      with ((fst v * fst v + snd v * snd v) / (norm v * norm v)) by (field; exact Hn).
    rewrite <- Hs. field. exact Hn.
Qed.

Lemma div_scalar_normalize (v : vec2) :
  v <> (0, 0) -> div_scalar v (norm v) = Ok (normalize v).
Proof.
  intros Hv. unfold div_scalar. rewrite is_zero_false; [reflexivity |].
  intros E. now apply norm_zero_iff in E.
Qed.

Lemma last_cons_cons {A : Type} (a b : A) (l : list A) (d : A) :
  last (a :: b :: l) d = last (b :: l) d.
Proof. reflexivity. Qed.

Lemma last_nonempty {A : Type} (l : list A) (d d' : A) :
  l <> [] -> last l d = last l d'.
Proof.
  induction l as [| a l IH]; intros Hl; [contradiction |].
  destruct l as [| b l]; [reflexivity |].
  rewrite !last_cons_cons. apply IH. discriminate.
Qed.

Lemma diff_cons_cons (a b : vec2) (q : array2) :
  BoundVortexPanels.diff (a :: b :: q) = vsub b a :: BoundVortexPanels.diff (b :: q).
Proof. reflexivity. Qed.

Lemma diff_length (q : array2) :
  length (BoundVortexPanels.diff q) = (length q - 1)%nat.
Proof.
  induction q as [| a q IH]; [reflexivity |].
  destruct q as [| b q]; [reflexivity |].
  rewrite diff_cons_cons. cbn [length] in *. lia.
Qed.

Lemma last_diff (q : array2) :
  forall a b d : vec2,
    last (BoundVortexPanels.diff (a :: b :: q)) d = last_panel (a :: b :: q).
Proof.
  unfold last_panel.
  induction q as [| c q IH]; intros a b d.
  - reflexivity.
  - rewrite diff_cons_cons.
    assert (Hne : BoundVortexPanels.diff (b :: c :: q) <> [])
      by (rewrite diff_cons_cons; discriminate).
    destruct (BoundVortexPanels.diff (b :: c :: q)) as [| e l] eqn:E;
      [contradiction |].
    rewrite last_cons_cons, <- E, (IH b c d).
    reflexivity.
Qed.

Lemma div_cols_perp (dq : array2) :
  Forall (fun d => d <> (0, 0)) dq ->
  div_cols (perp dq) (map norm dq)
  = Ok (map (fun d => (snd d / norm d, - fst d / norm d)) dq).
Proof.
  intros Hdq. unfold div_cols. rewrite existsb_is_zero_false.
  - f_equal. unfold perp. clear Hdq.
    induction dq as [| d dq IH]; cbn [map combine fst snd]; [reflexivity |].
    now rewrite IH.
  - apply Forall_map. eapply Forall_impl; [| exact Hdq].
    intros d Hd E. now apply norm_zero_iff in E.
Qed.

Lemma vscale_nonzero (c : R) (v : vec2) :
  c <> 0 -> v <> (0, 0) -> vscale c v <> (0, 0).
Proof.
  intros Hc Hv E. apply Hv. destruct v as [a b]. unfold vscale in E.
  cbn [fst snd] in E. injection E as E1 E2.
  f_equal; nra.
Qed.

Lemma norm_opp (v : vec2) : norm (vscale (-1) v) = norm v.
Proof.
  unfold norm, vscale. cbn [fst snd]. f_equal. ring.
Qed.

(** The open branch divides [- dq0] by the norm of [dq0]. *)
Lemma div_scalar_normalize_scaled (v : vec2) :
  v <> (0, 0) ->
  div_scalar (vscale (-1) v) (norm v) = Ok (normalize (vscale (-1) v)).
Proof.
  intros Hv. rewrite <- norm_opp. apply div_scalar_normalize.
  apply vscale_nonzero; [lra | exact Hv].
Qed.

Lemma trailing_edge_spec (q : array2) :
  (2 <= length q)%nat ->
  Forall (fun d => d <> (0, 0)) (BoundVortexPanels.diff q) ->
  (norm (vsub (first_point q) (last_point q)) < closed_threshold ->
   first_panel q <> last_panel q) ->
  BoundVortexPanels.trailing_edge q (BoundVortexPanels.diff q)
  = Ok (trailing_edge_descriptor q).
Proof.
  intros Hlen Hdq Hclosed.
  destruct q as [| q0 [| q1 q]]; cbn [length] in Hlen; try lia.
  unfold BoundVortexPanels.trailing_edge, trailing_edge_descriptor.
  assert (Hlast : last (q0 :: q1 :: q) q0 = last_point (q0 :: q1 :: q))
    by (apply last_nonempty; discriminate).
  rewrite Hlast. change (first_point (q0 :: q1 :: q)) with q0 in *.
  fold closed_threshold.
  assert (Hdq0 : first_panel (q0 :: q1 :: q) = vsub q1 q0) by reflexivity.
  rewrite diff_cons_cons in *.
  pose proof (last_diff q q0 q1 (vsub q1 q0)) as Hld.
  rewrite diff_cons_cons in Hld.
  destruct (Rlt_dec (norm (vsub q0 (last_point (q0 :: q1 :: q)))) closed_threshold)
    as [Hc | Hc].
  - rewrite Hld.
    set (lp := last_panel (q0 :: q1 :: q)) in *.
    specialize (Hclosed Hc). rewrite Hdq0 in *.
    assert (Hw : vscale (- 0.5) (vsub (vsub q1 q0) lp)
                 = midpoint (vscale (-1) (vsub q1 q0)) lp).
    { unfold vscale, vsub, midpoint. cbn [fst snd]. f_equal; lra. }
    rewrite Hw. unfold mean_direction.
    rewrite div_scalar_normalize.
    + cbn [bind]. do 2 f_equal.
      unfold vscale, vadd, midpoint. cbn [fst snd]. f_equal; lra.
    + intros E. apply Hclosed. rewrite <- Hw in E.
      destruct (vsub q1 q0) as [a b], lp as [c d].
      unfold vscale, vsub in E. cbn [fst snd] in E. injection E as E1 E2.
      f_equal; lra.
  - rewrite Hdq0. rewrite div_scalar_normalize_scaled.
    + reflexivity.
    + now inversion Hdq.
Qed.

(** What [_update] builds when no panel has length zero and, for a closed
    body, the first and last panels differ. *)
Lemma _update_ok (self : BoundVortexPanels.t) (Uinfty : vec2) :
  let q := BoundVortexPanels.get_points (BoundVortexPanels._body self) in
  let dq := BoundVortexPanels.diff q in
  (2 <= length q)%nat ->
  Forall (fun d => d <> (0, 0)) dq ->
  (norm (vsub (first_point q) (last_point q)) < closed_threshold ->
   first_panel q <> last_panel q) ->
  BoundVortexPanels._update self Uinfty
  = Ok (BoundVortexPanels.mk
          (BoundVortexPanels.core_radius self) (BoundVortexPanels._body self)
          (length dq)
          (map (fun d => (snd d / norm d, - fst d / norm d)) dq)
          (BoundVortexPanels.assign_where
             (BoundVortexPanels.against_flow Uinfty dq)
             (add_arr (removelast q) (scale 0.25 dq))
             (add_arr (removelast q) (scale 0.75 dq)))
          (BoundVortexPanels.assign_where
             (BoundVortexPanels.against_flow Uinfty dq)
             (add_arr (removelast q) (scale 0.75 dq))
             (add_arr (removelast q) (scale 0.25 dq)))
          (fst (trailing_edge_descriptor q)) (snd (trailing_edge_descriptor q))
          (repeat 0 (length dq)) None
          (BoundVortexPanels._x_shed self) (BoundVortexPanels._gam_shed self)).
Proof.
  intros q dq Hlen Hdq Hclosed. unfold BoundVortexPanels._update.
  fold q. fold dq. rewrite (div_cols_perp dq Hdq). cbn [bind].
  unfold dq at 1. rewrite (trailing_edge_spec q Hlen Hdq Hclosed). reflexivity.
Qed.

Lemma unit_wake_direction (q : array2) :
  (2 <= length q)%nat ->
  Forall (fun d => d <> (0, 0)) (BoundVortexPanels.diff q) ->
  (norm (vsub (first_point q) (last_point q)) < closed_threshold ->
   first_panel q <> last_panel q) ->
  norm (snd (trailing_edge_descriptor q)) = 1.
Proof.
  intros Hlen Hdq Hclosed. unfold trailing_edge_descriptor.
  destruct q as [| q0 [| q1 q]]; cbn [length] in Hlen; try lia.
  rewrite diff_cons_cons in Hdq.
  assert (Hfp : first_panel (q0 :: q1 :: q) <> (0, 0)) by now inversion Hdq.
  destruct (Rlt_dec _ _) as [Hc | Hc]; cbn [snd].
  - unfold mean_direction. apply norm_normalize. intros E. apply (Hclosed Hc).
    destruct (first_panel (q0 :: q1 :: q)) as [a b].
    destruct (last_panel (q0 :: q1 :: q)) as [c d].
    unfold midpoint, vscale in E. cbn [fst snd] in E. injection E as E1 E2.
    f_equal; lra.
  - apply norm_normalize. apply vscale_nonzero; [lra | exact Hfp].
Qed.

(** The unit vector along the mean of two vectors of equal length makes
    the same angle with both: it bisects them. *)
Lemma mean_direction_equal_angles (a b : vec2) :
  norm a = norm b -> vdot (mean_direction a b) a = vdot (mean_direction a b) b.
Proof.
  intros Hab. pose proof (norm_sqr a) as Ha. pose proof (norm_sqr b) as Hb.
  assert (E : fst a * fst a + snd a * snd a = fst b * fst b + snd b * snd b)
    by (rewrite <- Ha, <- Hb, Hab; reflexivity).
  unfold mean_direction, normalize, midpoint, vdot. cbn [fst snd].
  set (n := norm ((fst a + fst b) / 2, (snd a + snd b) / 2)).
  apply Rminus_diag_uniq.
  match goal with
  | |- ?D = 0 =>
      replace D
        with ((fst a * fst a + snd a * snd a
               - (fst b * fst b + snd b * snd b)) * (/ 2 * / n))
        by (unfold Rdiv; ring)
  end.
  rewrite E. ring.
Qed.

Lemma norm_vscale (c : R) (v : vec2) : 0 <= c -> norm (vscale c v) = c * norm v.
Proof.
  intros Hc. unfold norm, vscale. cbn [fst snd].
  replace (c * fst v * (c * fst v) + c * snd v * (c * snd v))
    with (c * c * (fst v * fst v + snd v * snd v)) by ring.
  rewrite sqrt_mult by nra. now rewrite sqrt_square.
Qed.

Lemma normalize_vscale (c : R) (v : vec2) :
  0 < c -> normalize (vscale c v) = normalize v.
Proof.
  intros Hc. unfold normalize. rewrite norm_vscale by lra.
  destruct (Req_dec_T (norm v) 0) as [E | N].
  - apply norm_zero_iff in E. subst v. unfold vscale. cbn [fst snd].
    apply f_equal2; unfold Rdiv; ring.
  - unfold vscale. cbn [fst snd]. apply f_equal2; field; lra.
Qed.

(** For two vectors of equal length the mean direction is the bisector of
    the angle between them. *)
Lemma mean_direction_bisector (a b : vec2) :
  norm a = norm b -> a <> (0, 0) -> mean_direction a b = bisector a b.
Proof.
  intros Hab Ha.
  assert (Hn : 0 < norm a).
  { pose proof (norm_nonneg a) as Hp.
    destruct (Req_dec_T (norm a) 0) as [E | N]; [| lra].
    apply norm_zero_iff in E. contradiction. }
  unfold mean_direction, bisector.
  replace (midpoint a b) with (vscale (1 / 2) (vadd a b))
    by (unfold midpoint, vscale, vadd; cbn [fst snd]; apply f_equal2; field).
  replace (vadd (normalize a) (normalize b)) with (vscale (1 / norm a) (vadd a b)).
  - rewrite !normalize_vscale; [reflexivity | | lra].
    apply Rdiv_lt_0_compat; lra.
  - unfold normalize. rewrite <- Hab. unfold vscale, vadd. cbn [fst snd].
    apply f_equal2; field; lra.
Qed.

(** C5.  Construction on boundary points [q] (at least two, no panel of
    length zero, and for a closed body a first panel that differs from the
    last) computes the trailing-edge descriptor: when the first and last
    boundary points are closer than 0.005, the midpoint of the two and the
    unit vector along the mean of the reversed first panel vector and the
    last panel vector, which is the bisector of the two panel directions
    when the two panels have the same length; otherwise the first boundary
    point and minus the unit tangent of the first panel.  The wake
    direction has length 1. *)
Theorem trailing_edge_at_construction (body : BoundVortexPanels.Body)
    (Uinfty : vec2) :
  let q := BoundVortexPanels.get_points body in
  (2 <= length q)%nat ->
  Forall (fun d => d <> (0, 0)) (BoundVortexPanels.diff q) ->
  (norm (vsub (first_point q) (last_point q)) < 0.005 ->
   first_panel q <> last_panel q) ->
  exists self : BoundVortexPanels.t,
    BoundVortexPanels.__init__ body Uinfty = Ok self
    /\ (norm (vsub (first_point q) (last_point q)) < 0.005 ->
        BoundVortexPanels._trailing_edge self
        = midpoint (first_point q) (last_point q)
        /\ BoundVortexPanels._wake_dir self
           = mean_direction (vscale (-1) (first_panel q)) (last_panel q)
        /\ (norm (first_panel q) = norm (last_panel q) ->
            BoundVortexPanels._wake_dir self
            = bisector (vscale (-1) (first_panel q)) (last_panel q)))
    /\ (~ norm (vsub (first_point q) (last_point q)) < 0.005 ->
        BoundVortexPanels._trailing_edge self = first_point q
        /\ BoundVortexPanels._wake_dir self
           = normalize (vscale (-1) (first_panel q)))
    /\ norm (BoundVortexPanels._wake_dir self) = 1.
Proof.
  intros q Hlen Hdq Hclosed. unfold BoundVortexPanels.__init__.
  rewrite _update_ok by assumption.
  eexists. split; [reflexivity |].
  cbn [BoundVortexPanels._trailing_edge BoundVortexPanels._wake_dir
       BoundVortexPanels._body BoundVortexPanels.get_points].
  fold q. split; [| split].
  - intros Hc. unfold trailing_edge_descriptor, closed_threshold.
    destruct (Rlt_dec _ _) as [_ | N]; [| contradiction].
    cbn [fst snd]. split; [reflexivity |]. split; [reflexivity |].
    intros Heq. apply mean_direction_bisector.
    + now rewrite norm_opp.
    + apply vscale_nonzero; [lra |].
      destruct q as [| q0 [| q1 q']]; cbn [length] in Hlen; try lia.
      rewrite diff_cons_cons in Hdq. now inversion Hdq.
  - intros Hc. unfold trailing_edge_descriptor, closed_threshold.
    destruct (Rlt_dec _ _) as [Y | _]; [contradiction | now split].
  - now apply unit_wake_direction.
Qed.

Lemma flat_plate_panels :
  Forall (fun d => d <> (0, 0))
         (BoundVortexPanels.diff (BoundVortexPanels.get_points flat_plate)).
Proof.
  constructor; [| constructor].
  unfold vsub. cbn [fst snd]. intros E. injection E as E1 _. lra.
Qed.

Lemma flat_plate_open :
  ~ norm (vsub (first_point (BoundVortexPanels.get_points flat_plate))
               (last_point (BoundVortexPanels.get_points flat_plate))) < 0.005.
Proof.
  unfold norm, vsub. cbn. replace ((1 - 0) * (1 - 0) + (0 - 0) * (0 - 0)) with 1 by ring.
  rewrite sqrt_1. lra.
Qed.

(** A boundary that starts and ends at the origin is closed. *)
Lemma closed_at_origin (q : array2) :
  first_point q = (0, 0) -> last_point q = (0, 0) ->
  norm (vsub (first_point q) (last_point q)) < 0.005.
Proof.
  intros -> ->. unfold norm, vsub. cbn [fst snd].
  replace ((0 - 0) * (0 - 0) + (0 - 0) * (0 - 0)) with 0 by ring.
  rewrite sqrt_0. lra.
Qed.

Lemma wedge_panels :
  Forall (fun d => d <> (0, 0))
         (BoundVortexPanels.diff (BoundVortexPanels.get_points wedge)).
Proof.
  repeat constructor; unfold vsub; cbn [fst snd]; intros E;
    injection E as E1 E2; lra.
Qed.

Lemma kinked_panels :
  Forall (fun d => d <> (0, 0))
         (BoundVortexPanels.diff (BoundVortexPanels.get_points kinked)).
Proof.
  repeat constructor; unfold vsub; cbn [fst snd]; intros E;
    injection E as E1 E2; lra.
Qed.

Lemma trailing_edge_at_construction_witness :
  exists self : BoundVortexPanels.t,
    BoundVortexPanels.__init__ wedge (1, 0) = Ok self
    /\ BoundVortexPanels._trailing_edge self = midpoint (0, 0) (0, 0)
    /\ BoundVortexPanels._wake_dir self
       = bisector (vscale (-1) (first_panel (BoundVortexPanels.get_points wedge)))
                  (last_panel (BoundVortexPanels.get_points wedge))
    /\ norm (BoundVortexPanels._wake_dir self) = 1.
Proof.
  destruct (trailing_edge_at_construction wedge (1, 0))
    as [self [Hinit [Hclosed [_ Hunit]]]].
  - cbn. lia.
  - exact wedge_panels.
  - intros _ E. unfold first_panel, last_panel, vsub in E. cbn in E.
    injection E as E1 _. lra.
  - exists self. split; [exact Hinit |].
    destruct (Hclosed (closed_at_origin (BoundVortexPanels.get_points wedge)
                        eq_refl eq_refl)) as [Hte [_ Hbis]].
    split; [exact Hte |]. split; [| exact Hunit].
    apply Hbis. unfold norm, first_panel, last_panel, vsub. cbn.
    f_equal. ring.
Defined.

(** The wake direction is not the bisector on the kinked body: it is closed, its
    reversed first panel is (1,0) and its last panel (0,3); the constructor
    returns the wake direction along their mean (1/2, 3/2), whose second
    component is three times the first, while the bisector of the two
    directions lies along (1,1).  The bisector of the panels as they run,
    along (-1,1), is not the wake direction either. *)
Lemma trailing_edge_not_bisector :
  exists self : BoundVortexPanels.t,
    BoundVortexPanels.__init__ kinked (1, 0) = Ok self
    /\ norm (vsub (first_point (BoundVortexPanels.get_points kinked))
                  (last_point (BoundVortexPanels.get_points kinked))) < 0.005
    /\ BoundVortexPanels._wake_dir self
       <> bisector (vscale (-1) (first_panel (BoundVortexPanels.get_points kinked)))
                   (last_panel (BoundVortexPanels.get_points kinked))
    /\ BoundVortexPanels._wake_dir self
       <> bisector (first_panel (BoundVortexPanels.get_points kinked))
                   (last_panel (BoundVortexPanels.get_points kinked)).
Proof.
  assert (Hclosed : norm (vsub (first_point (BoundVortexPanels.get_points kinked))
                               (last_point (BoundVortexPanels.get_points kinked)))
                    < 0.005)
    by (apply closed_at_origin; reflexivity).
  assert (Hok := _update_ok
                   (BoundVortexPanels.mk LumpedVortex._core_radius kinked 0
                      [] [] [] (0, 0) (0, 0) [] None None None) (1, 0)).
  cbv zeta in Hok.
  cbn [BoundVortexPanels._body] in Hok.
  specialize (Hok ltac:(cbn; lia) kinked_panels).
  assert (Hdiff : first_panel (BoundVortexPanels.get_points kinked)
                  <> last_panel (BoundVortexPanels.get_points kinked)).
  { intros E. unfold first_panel, last_panel, vsub in E. cbn in E.
    injection E as E1 _. lra. }
  specialize (Hok (fun _ => Hdiff)).
  eexists. split; [exact Hok |]. split; [exact Hclosed |].
  cbn [BoundVortexPanels._wake_dir].
  unfold trailing_edge_descriptor.
  destruct (Rlt_dec _ closed_threshold) as [_ | N];
    [| elim N; exact Hclosed].
  cbn [snd].
  assert (Hfp : first_panel (BoundVortexPanels.get_points kinked) = (-1, 0))
    by (unfold first_panel, vsub; cbn; apply f_equal2; ring).
  assert (Hlp : last_panel (BoundVortexPanels.get_points kinked) = (0, 3))
    by (unfold last_panel, vsub; cbn; apply f_equal2; ring).
  rewrite Hfp, Hlp.
  assert (Hrev : vscale (-1) (-1, 0) = (1, 0))
    by (unfold vscale; cbn [fst snd]; apply f_equal2; ring).
  rewrite Hrev.
  assert (Hn1 : norm (1, 0) = 1).
  { unfold norm. cbn [fst snd]. replace (1 * 1 + 0 * 0) with 1 by ring.
    apply sqrt_1. }
  assert (Hn1' : norm (-1, 0) = 1).
  { unfold norm. cbn [fst snd]. replace (-1 * -1 + 0 * 0) with 1 by ring.
    apply sqrt_1. }
  assert (Hn3 : norm (0, 3) = 3).
  { unfold norm. cbn [fst snd]. replace (0 * 0 + 3 * 3) with (3 * 3) by ring.
    apply sqrt_square. lra. }
  assert (Hmean : mean_direction (1, 0) (0, 3)
                  = (1 / 2 / norm (1 / 2, 3 / 2), 3 / 2 / norm (1 / 2, 3 / 2))).
  { unfold mean_direction, midpoint. cbn [fst snd].
    replace ((1 + 0) / 2) with (1 / 2) by field.
    replace ((0 + 3) / 2) with (3 / 2) by field. reflexivity. }
  rewrite Hmean.
  assert (Hm : 0 < norm (1 / 2, 3 / 2)).
  { pose proof (norm_nonneg (1 / 2, 3 / 2)) as Hp.
    destruct (Req_dec_T (norm (1 / 2, 3 / 2)) 0) as [E | Hne]; [| lra].
    apply norm_zero_iff in E. injection E as E1 _. lra. }
  set (n := norm (1 / 2, 3 / 2)) in *.
  assert (Hfst : 0 < 1 / 2 / n) by (apply Rdiv_lt_0_compat; lra).
  split.
  - unfold bisector, normalize. rewrite Hn1, Hn3. cbn [fst snd].
    unfold vadd. cbn [fst snd].
    set (d := norm (1 / 1 + 0 / 3, 0 / 1 + 3 / 3)).
    intros E. injection E as E1 E2.
    assert (Hd : 1 / 2 / n = 3 / 2 / n).
    { rewrite E1, E2. apply f_equal2; [field | reflexivity]. }
    assert (H3 : 3 / 2 / n = 3 * (1 / 2 / n)) by (field; lra).
    lra.
  - unfold bisector, normalize. rewrite Hn1', Hn3. cbn [fst snd].
    unfold vadd. cbn [fst snd].
    set (d := norm (-1 / 1 + 0 / 3, 0 / 1 + 3 / 3)).
    assert (Hdp : 0 <= d) by apply norm_nonneg.
    intros E. injection E as E1 _.
    assert (Hneg : (-1 / 1 + 0 / 3) / d <= 0).
    { replace (-1 / 1 + 0 / 3) with (-1) by field.
      destruct (Req_dec_T d 0) as [Ez | Hnz].
      - rewrite Ez. unfold Rdiv. rewrite Rinv_0. lra.
      - unfold Rdiv. assert (0 < / d) by (apply Rinv_0_lt_compat; lra). lra. }
    lra.
Qed.

(** ** The outcome monad *)

Lemma bind_ok {A B : Type} (m : outcome A) (k : A -> outcome B) (b : B) :
  bind m k = Ok b -> exists a : A, m = Ok a /\ k a = Ok b.
Proof.
  destruct m as [a | e |]; cbn [bind]; intros H; try discriminate.
  now exists a.
Qed.

Lemma map_outcome_ok {A B : Type} (f : A -> outcome B) (g : A -> B) (l : list A) :
  (forall a, f a = Ok (g a)) ->
  BoundVortexPanels.map_outcome f l = Ok (map g l).
Proof.
  intros Hf. induction l as [| a l IH]; cbn [BoundVortexPanels.map_outcome map].
  - reflexivity.
  - rewrite Hf, IH. reflexivity.
Qed.

(** ** The unsteady system *)

Lemma compute_influence_matrix_ok (self : BoundVortexPanels.t) :
  BoundVortexPanels.core_radius self <> 0 ->
  exists A : matrix, BoundVortexPanels.compute_influence_matrix self = Ok A.
Proof.
  intros H0. unfold BoundVortexPanels.compute_influence_matrix.
  erewrite map_outcome_ok.
  - cbn [bind]. eexists. reflexivity.
  - intros xv. rewrite induced_velocity_single_pointwise by exact H0.
    cbn [bind].
    instantiate (1 := fun xv =>
      sum_prod (map (LumpedVortex.point_vortex_velocity
                       (BoundVortexPanels.core_radius self) xv 1)
                    (BoundVortexPanels._xcoll self))
               (BoundVortexPanels._normals self)).
    reflexivity.
Qed.

Lemma influence_matrix_ok (self : BoundVortexPanels.t) :
  BoundVortexPanels.core_radius self <> 0 ->
  exists (A B : matrix),
    BoundVortexPanels.influence_matrix self
    = Ok (BoundVortexPanels.set_influence_matrix self (Some A), B).
Proof.
  intros H0. unfold BoundVortexPanels.influence_matrix.
  destruct (BoundVortexPanels._influence_matrix self) as [A |] eqn:E.
  - exists A, A. destruct self. cbn in E. subst. reflexivity.
  - destruct (compute_influence_matrix_ok self H0) as [A HA].
    rewrite HA. cbn [bind]. now exists A, A.
Qed.

Lemma influence_matrix_frame (self self' : BoundVortexPanels.t) (A : matrix) :
  BoundVortexPanels.influence_matrix self = Ok (self', A) ->
  self' = BoundVortexPanels.set_influence_matrix self (Some A).
Proof.
  unfold BoundVortexPanels.influence_matrix.
  destruct (BoundVortexPanels._influence_matrix self) as [B |] eqn:E.
  - intros H. injection H as <- <-. destruct self. cbn in E. subst. reflexivity.
  - intros H. apply bind_ok in H. destruct H as [B [_ H]].
    now injection H as <- <-.
Qed.

Lemma compute_rhs_ok (self : BoundVortexPanels.t) (Uinfty : vec2)
    (wake : option FreeVortexParticles.t) :
  (forall w, wake = Some w ->
     FreeVortexParticles._x_vortices w <> None
     /\ FreeVortexParticles.core_radius w <> 0) ->
  exists rhs0 : list R, BoundVortexPanels.compute_rhs self Uinfty wake = Ok rhs0.
Proof.
  intros Hw. unfold BoundVortexPanels.compute_rhs.
  destruct wake as [w |].
  - destruct (Hw w eq_refl) as [Hx H0].
    destruct (FreeVortexParticles._x_vortices w) as [xs |] eqn:E; [| contradiction].
    rewrite (wake_induced_velocity w xs _ E H0). cbn [bind]. eexists. reflexivity.
  - cbn [bind]. eexists. reflexivity.
Qed.

(** The system is built whenever no kernel divides by zero and the wake, if
    there is one, has particles. *)
Lemma unsteady_system_ok (self : BoundVortexPanels.t) (dt : R) (Uinfty : vec2)
    (wake : option FreeVortexParticles.t) (circ : option R) (wake_fac : R) :
  BoundVortexPanels.core_radius self <> 0 ->
  (forall w, wake = Some w ->
     FreeVortexParticles._x_vortices w <> None
     /\ FreeVortexParticles.core_radius w <> 0) ->
  exists sys,
    BoundVortexPanels.unsteady_system self dt Uinfty wake circ wake_fac = Ok sys.
Proof.
  intros H0 Hw. unfold BoundVortexPanels.unsteady_system.
  rewrite induced_velocity_single_pointwise by exact H0. cbn [bind].
  destruct (influence_matrix_ok self H0) as [A [B HA]]. rewrite HA. cbn [bind fst snd].
  destruct (compute_rhs_ok (BoundVortexPanels.set_influence_matrix self (Some A))
              Uinfty wake Hw) as [rhs0 Hrhs].
  rewrite Hrhs. cbn [bind]. eexists. reflexivity.
Qed.

Lemma induced_velocity_single_length (r0 : R) (x : array2) (xv : vec2)
    (gam : R) (vel : array2) :
  LumpedVortex.induced_velocity_single r0 x xv gam = Ok vel ->
  length vel = length x.
Proof.
  unfold LumpedVortex.induced_velocity_single, div_cols.
  destruct (existsb is_zero _); [discriminate |].
  intros H. injection H as <-.
  unfold scale, perp, LumpedVortex.maximum, LumpedVortex.sum_sq, sub_col.
  rewrite length_map, length_combine, !length_map. lia.
Qed.

Lemma influence_matrix_rows (self st : BoundVortexPanels.t) (A : matrix) :
  shapes_agree self ->
  BoundVortexPanels.influence_matrix self = Ok (st, A) ->
  length A = BoundVortexPanels._numpanels self.
Proof.
  intros [_ [_ [_ Hcache]]]. unfold BoundVortexPanels.influence_matrix.
  destruct (BoundVortexPanels._influence_matrix self) as [B |] eqn:E.
  - intros H. injection H as _ <-. now apply Hcache.
  - intros H. apply bind_ok in H. destruct H as [B [HB H]].
    injection H as _ <-.
    unfold BoundVortexPanels.compute_influence_matrix in HB.
    apply bind_ok in HB. destruct HB as [cols [_ HB]]. injection HB as <-.
    unfold BoundVortexPanels.of_columns. now rewrite length_map, length_seq.
Qed.

(** The shape of the system: the body equations, then the row of ones with
    the total circulation on the right. *)
Lemma unsteady_system_shape (self st : BoundVortexPanels.t) (dt : R)
    (Uinfty : vec2) (wake : option FreeVortexParticles.t) (circ : option R)
    (wake_fac : R) (x : vec2) (A : matrix) (rhs : list R) :
  BoundVortexPanels.unsteady_system self dt Uinfty wake circ wake_fac
  = Ok (st, (x, (A, rhs))) ->
  exists (top cache : matrix) (rhs0 : list R),
    A = top ++ [repeat 1 (BoundVortexPanels._numpanels self + 1)]
    /\ rhs = rhs0 ++ [BoundVortexPanels.total_circulation circ wake]
    /\ (shapes_agree self -> length top = BoundVortexPanels._numpanels self)
    /\ st = BoundVortexPanels.set_influence_matrix self (Some cache)
    /\ x = vadd (BoundVortexPanels._trailing_edge self)
              (vscale (wake_fac * sqrt (fst Uinfty ^ 2 + snd Uinfty ^ 2) * dt)
                      (BoundVortexPanels._wake_dir self))
    /\ BoundVortexPanels.compute_rhs st Uinfty wake = Ok rhs0.
Proof.
  unfold BoundVortexPanels.unsteady_system. intros H.
  apply bind_ok in H. destruct H as [shed_vel [Hshed H]].
  apply bind_ok in H. destruct H as [[st1 infl] [Hinfl H]].
  apply bind_ok in H. destruct H as [rhs0 [Hrhs H]].
  cbn [fst snd] in H, Hrhs. injection H as <- <- <- <-.
  exists (BoundVortexPanels.hstack_col infl
            (sum_prod shed_vel (BoundVortexPanels._normals self))),
         infl, rhs0.
  repeat split.
  - intros Hs. pose proof (influence_matrix_rows _ _ _ Hs Hinfl) as Hrows.
    destruct Hs as [Hn [_ [Hc _]]].
    apply induced_velocity_single_length in Hshed.
    unfold BoundVortexPanels.hstack_col, sum_prod.
    rewrite length_map, length_combine, length_map, length_combine. lia.
  - now apply influence_matrix_frame.
  - exact Hrhs.
Qed.

(** C3.  When [update_strengths_unsteady] is called without [circ], the
    last equation of the system it builds is the row of ones, and its
    right-hand side is 0 without a wake and minus the circulation of the
    wake otherwise. *)
Theorem default_total_circulation (self st : BoundVortexPanels.t) (dt : R)
    (Uinfty : vec2) (wake : option FreeVortexParticles.t) (wake_fac : R)
    (x : vec2) (A : matrix) (rhs : list R) :
  BoundVortexPanels.unsteady_system self dt Uinfty wake None wake_fac
  = Ok (st, (x, (A, rhs))) ->
  last A [] = repeat 1 (BoundVortexPanels._numpanels self + 1)
  /\ last rhs 0 = match wake with
                  | None => 0
                  | Some w => - FreeVortexParticles.circulation w
                  end.
Proof.
  intros H. apply unsteady_system_shape in H.
  destruct H as [top [cache [rhs0 [-> [-> _]]]]].
  rewrite !last_last. split; reflexivity.
Qed.

Lemma dot_ones (x : list R) :
  forall n : nat, (length x <= n)%nat -> dot (repeat 1 n) x = sum_list x.
Proof.
  unfold dot, sum_list.
  induction x as [| a x IH]; intros n Hn.
  - destruct n; reflexivity.
  - destruct n as [| n]; cbn [length] in Hn; [lia |].
    cbn [repeat combine map fold_right fst snd].
    rewrite IH by lia. lra.
Qed.

Lemma sum_list_removelast (x : list R) :
  x <> [] -> sum_list x = sum_list (removelast x) + last x 0.
Proof.
  intros Hx. rewrite (app_removelast_last 0 Hx) at 1.
  rewrite sum_list_app. unfold sum_list at 2. simpl. lra.
Qed.

Lemma mat_vec_app (A B : matrix) (x : list R) :
  mat_vec (A ++ B) x = mat_vec A x ++ mat_vec B x.
Proof. unfold mat_vec. apply map_app. Qed.

(** C2.  When [update_strengths_unsteady] returns, with a solver that is
    exact, the strengths of the [N] panels and the strength of the shed
    vortex add up to the total circulation: the supplied [circ], or without
    one 0 when there is no wake and minus the circulation of the wake
    otherwise.  The system solved has [N + 1] rows, the last one all ones
    with that total on the right. *)
Theorem kelvin_circulation (solve : matrix -> list R -> outcome (list R))
    (self : BoundVortexPanels.t) (s : store) (dt : R) (Uinfty : vec2)
    (wake : option FreeVortexParticles.t) (circ : option R) (wake_fac : R)
    (s' : store) (self' : BoundVortexPanels.t) :
  exact_solver solve ->
  shapes_agree self ->
  BoundVortexPanels.update_strengths_unsteady solve self s dt Uinfty wake circ
    wake_fac = Ok (s', self') ->
  let total :=
    match circ with
    | Some c => c
    | None =>
        match wake with
        | None => 0
        | Some w => - FreeVortexParticles.circulation w
        end
    end in
  exists gam_shed : R,
    BoundVortexPanels._gam_shed self' = Some gam_shed
    /\ length (BoundVortexPanels._gam self') = BoundVortexPanels._numpanels self
    /\ sum_list (BoundVortexPanels._gam self') + gam_shed = total
    /\ exists (st : BoundVortexPanels.t) (x : vec2) (A : matrix) (rhs : list R),
         BoundVortexPanels.unsteady_system self dt Uinfty wake circ wake_fac
         = Ok (st, (x, (A, rhs)))
         /\ length A = (BoundVortexPanels._numpanels self + 1)%nat
         /\ last A [] = repeat 1 (BoundVortexPanels._numpanels self + 1)
         /\ last rhs 0 = total.
Proof.
  intros Hsolve Hshape H total.
  assert (Htotal : BoundVortexPanels.total_circulation circ wake = total)
    by reflexivity.
  unfold BoundVortexPanels.update_strengths_unsteady in H.
  apply bind_ok in H. destruct H as [[st [x [A rhs]]] [Hsys H]].
  apply bind_ok in H. destruct H as [gam [Hgam H]].
  cbn [fst snd] in *. injection H as _ <-.
  pose proof Hsys as Hshape_sys. apply unsteady_system_shape in Hshape_sys.
  destruct Hshape_sys as [top [cache [rhs0 [HA [Hrhs [Htop _]]]]]].
  specialize (Htop Hshape). subst A rhs. rewrite Htotal in *.
  apply Hsolve in Hgam. destruct Hgam as [Hlen Hsol].
  rewrite mat_vec_app in Hsol. cbn [mat_vec map] in Hsol.
  apply app_inj_tail in Hsol. destruct Hsol as [Hbody Hlast].
  assert (Hrows : length rhs0 = length top)
    by (rewrite <- Hbody; unfold mat_vec; apply length_map).
  rewrite length_app in Hlen. cbn [length] in Hlen.
  assert (Hne : gam <> []) by (intros ->; cbn in Hlen; lia).
  exists (last gam 0).
  cbn [BoundVortexPanels.set_shed BoundVortexPanels.set_gam
       BoundVortexPanels._gam_shed BoundVortexPanels._gam].
  split; [reflexivity |]. split; [| split].
  - rewrite (app_removelast_last 0 Hne), length_app in Hlen.
    cbn [length] in Hlen. lia.
  - rewrite <- sum_list_removelast by exact Hne.
    rewrite <- Hlast. symmetry. apply dot_ones. lia.
  - exists st, x, (top ++ [repeat 1 (BoundVortexPanels._numpanels self + 1)]),
           (rhs0 ++ [total]).
    split; [exact Hsys |]. split; [| split].
    + rewrite length_app. cbn [length]. lia.
    + apply last_last.
    + apply last_last.
Qed.

(** ** The invariant of the shapes *)

Lemma removelast_length {A : Type} (l : list A) :
  length (removelast l) = (length l - 1)%nat.
Proof.
  rewrite removelast_firstn_len, length_firstn. lia.
Qed.

Lemma div_cols_length (a : array2) (d : list R) (v : array2) :
  div_cols a d = Ok v -> length v = Nat.min (length a) (length d).
Proof.
  unfold div_cols. destruct (existsb is_zero d); [discriminate |].
  intros H. injection H as <-. now rewrite length_map, length_combine.
Qed.

Lemma assign_where_length (top : list bool) :
  forall lo hi : array2,
    length (BoundVortexPanels.assign_where top lo hi)
    = Nat.min (length top) (Nat.min (length lo) (length hi)).
Proof.
  induction top as [| b top IH]; intros lo hi; [reflexivity |].
  destruct lo as [| l lo]; [reflexivity |].
  destruct hi as [| h hi]; cbn [BoundVortexPanels.assign_where length].
  - lia.
  - rewrite IH. lia.
Qed.

Lemma _update_frame (self self' : BoundVortexPanels.t) (Uinfty : vec2) :
  BoundVortexPanels._update self Uinfty = Ok self' ->
  shapes_agree self'
  /\ BoundVortexPanels._x_shed self' = BoundVortexPanels._x_shed self
  /\ BoundVortexPanels._gam_shed self' = BoundVortexPanels._gam_shed self
  /\ BoundVortexPanels.core_radius self' = BoundVortexPanels.core_radius self.
Proof.
  unfold BoundVortexPanels._update. intros H.
  apply bind_ok in H. destruct H as [normals [Hn H]].
  apply bind_ok in H. destruct H as [te [_ H]].
  injection H as <-. apply div_cols_length in Hn.
  unfold perp in Hn. rewrite !length_map in Hn.
  unfold shapes_agree.
  cbn [BoundVortexPanels._normals BoundVortexPanels._numpanels
       BoundVortexPanels._xvort BoundVortexPanels._xcoll
       BoundVortexPanels._influence_matrix BoundVortexPanels._x_shed
       BoundVortexPanels._gam_shed BoundVortexPanels.core_radius].
  repeat split; try discriminate.
  - rewrite Nat.min_id in Hn. exact Hn.
  - rewrite assign_where_length. unfold BoundVortexPanels.against_flow, add_arr, scale.
    rewrite !length_map, !length_combine, !length_map, removelast_length, diff_length.
    lia.
  - rewrite assign_where_length. unfold BoundVortexPanels.against_flow, add_arr, scale.
    rewrite !length_map, !length_combine, !length_map, removelast_length, diff_length.
    lia.
Qed.

Lemma influence_matrix_shapes (self st : BoundVortexPanels.t) (A : matrix) :
  shapes_agree self ->
  BoundVortexPanels.influence_matrix self = Ok (st, A) ->
  shapes_agree st.
Proof.
  intros Hs H. pose proof (influence_matrix_rows _ _ _ Hs H) as Hrows.
  apply influence_matrix_frame in H. subst st.
  destruct Hs as [H1 [H2 [H3 _]]]. unfold shapes_agree.
  cbn [BoundVortexPanels.set_influence_matrix BoundVortexPanels._normals
       BoundVortexPanels._numpanels BoundVortexPanels._xvort
       BoundVortexPanels._xcoll BoundVortexPanels._influence_matrix].
  repeat split; try assumption.
  intros B E. now injection E as <-.
Qed.

(** A completed unsteady solve keeps the invariant: the next step starts
    from an object of agreeing shapes. *)
Lemma update_strengths_unsteady_shapes
    (solve : matrix -> list R -> outcome (list R))
    (self : BoundVortexPanels.t) (s : store) (dt : R) (Uinfty : vec2)
    (wake : option FreeVortexParticles.t) (circ : option R) (wake_fac : R)
    (s' : store) (self' : BoundVortexPanels.t) :
  shapes_agree self ->
  BoundVortexPanels.update_strengths_unsteady solve self s dt Uinfty wake circ
    wake_fac = Ok (s', self') ->
  shapes_agree self'.
Proof.
  intros Hs H. unfold BoundVortexPanels.update_strengths_unsteady in H.
  apply bind_ok in H. destruct H as [[st [x [A rhs]]] [Hsys H]].
  apply bind_ok in H. destruct H as [gam [_ H]].
  cbn [fst snd] in H. injection H as _ <-.
  unfold BoundVortexPanels.unsteady_system in Hsys.
  apply bind_ok in Hsys. destruct Hsys as [shed_vel [_ Hsys]].
  apply bind_ok in Hsys. destruct Hsys as [[st1 infl] [Hinfl Hsys]].
  apply bind_ok in Hsys. destruct Hsys as [rhs0 [_ Hsys]].
  cbn [fst snd] in Hsys. injection Hsys as <- _ _ _.
  apply (influence_matrix_shapes _ _ _ Hs) in Hinfl.
  exact Hinfl.
Qed.

Lemma update_strengths_unsteady_body
    (solve : matrix -> list R -> outcome (list R))
    (self : BoundVortexPanels.t) (s : store) (dt : R) (Uinfty : vec2)
    (wake : option FreeVortexParticles.t) (circ : option R) (wake_fac : R)
    (s' : store) (self' : BoundVortexPanels.t) :
  BoundVortexPanels.update_strengths_unsteady solve self s dt Uinfty wake circ
    wake_fac = Ok (s', self') ->
  BoundVortexPanels._body self' = BoundVortexPanels._body self.
Proof.
  intros H. unfold BoundVortexPanels.update_strengths_unsteady in H.
  apply bind_ok in H. destruct H as [[st [x [A rhs]]] [Hsys H]].
  apply bind_ok in H. destruct H as [gam [_ H]].
  cbn [fst snd] in H. injection H as _ <-.
  apply unsteady_system_shape in Hsys.
  destruct Hsys as [top [cache [rhs0 [_ [_ [_ [-> _]]]]]]].
  reflexivity.
Qed.

Lemma step_shapes (self self' : BoundVortexPanels.t) :
  step self self' -> shapes_agree self -> shapes_agree self'.
Proof.
  intros Hstep Hs.
  destruct Hstep as [self | self self' U H | solve self self' U H
                     | self self' A H | self v | self b].
  - destruct Hs as [H1 [H2 [H3 _]]]. repeat split; try assumption.
    cbn. discriminate.
  - now apply _update_frame in H.
  - unfold BoundVortexPanels.update_strengths in H.
    apply bind_ok in H. destruct H as [rhs [_ H]].
    apply bind_ok in H. destruct H as [[st A] [Hinfl H]].
    apply bind_ok in H. destruct H as [gam [_ H]].
    cbn [fst snd] in H. injection H as <-.
    apply (influence_matrix_shapes _ _ _ Hs) in Hinfl.
    exact Hinfl.
  - exact (influence_matrix_shapes _ _ _ Hs H).
  - exact Hs.
  - exact Hs.
Qed.

(** Every object a program can hold has attributes of agreeing shapes. *)
Lemma reachable_shapes (self : BoundVortexPanels.t) :
  reachable self -> shapes_agree self.
Proof.
  induction 1 as [body U self H | self self' _ IH Hstep
                  | solve self self' s s' dt U wake circ wf _ IH H].
  - unfold BoundVortexPanels.__init__ in H. now apply _update_frame in H.
  - exact (step_shapes self self' Hstep IH).
  - exact (update_strengths_unsteady_shapes _ _ _ _ _ _ _ _ _ _ IH H).
Qed.

(** ** The shed vortex *)

Lemma step_no_shed (self self' : BoundVortexPanels.t) :
  step self self' ->
  BoundVortexPanels._x_shed self = None ->
  BoundVortexPanels._x_shed self' = None.
Proof.
  intros Hstep Hnone.
  destruct Hstep as [self | self self' U H | solve self self' U H
                     | self self' A H | self v | self b].
  - exact Hnone.
  - apply _update_frame in H. destruct H as [_ [H _]]. congruence.
  - unfold BoundVortexPanels.update_strengths in H.
    apply bind_ok in H. destruct H as [rhs [_ H]].
    apply bind_ok in H. destruct H as [[st A] [Hinfl H]].
    apply bind_ok in H. destruct H as [gam [_ H]].
    cbn [fst snd] in H. injection H as <-.
    apply influence_matrix_frame in Hinfl. subst st. exact Hnone.
  - apply influence_matrix_frame in H. subst self'. exact Hnone.
  - exact Hnone.
  - exact Hnone.
Qed.

Lemma before_unsteady_no_shed (self : BoundVortexPanels.t) :
  before_unsteady self -> BoundVortexPanels._x_shed self = None.
Proof.
  induction 1 as [body U self H | self self' _ IH Hstep].
  - unfold BoundVortexPanels.__init__ in H. apply _update_frame in H.
    destruct H as [_ [H _]]. exact H.
  - exact (step_no_shed self self' Hstep IH).
Qed.

Lemma deref_alloc_new (s : store) (v : vec2) :
  deref (fst (alloc s v)) (snd (alloc s v)) = v.
Proof.
  unfold deref, alloc. cbn [fst snd]. apply nth_middle.
Qed.

Lemma deref_alloc_old (s : store) (v : vec2) (a : addr) :
  (a < length s)%nat -> deref (fst (alloc s v)) a = deref s a.
Proof.
  intros Ha. unfold deref, alloc. cbn [fst]. now apply app_nth1.
Qed.

Lemma deref_write_other (s : store) :
  forall (a b : addr) (v : vec2), a <> b -> deref (write s a v) b = deref s b.
Proof.
  unfold deref.
  induction s as [| u s IH]; intros a b v Hab; [reflexivity |].
  destruct a as [| a], b as [| b]; cbn [write nth]; try reflexivity.
  - contradiction.
  - apply IH. congruence.
Qed.

(** C8.  On an object on which no [update_strengths_unsteady] has
    completed, [get_newly_shed] raises [AttributeError]: it has no default to
    return.  After a completed unsteady solve it returns the strength of the
    shed vortex and a new array: the recorded position, which is the
    trailing edge moved along the wake direction, mapped by the motion of the
    body when there is one and copied otherwise.  The new array is not the
    recorded one: assigning to it leaves the record as it was. *)
Theorem get_newly_shed_contract
    (solve : matrix -> list R -> outcome (list R))
    (fresh self : BoundVortexPanels.t) (s : store) (dt : R) (Uinfty : vec2)
    (wake : option FreeVortexParticles.t) (circ : option R) (wake_fac : R)
    (s1 : store) (self1 : BoundVortexPanels.t) :
  before_unsteady fresh ->
  BoundVortexPanels.update_strengths_unsteady solve self s dt Uinfty wake circ
    wake_fac = Ok (s1, self1) ->
  (forall s0 : store,
     BoundVortexPanels.get_newly_shed fresh s0 = Raise AttributeError)
  /\ exists (a : addr) (g : R),
       BoundVortexPanels._x_shed self1 = Some a
       /\ BoundVortexPanels._gam_shed self1 = Some g
       /\ (a < length s1)%nat
       /\ deref s1 a
          = vadd (BoundVortexPanels._trailing_edge self)
                 (vscale (wake_fac * sqrt (fst Uinfty ^ 2 + snd Uinfty ^ 2) * dt)
                         (BoundVortexPanels._wake_dir self))
       /\ exists (s2 : store) (a' : addr),
            BoundVortexPanels.get_newly_shed self1 s1 = Ok (s2, (a', g))
            /\ deref s2 a'
               = match BoundVortexPanels.get_motion (BoundVortexPanels._body self1) with
                 | Some motion => BoundVortexPanels.map_position motion (deref s1 a)
                 | None => deref s1 a
                 end
            /\ a' <> a
            /\ (forall b : addr, (b < length s1)%nat -> deref s2 b = deref s1 b)
            /\ (forall v : vec2, deref (write s2 a' v) a = deref s1 a).
Proof.
  intros Hfresh H. split.
  - intros s0. unfold BoundVortexPanels.get_newly_shed.
    now rewrite (before_unsteady_no_shed fresh Hfresh).
  - unfold BoundVortexPanels.update_strengths_unsteady in H.
    apply bind_ok in H. destruct H as [[st [x [A rhs]]] [Hsys H]].
    apply bind_ok in H. destruct H as [gam [_ H]].
    cbn [fst snd] in H. injection H as <- <-.
    apply unsteady_system_shape in Hsys.
    destruct Hsys as [top [cache [rhs0 [_ [_ [_ [-> [Hx _]]]]]]]].
    exists (length s), (last gam 0).
    assert (Hlen : (length s < length (s ++ [x]))%nat)
      by (rewrite length_app; cbn [length]; lia).
    assert (Hderef : deref (s ++ [x]) (length s) = x)
      by apply (deref_alloc_new s x).
    split; [reflexivity |]. split; [reflexivity |].
    split; [exact Hlen |]. split; [now rewrite Hderef |].
    unfold BoundVortexPanels.get_newly_shed.
    cbn [BoundVortexPanels.set_shed BoundVortexPanels.set_gam
         BoundVortexPanels.set_influence_matrix BoundVortexPanels._x_shed
         BoundVortexPanels._gam_shed BoundVortexPanels._body].
    set (s1 := s ++ [x]) in *.
    set (image := match BoundVortexPanels.get_motion (BoundVortexPanels._body self) with
                  | Some motion => BoundVortexPanels.map_position motion (deref s1 (length s))
                  | None => deref s1 (length s)
                  end).
    exists (fst (alloc s1 image)), (snd (alloc s1 image)).
    split; [now destruct (BoundVortexPanels.get_motion (BoundVortexPanels._body self)) |].
    split; [apply deref_alloc_new |].
    assert (Hnew : snd (alloc s1 image) <> length s)
      by (unfold alloc; cbn [snd]; lia).
    split; [exact Hnew |]. split.
    + intros b Hb. now apply deref_alloc_old.
    + intros v. rewrite deref_write_other by exact Hnew.
      now apply deref_alloc_old.
Qed.

(** ** A flat plate along the stream *)

Lemma flat_plate_init :
  exists self : BoundVortexPanels.t,
    BoundVortexPanels.__init__ flat_plate (1, 0) = Ok self
    /\ before_unsteady self
    /\ shapes_agree self
    /\ BoundVortexPanels.core_radius self <> 0
    /\ BoundVortexPanels._numpanels self = 1%nat
    /\ BoundVortexPanels.get_motion (BoundVortexPanels._body self) = None
    /\ exists n : R, BoundVortexPanels._normals self = [(0 / n, 1 / n)].
Proof.
  assert (Hok := _update_ok
                   (BoundVortexPanels.mk LumpedVortex._core_radius flat_plate 0
                      [] [] [] (0, 0) (0, 0) [] None None None) (1, 0)).
  cbv zeta in Hok.
  cbn [BoundVortexPanels._body BoundVortexPanels.get_points flat_plate] in Hok.
  specialize (Hok ltac:(cbn; lia) flat_plate_panels
                  (fun Hc => False_ind _ (flat_plate_open Hc))).
  eexists. split; [exact Hok |].
  split; [exact (before_init flat_plate (1, 0) _ Hok) |].
  pose proof (_update_frame _ _ _ Hok) as [Hshape _].
  split; [exact Hshape |].
  cbn [BoundVortexPanels._numpanels BoundVortexPanels._body
       BoundVortexPanels._normals BoundVortexPanels.get_points
       BoundVortexPanels.core_radius
       BoundVortexPanels.get_motion flat_plate BoundVortexPanels.diff
       length map].
  split; [unfold LumpedVortex._core_radius; lra |].
  split; [reflexivity |]. split; [reflexivity |].
  eexists. unfold vsub. cbn [fst snd]. repeat f_equal; lra.
Qed.

Lemma default_total_circulation_witness :
  exists (self st : BoundVortexPanels.t) (x : vec2) (A : matrix) (rhs : list R),
    BoundVortexPanels.__init__ flat_plate (1, 0) = Ok self
    /\ BoundVortexPanels.unsteady_system self 1 (1, 0) (Some one_vortex_wake)
         None 0.25 = Ok (st, (x, (A, rhs)))
    /\ last A [] = repeat 1 (BoundVortexPanels._numpanels self + 1)
    /\ last rhs 0 = - FreeVortexParticles.circulation one_vortex_wake.
Proof.
  destruct flat_plate_init as [self [Hinit [_ [_ [Hcore _]]]]].
  destruct (unsteady_system_ok self 1 (1, 0) (Some one_vortex_wake) None 0.25 Hcore)
    as [[st [x [A rhs]]] Hsys].
  - intros w Hw. injection Hw as <-. split.
    + discriminate.
    + cbn. unfold LumpedVortex._core_radius. lra.
  - exists self, st, x, A, rhs.
    split; [exact Hinit |]. split; [exact Hsys |].
    exact (default_total_circulation self st 1 (1, 0) (Some one_vortex_wake) 0.25
             x A rhs Hsys).
Defined.

(** ** A wake without particles in the other calls *)

(** A wake object without particles, passed to the unsteady solve, makes
    [compute_rhs] raise: the object is true, and its [induced_velocity] is
    called. *)
Lemma unsteady_system_empty_wake (self : BoundVortexPanels.t) (dt : R)
    (Uinfty : vec2) (w : FreeVortexParticles.t) (circ : option R) (wake_fac : R) :
  BoundVortexPanels.core_radius self <> 0 ->
  BoundVortexPanels.unsteady_system self dt Uinfty
    (Some (FreeVortexParticles.reset w)) circ wake_fac = Raise TypeError.
Proof.
  intros H0. unfold BoundVortexPanels.unsteady_system.
  rewrite induced_velocity_single_pointwise by exact H0. cbn [bind].
  destruct (influence_matrix_ok self H0) as [A [B HA]]. rewrite HA.
  reflexivity.
Qed.

(** [add_newly_shed] passes on what [get_newly_shed] raises. *)
Lemma add_newly_shed_before_unsteady (w : FreeVortexParticles.t)
    (body : BoundVortexPanels.t) (s : store) :
  before_unsteady body ->
  FreeVortexParticles.add_newly_shed BoundVortexPanels.t
    BoundVortexPanels.get_newly_shed w body s = Raise AttributeError.
Proof.
  intros Hb. unfold FreeVortexParticles.add_newly_shed,
    BoundVortexPanels.get_newly_shed.
  now rewrite (before_unsteady_no_shed body Hb).
Qed.

(** A body of a single boundary point has no panel: the constructor
    raises at [dq[:,0]]. *)
Example init_single_point (p : vec2) (motion : option BoundVortexPanels.Motion)
    (Uinfty : vec2) :
  BoundVortexPanels.__init__
    {| BoundVortexPanels.get_points := [p];
       BoundVortexPanels.get_motion := motion |} Uinfty
  = Raise IndexError.
Proof.
  unfold BoundVortexPanels.__init__, BoundVortexPanels._update.
  cbn [BoundVortexPanels._body BoundVortexPanels.get_points
       BoundVortexPanels.diff perp map div_cols existsb bind combine].
  unfold BoundVortexPanels.trailing_edge. cbn [last].
  destruct (Rlt_dec (norm (vsub p p)) 0.005) as [_ | N]; [reflexivity |].
  elim N. replace (vsub p p) with ((0, 0) : vec2)
    by (unfold vsub; f_equal; ring).
  replace (norm (0, 0)) with 0 by (symmetry; now apply norm_zero_iff). lra.
Qed.

(** ** A flat plate across the stream *)

Lemma solve_2x2_exact : exact_solver solve_2x2.
Proof.
  intros A b x. unfold solve_2x2.
  destruct A as [| [| a11 [| a12 [| ? ?]]] [| [| a21 [| a22 [| ? ?]]] [| ? ?]]];
    try discriminate.
  destruct b as [| b1 [| b2 [| ? ?]]]; try discriminate.
  destruct (is_zero (a11 * a22 - a12 * a21)) eqn:Hdet; [discriminate |].
  intros H. injection H as <-. split; [reflexivity |].
  assert (Hd : a11 * a22 - a12 * a21 <> 0).
  { intros E. apply is_zero_true in E. congruence. }
  unfold mat_vec, dot, sum_list. cbn [map combine fold_right fst snd].
  repeat f_equal; field; exact Hd.
Qed.

Lemma norm_unit_x : norm (-1, 0) = 1.
Proof.
  unfold norm. cbn [fst snd]. replace (-1 * -1 + 0 * 0) with 1 by ring.
  apply sqrt_1.
Qed.

(** The object the constructor builds for the plate in a stream along y:
    the panel runs against x, its normal is (0,1), the vortex sits at the
    three-quarter point and the collocation point at the quarter point. *)
Lemma plate_across_init :
  BoundVortexPanels.__init__ flat_plate (0, 1) = Ok plate_across.
Proof.
  unfold plate_across, BoundVortexPanels.__init__.
  rewrite _update_ok;
    [| cbn; lia | exact flat_plate_panels
     | intros Hc; elim (flat_plate_open Hc)].
  cbn [BoundVortexPanels._body BoundVortexPanels.get_points flat_plate
       BoundVortexPanels.diff BoundVortexPanels.core_radius
       BoundVortexPanels._x_shed BoundVortexPanels._gam_shed
       length map repeat removelast scale add_arr combine fst snd].
  assert (Hd : vsub (0, 0) (1, 0) = (-1, 0))
    by (unfold vsub; cbn [fst snd]; f_equal; lra).
  rewrite Hd. rewrite norm_unit_x.
  unfold BoundVortexPanels.against_flow. cbn [map].
  destruct (Rle_dec (vdot (0, 1) (-1, 0)) 0) as [_ | N];
    [| elim N; unfold vdot; cbn [fst snd]; lra].
  cbn [BoundVortexPanels.assign_where].
  unfold trailing_edge_descriptor.
  destruct (Rlt_dec _ closed_threshold) as [Hc | _];
    [elim (flat_plate_open Hc) |].
  cbn [fst snd first_point hd]. unfold first_panel. cbn [nth].
  rewrite Hd. unfold normalize. rewrite norm_opp, norm_unit_x.
  unfold vadd, vscale. cbn [fst snd].
  f_equal.
  f_equal; repeat (f_equal; try lra).
Qed.

Lemma kernel_at_vortex_side :
  LumpedVortex.point_vortex_velocity LumpedVortex._core_radius (0.25, 0) 1 (0.75, 0)
  = (0, - (1 / PI)).
Proof.
  pose proof PI_RGT_0 as Hpi.
  unfold LumpedVortex.point_vortex_velocity, LumpedVortex._core_radius.
  cbn [fst snd]. rewrite Rmax_left by lra.
  replace (0.75 - 0.25) with (1 / 2) by lra. replace (0 - 0) with 0 by lra.
  f_equal; field; lra.
Qed.

Lemma kernel_at_shed_side :
  LumpedVortex.point_vortex_velocity LumpedVortex._core_radius (1.25, 0) 1 (0.75, 0)
  = (0, 1 / PI).
Proof.
  pose proof PI_RGT_0 as Hpi.
  unfold LumpedVortex.point_vortex_velocity, LumpedVortex._core_radius.
  cbn [fst snd]. rewrite Rmax_left by lra.
  replace (0.75 - 1.25) with (- (1 / 2)) by lra. replace (0 - 0) with 0 by lra.
  f_equal; field; lra.
Qed.

(** The unsteady solve for the plate across a unit stream, one step of
    length 1: the bound vortex gets [PI / 2] and the shed vortex, a quarter
    behind the trailing edge, [- PI / 2]. *)
Lemma plate_across_unsteady :
  BoundVortexPanels.update_strengths_unsteady solve_2x2 plate_across
    [] 1 (0, 1) None None 0.25
  = Ok ([(1.25, 0)], plate_across_solved).
Proof.
  unfold plate_across, plate_across_solved.
  pose proof PI_RGT_0 as Hpi.
  assert (Hr0 : LumpedVortex._core_radius <> 0)
    by (unfold LumpedVortex._core_radius; lra).
  unfold BoundVortexPanels.update_strengths_unsteady,
    BoundVortexPanels.unsteady_system.
  cbn [BoundVortexPanels._trailing_edge BoundVortexPanels._wake_dir
       BoundVortexPanels.core_radius BoundVortexPanels._xcoll
       BoundVortexPanels._normals BoundVortexPanels._numpanels fst snd].
  assert (Hshed : vadd (1, 0) (vscale (0.25 * sqrt (0 ^ 2 + 1 ^ 2) * 1) (1, 0))
                  = (1.25, 0)).
  { replace (0 ^ 2 + 1 ^ 2) with 1 by ring. rewrite sqrt_1.
    unfold vadd, vscale. cbn [fst snd]. f_equal; lra. }
  rewrite Hshed.
  rewrite induced_velocity_single_pointwise by exact Hr0.
  cbn [bind map]. rewrite kernel_at_shed_side.
  unfold BoundVortexPanels.influence_matrix,
    BoundVortexPanels.compute_influence_matrix.
  cbn [BoundVortexPanels._influence_matrix BoundVortexPanels._xvort
       BoundVortexPanels._xcoll BoundVortexPanels._normals
       BoundVortexPanels.core_radius BoundVortexPanels._numpanels
       BoundVortexPanels.map_outcome].
  rewrite induced_velocity_single_pointwise by exact Hr0.
  cbn [bind map]. rewrite kernel_at_vortex_side.
  unfold BoundVortexPanels.compute_rhs.
  cbn [bind fst snd BoundVortexPanels.set_influence_matrix
       BoundVortexPanels._body BoundVortexPanels.get_motion flat_plate
       BoundVortexPanels._xcoll BoundVortexPanels._normals
       BoundVortexPanels._numpanels BoundVortexPanels.of_columns
       BoundVortexPanels.hstack_col BoundVortexPanels.total_circulation
       sum_prod zeros2 add_col repeat combine map seq nth app Nat.add].
  unfold vdot, vadd. cbn [fst snd].
  unfold solve_2x2.
  rewrite is_zero_false.
  2:{ intros E. apply (Rmult_eq_compat_r PI) in E. field_simplify in E; lra. }
  cbn [bind alloc fst snd app length removelast last].
  unfold BoundVortexPanels.set_shed, BoundVortexPanels.set_gam,
    BoundVortexPanels.set_influence_matrix.
  cbn [BoundVortexPanels.core_radius BoundVortexPanels._body
       BoundVortexPanels._numpanels BoundVortexPanels._normals
       BoundVortexPanels._xvort BoundVortexPanels._xcoll
       BoundVortexPanels._trailing_edge BoundVortexPanels._wake_dir
       BoundVortexPanels._gam BoundVortexPanels._influence_matrix
       BoundVortexPanels._x_shed BoundVortexPanels._gam_shed].
  match goal with
  | |- Ok (_, BoundVortexPanels.mk _ _ _ _ _ _ _ _ [?g] (Some [[?a]]) _ (Some ?gs))
       = _ =>
      replace g with (PI / 2) by (field; lra);
      replace gs with (- (PI / 2)) by (field; lra);
      replace a with (- (1 / PI)) by (field; lra)
  end.
  reflexivity.
Qed.

Lemma plate_across_shapes : shapes_agree plate_across.
Proof.
  pose proof plate_across_init as H. unfold BoundVortexPanels.__init__ in H.
  now apply _update_frame in H.
Qed.

(** The unsteady solve for the plate across a unit stream when the total
    circulation [c] is supplied: the bound vortex gets [(c + PI) / 2] and
    the shed vortex [(c - PI) / 2]. *)
Lemma plate_across_unsteady_given (c : R) :
  BoundVortexPanels.update_strengths_unsteady solve_2x2 plate_across
    [] 1 (0, 1) None (Some c) 0.25
  = Ok ([(1.25, 0)], plate_across_given c).
Proof.
  unfold plate_across, plate_across_given.
  pose proof PI_RGT_0 as Hpi.
  assert (Hr0 : LumpedVortex._core_radius <> 0)
    by (unfold LumpedVortex._core_radius; lra).
  unfold BoundVortexPanels.update_strengths_unsteady,
    BoundVortexPanels.unsteady_system.
  cbn [BoundVortexPanels._trailing_edge BoundVortexPanels._wake_dir
       BoundVortexPanels.core_radius BoundVortexPanels._xcoll
       BoundVortexPanels._normals BoundVortexPanels._numpanels fst snd].
  assert (Hshed : vadd (1, 0) (vscale (0.25 * sqrt (0 ^ 2 + 1 ^ 2) * 1) (1, 0))
                  = (1.25, 0)).
  { replace (0 ^ 2 + 1 ^ 2) with 1 by ring. rewrite sqrt_1.
    unfold vadd, vscale. cbn [fst snd]. f_equal; lra. }
  rewrite Hshed.
  rewrite induced_velocity_single_pointwise by exact Hr0.
  cbn [bind map]. rewrite kernel_at_shed_side.
  unfold BoundVortexPanels.influence_matrix,
    BoundVortexPanels.compute_influence_matrix.
  cbn [BoundVortexPanels._influence_matrix BoundVortexPanels._xvort
       BoundVortexPanels._xcoll BoundVortexPanels._normals
       BoundVortexPanels.core_radius BoundVortexPanels._numpanels
       BoundVortexPanels.map_outcome].
  rewrite induced_velocity_single_pointwise by exact Hr0.
  cbn [bind map]. rewrite kernel_at_vortex_side.
  unfold BoundVortexPanels.compute_rhs.
  cbn [bind fst snd BoundVortexPanels.set_influence_matrix
       BoundVortexPanels._body BoundVortexPanels.get_motion flat_plate
       BoundVortexPanels._xcoll BoundVortexPanels._normals
       BoundVortexPanels._numpanels BoundVortexPanels.of_columns
       BoundVortexPanels.hstack_col BoundVortexPanels.total_circulation
       sum_prod zeros2 add_col repeat combine map seq nth app Nat.add].
  unfold vdot, vadd. cbn [fst snd].
  unfold solve_2x2.
  rewrite is_zero_false.
  2:{ intros E. apply (Rmult_eq_compat_r PI) in E. field_simplify in E; lra. }
  cbn [bind alloc fst snd app length removelast last].
  unfold BoundVortexPanels.set_shed, BoundVortexPanels.set_gam,
    BoundVortexPanels.set_influence_matrix.
  cbn [BoundVortexPanels.core_radius BoundVortexPanels._body
       BoundVortexPanels._numpanels BoundVortexPanels._normals
       BoundVortexPanels._xvort BoundVortexPanels._xcoll
       BoundVortexPanels._trailing_edge BoundVortexPanels._wake_dir
       BoundVortexPanels._gam BoundVortexPanels._influence_matrix
       BoundVortexPanels._x_shed BoundVortexPanels._gam_shed].
  match goal with
  | |- Ok (_, BoundVortexPanels.mk _ _ _ _ _ _ _ _ [?g] (Some [[?a]]) _ (Some ?gs))
       = _ =>
      replace g with ((c + PI) / 2) by (field; lra);
      replace gs with ((c - PI) / 2) by (field; lra);
      replace a with (- (1 / PI)) by (field; lra)
  end.
  reflexivity.
Qed.

Lemma kelvin_circulation_witness :
  exact_solver solve_2x2
  /\ shapes_agree plate_across
  /\ BoundVortexPanels.update_strengths_unsteady solve_2x2 plate_across
       [] 1 (0, 1) None (Some 1) 0.25 = Ok ([(1.25, 0)], plate_across_given 1)
  /\ exists gam_shed : R,
       BoundVortexPanels._gam_shed (plate_across_given 1) = Some gam_shed
       /\ length (BoundVortexPanels._gam (plate_across_given 1))
          = BoundVortexPanels._numpanels plate_across
       /\ sum_list (BoundVortexPanels._gam (plate_across_given 1)) + gam_shed = 1
       /\ exists (st : BoundVortexPanels.t) (x : vec2) (A : matrix) (rhs : list R),
            BoundVortexPanels.unsteady_system plate_across 1 (0, 1) None (Some 1)
              0.25 = Ok (st, (x, (A, rhs)))
            /\ length A = (BoundVortexPanels._numpanels plate_across + 1)%nat
            /\ last A [] = repeat 1 (BoundVortexPanels._numpanels plate_across + 1)
            /\ last rhs 0 = 1.
Proof.
  split; [exact solve_2x2_exact |].
  split; [exact plate_across_shapes |].
  split; [exact (plate_across_unsteady_given 1) |].
  exact (kelvin_circulation solve_2x2 plate_across [] 1 (0, 1) None (Some 1) 0.25
           [(1.25, 0)] (plate_across_given 1) solve_2x2_exact plate_across_shapes
           (plate_across_unsteady_given 1)).
Defined.

Lemma get_newly_shed_contract_witness :
  before_unsteady plate_across
  /\ BoundVortexPanels.update_strengths_unsteady solve_2x2 plate_across
       [] 1 (0, 1) None None 0.25 = Ok ([(1.25, 0)], plate_across_solved)
  /\ BoundVortexPanels.get_newly_shed plate_across [] = Raise AttributeError
  /\ BoundVortexPanels.get_newly_shed plate_across_solved [(1.25, 0)]
     = Ok ([(1.25, 0); (1.25, 0)], (1%nat, - (PI / 2))).
Proof.
  assert (Hbefore : before_unsteady plate_across)
    by exact (before_init flat_plate (0, 1) plate_across plate_across_init).
  split; [exact Hbefore |].
  split; [exact plate_across_unsteady |].
  split.
  - apply (get_newly_shed_contract solve_2x2 plate_across plate_across [] 1
             (0, 1) None None 0.25 [(1.25, 0)] plate_across_solved Hbefore
             plate_across_unsteady).
  - reflexivity.
Defined.

(** * Further properties of the code *)

(** ** The kernel, target by target *)

Lemma Forall2_map_self {A B : Type} (P : A -> B -> Prop) (f : A -> B)
    (l : list A) :
  (forall a, P a (f a)) -> Forall2 P l (map f l).
Proof.
  intros H. induction l as [| a l IH]; cbn [map]; constructor; auto.
Qed.

Lemma Rabs_sqr_eq (a : R) : Rabs a * Rabs a = a * a.
Proof.
  unfold Rabs. destruct (Rcase_abs a); ring.
Qed.

Lemma point_vortex_velocity_core (r0 : R) (xv : vec2) (Gamma : R) (p : vec2) :
  0 < r0 -> norm (vsub p xv) <= r0 ->
  norm (LumpedVortex.point_vortex_velocity r0 xv Gamma p)
  = Rabs Gamma * norm (vsub p xv) / (2 * PI * r0 ^ 2).
Proof.
  intros H0 Hin. set (d := norm (vsub p xv)) in *.
  pose proof (norm_nonneg (vsub p xv)) as Hd. fold d in Hd.
  pose proof (norm_sqr (vsub p xv)) as Hsq. fold d in Hsq.
  unfold vsub in Hsq. cbn [fst snd] in Hsq.
  pose proof PI_RGT_0 as Hpi.
  unfold LumpedVortex.point_vortex_velocity.
  set (rx := fst p - fst xv) in *. set (ry := snd p - snd xv) in *.
  rewrite Rmax_right by nra.
  unfold norm. cbn [fst snd]. apply sqrt_lem_1.
  - nra.
  - apply Rmult_le_pos.
    + apply Rmult_le_pos; [apply Rabs_pos | exact Hd].
    + left. apply Rinv_0_lt_compat.
      apply Rmult_lt_0_compat; [lra | nra].
  - replace (Rabs Gamma * d / (2 * PI * r0 ^ 2) * (Rabs Gamma * d / (2 * PI * r0 ^ 2)))
      with ((Rabs Gamma * Rabs Gamma) * (d * d)
            / (2 * PI * (2 * PI) * (r0 * r0) * (r0 * r0)))
      by (field; lra).
    rewrite Rabs_sqr_eq, Hsq. field. lra.
Qed.

(** X1.  Inside the core ([|r| <= r0], [r0 > 0]) the velocity returned by
    [induced_velocity_single] has the magnitude of a solid-body rotation,
    [|gam| |r| / (2 pi r0^2)], for every target of the array. *)
Theorem induced_velocity_single_core (r0 : R) (x : array2) (xv : vec2)
    (gam : R) :
  0 < r0 ->
  exists vel : array2,
    LumpedVortex.induced_velocity_single r0 x xv gam = Ok vel
    /\ Forall2
         (fun p v =>
            norm (vsub p xv) <= r0 ->
            norm v = Rabs gam * norm (vsub p xv) / (2 * PI * r0 ^ 2))
         x vel.
Proof.
  intros H0. eexists. split.
  - apply induced_velocity_single_pointwise. lra.
  - apply Forall2_map_self. intros p Hp.
    now apply point_vortex_velocity_core.
Qed.

Lemma induced_velocity_single_core_witness :
  exists vel : array2,
    LumpedVortex.induced_velocity_single 1 [(0, 0); (1 / 2, 0)] (0, 0) 3 = Ok vel
    /\ Forall2
         (fun p v =>
            norm (vsub p (0, 0)) <= 1 ->
            norm v = Rabs 3 * norm (vsub p (0, 0)) / (2 * PI * 1 ^ 2))
         [(0, 0); (1 / 2, 0)] vel.
Proof.
  apply (induced_velocity_single_core 1 [(0, 0); (1 / 2, 0)] (0, 0) 3). lra.
Defined.

Lemma point_vortex_velocity_bound (r0 : R) (xv : vec2) (Gamma : R) (p : vec2) :
  0 < r0 ->
  norm (LumpedVortex.point_vortex_velocity r0 xv Gamma p)
  <= Rabs Gamma / (2 * PI * r0).
Proof.
  intros H0. pose proof PI_RGT_0 as Hpi.
  pose proof (Rabs_pos Gamma) as Hg.
  pose proof (norm_nonneg (vsub p xv)) as Hd.
  destruct (Rle_lt_dec (norm (vsub p xv)) r0) as [Hin | Hout].
  - rewrite point_vortex_velocity_core by assumption.
    set (d := norm (vsub p xv)) in *.
    replace (Rabs Gamma * d / (2 * PI * r0 ^ 2))
      with (Rabs Gamma / (2 * PI * r0) * (d / r0)) by (field; lra).
    rewrite <- (Rmult_1_r (Rabs Gamma / (2 * PI * r0))) at 2.
    apply Rmult_le_compat_l.
    + apply Rmult_le_pos; [exact Hg |]. left. apply Rinv_0_lt_compat. nra.
    + apply (Rmult_le_reg_r r0); [exact H0 |].
      replace (d / r0 * r0) with d by (field; lra). lra.
  - rewrite point_vortex_velocity_far by lra.
    set (d := norm (vsub p xv)) in *.
    unfold Rdiv. apply Rmult_le_compat_l; [exact Hg |].
    apply Rinv_le_contravar; nra.
Qed.

(** X2.  The regularisation bounds the induced speed: with [r0 > 0] no
    target gets a velocity larger than [|gam| / (2 pi r0)], wherever it
    lies. *)
Theorem induced_velocity_single_bounded (r0 : R) (x : array2) (xv : vec2)
    (gam : R) :
  0 < r0 ->
  exists vel : array2,
    LumpedVortex.induced_velocity_single r0 x xv gam = Ok vel
    /\ Forall (fun v => norm v <= Rabs gam / (2 * PI * r0)) vel.
Proof.
  intros H0. eexists. split.
  - apply induced_velocity_single_pointwise. lra.
  - apply Forall_map, Forall_forall. intros p _.
    now apply point_vortex_velocity_bound.
Qed.

Lemma induced_velocity_single_bounded_witness :
  exists vel : array2,
    LumpedVortex.induced_velocity_single 1 [(0, 0); (5, 2)] (0, 0) 3 = Ok vel
    /\ Forall (fun v => norm v <= Rabs 3 / (2 * PI * 1)) vel.
Proof.
  apply (induced_velocity_single_bounded 1 [(0, 0); (5, 2)] (0, 0) 3). lra.
Defined.

Lemma point_vortex_velocity_tangent (r0 : R) (xv : vec2) (Gamma : R) (p : vec2) :
  0 < r0 ->
  vdot (LumpedVortex.point_vortex_velocity r0 xv Gamma p) (vsub p xv) = 0
  /\ (r0 < norm (vsub p xv) ->
      vdot (LumpedVortex.point_vortex_velocity r0 xv Gamma p)
           (- snd (vsub p xv) / norm (vsub p xv),
            fst (vsub p xv) / norm (vsub p xv))
      = - Gamma / (2 * PI * norm (vsub p xv))).
Proof.
  intros H0. pose proof PI_RGT_0 as Hpi. split.
  - unfold LumpedVortex.point_vortex_velocity, vdot, vsub. cbn [fst snd].
    unfold Rdiv. ring.
  - intros Hout. set (d := norm (vsub p xv)) in *.
    pose proof (norm_sqr (vsub p xv)) as Hsq. fold d in Hsq.
    unfold vsub in *. cbn [fst snd] in *.
    unfold LumpedVortex.point_vortex_velocity, vdot. cbn [fst snd].
    set (rx := fst p - fst xv) in *. set (ry := snd p - snd xv) in *.
    rewrite Rmax_left by nra. rewrite <- Hsq.
    replace (Gamma / (2 * PI) * ry / (d * d) * (- ry / d)
             + Gamma / (2 * PI) * - rx / (d * d) * (rx / d))
      with (- Gamma * (rx * rx + ry * ry) / (2 * PI * (d * d) * d))
      by (field; lra).
    rewrite <- Hsq. field. lra.
Qed.

(** X3.  The velocity is tangential: it is perpendicular to [r = p - xvort]
    for every target, and outside the core its component along the
    counter-clockwise unit tangent [(- r_y, r_x) / |r|] is
    [- gam / (2 pi |r|)], the [u_theta] of the docstring: a positive
    strength turns clockwise. *)
Theorem induced_velocity_single_tangential (r0 : R) (x : array2) (xv : vec2)
    (gam : R) :
  0 < r0 ->
  exists vel : array2,
    LumpedVortex.induced_velocity_single r0 x xv gam = Ok vel
    /\ Forall2
         (fun p v =>
            vdot v (vsub p xv) = 0
            /\ (r0 < norm (vsub p xv) ->
                vdot v (- snd (vsub p xv) / norm (vsub p xv),
                        fst (vsub p xv) / norm (vsub p xv))
                = - gam / (2 * PI * norm (vsub p xv))))
         x vel.
Proof.
  intros H0. eexists. split.
  - apply induced_velocity_single_pointwise. lra.
  - apply Forall2_map_self. intros p.
    now apply point_vortex_velocity_tangent.
Qed.

Lemma induced_velocity_single_tangential_witness :
  exists vel : array2,
    LumpedVortex.induced_velocity_single 1 [(3, 4)] (0, 0) 2 = Ok vel
    /\ Forall2
         (fun p v =>
            vdot v (vsub p (0, 0)) = 0
            /\ (1 < norm (vsub p (0, 0)) ->
                vdot v (- snd (vsub p (0, 0)) / norm (vsub p (0, 0)),
                        fst (vsub p (0, 0)) / norm (vsub p (0, 0)))
                = - 2 / (2 * PI * norm (vsub p (0, 0)))))
         [(3, 4)] vel.
Proof.
  apply (induced_velocity_single_tangential 1 [(3, 4)] (0, 0) 2). lra.
Defined.

(** ** The geometry [_update] builds *)

(** X4.  For a body of at least two boundary points, without a panel of
    length zero and, when it is closed, with a first panel that differs from
    the last, [_update] returns (so does the constructor) and every panel
    has a unit normal, perpendicular to the panel and pointing to the right
    of the direction in which the boundary points run. *)
Theorem normals_unit_perpendicular (self : BoundVortexPanels.t)
    (Uinfty : vec2) :
  let q := BoundVortexPanels.get_points (BoundVortexPanels._body self) in
  (2 <= length q)%nat ->
  Forall (fun d => d <> (0, 0)) (BoundVortexPanels.diff q) ->
  (norm (vsub (first_point q) (last_point q)) < 0.005 ->
   first_panel q <> last_panel q) ->
  exists self' : BoundVortexPanels.t,
    BoundVortexPanels._update self Uinfty = Ok self'
    /\ Forall2
         (fun d n =>
            norm n = 1
            /\ vdot n d = 0
            /\ fst d * snd n - snd d * fst n = - norm d)
         (BoundVortexPanels.diff q) (BoundVortexPanels._normals self').
Proof.
  intros q Hlen Hdq Hclosed.
  rewrite _update_ok by assumption.
  eexists. split; [reflexivity |]. cbn [BoundVortexPanels._normals]. fold q.
  induction Hdq as [| d dq Hd _ IH]; cbn [map]; constructor; [| exact IH].
  assert (Hn : norm d <> 0) by (intros E; now apply norm_zero_iff in E).
  pose proof (norm_sqr d) as Hs. pose proof (norm_nonneg d) as Hp.
  split; [| split].
  - unfold norm at 1. cbn [fst snd]. apply sqrt_lem_1; [| lra |].
    + replace (snd d / norm d * (snd d / norm d) + - fst d / norm d * (- fst d / norm d))
        with ((fst d * fst d + snd d * snd d) / (norm d * norm d)) by (field; exact Hn).
      rewrite <- Hs. unfold Rdiv. rewrite Rinv_r by nra. lra.
    + replace (snd d / norm d * (snd d / norm d) + - fst d / norm d * (- fst d / norm d))
        with ((fst d * fst d + snd d * snd d) / (norm d * norm d)) by (field; exact Hn).
      rewrite <- Hs. field. exact Hn.
  - unfold vdot. cbn [fst snd]. unfold Rdiv. ring.
  - cbn [fst snd].
    replace (fst d * (- fst d / norm d) - snd d * (snd d / norm d))
      with (- (fst d * fst d + snd d * snd d) / norm d) by (field; exact Hn).
    rewrite <- Hs. field. exact Hn.
Qed.

Lemma normals_unit_perpendicular_witness :
  exists self' : BoundVortexPanels.t,
    BoundVortexPanels._update
      (BoundVortexPanels.mk LumpedVortex._core_radius wedge 0
         [] [] [] (0, 0) (0, 0) [] None None None) (1, 0) = Ok self'
    /\ Forall2
         (fun d n =>
            norm n = 1
            /\ vdot n d = 0
            /\ fst d * snd n - snd d * fst n = - norm d)
         (BoundVortexPanels.diff (BoundVortexPanels.get_points wedge))
         (BoundVortexPanels._normals self').
Proof.
  apply (normals_unit_perpendicular
           (BoundVortexPanels.mk LumpedVortex._core_radius wedge 0
              [] [] [] (0, 0) (0, 0) [] None None None) (1, 0)).
  - cbn. lia.
  - exact wedge_panels.
  - intros _ E. unfold first_panel, last_panel, vsub in E. cbn in E.
    injection E as E1 _. lra.
Defined.

(** The panels of a boundary: the pairs of consecutive points. *)
Lemma diff_panels (q : array2) :
  BoundVortexPanels.diff q
  = map (fun ab => vsub (snd ab) (fst ab)) (combine q (tl q)).
Proof.
  induction q as [| a q IH]; [reflexivity |].
  destruct q as [| b q]; [reflexivity |].
  rewrite diff_cons_cons, IH. reflexivity.
Qed.

Lemma removelast_panels (q : array2) :
  removelast q = map fst (combine q (tl q)).
Proof.
  induction q as [| a q IH]; [reflexivity |].
  destruct q as [| b q]; [reflexivity |].
  change (removelast (a :: b :: q)) with (a :: removelast (b :: q)).
  rewrite IH. reflexivity.
Qed.

Lemma add_arr_map_any {A : Type} (f g : A -> vec2) (l : list A) :
  add_arr (map f l) (map g l) = map (fun a => vadd (f a) (g a)) l.
Proof.
  unfold add_arr. induction l as [| a l IH]; cbn [map combine fst snd];
    [reflexivity | now rewrite IH].
Qed.

Lemma assign_where_map {A : Type} (t : A -> bool) (lo hi : A -> vec2)
    (l : list A) :
  BoundVortexPanels.assign_where (map t l) (map lo l) (map hi l)
  = map (fun a => if t a then hi a else lo a) l.
Proof.
  induction l as [| a l IH]; cbn [map BoundVortexPanels.assign_where];
    [reflexivity | now rewrite IH].
Qed.

Lemma _update_points (self self' : BoundVortexPanels.t) (Uinfty : vec2) :
  BoundVortexPanels._update self Uinfty = Ok self' ->
  let ps := combine (BoundVortexPanels.get_points (BoundVortexPanels._body self))
                    (tl (BoundVortexPanels.get_points (BoundVortexPanels._body self))) in
  let d := fun ab : vec2 * vec2 => vsub (snd ab) (fst ab) in
  let top := fun ab => if Rle_dec (vdot Uinfty (d ab)) 0 then true else false in
  BoundVortexPanels._xvort self'
  = map (fun ab => if top ab then vadd (fst ab) (vscale 0.75 (d ab))
                   else vadd (fst ab) (vscale 0.25 (d ab))) ps
  /\ BoundVortexPanels._xcoll self'
     = map (fun ab => if top ab then vadd (fst ab) (vscale 0.25 (d ab))
                      else vadd (fst ab) (vscale 0.75 (d ab))) ps.
Proof.
  intros H ps d top. unfold BoundVortexPanels._update in H.
  apply bind_ok in H. destruct H as [normals [_ H]].
  apply bind_ok in H. destruct H as [te [_ H]].
  injection H as <-. cbn [BoundVortexPanels._xvort BoundVortexPanels._xcoll].
  set (q := BoundVortexPanels.get_points (BoundVortexPanels._body self)) in *.
  assert (H25 : add_arr (removelast q) (scale 0.25 (BoundVortexPanels.diff q))
                = map (fun ab => vadd (fst ab) (vscale 0.25 (d ab))) ps).
  { rewrite diff_panels, removelast_panels. fold ps. unfold scale.
    rewrite map_map. apply add_arr_map_any. }
  assert (H75 : add_arr (removelast q) (scale 0.75 (BoundVortexPanels.diff q))
                = map (fun ab => vadd (fst ab) (vscale 0.75 (d ab))) ps).
  { rewrite diff_panels, removelast_panels. fold ps. unfold scale.
    rewrite map_map. apply add_arr_map_any. }
  assert (Htop : BoundVortexPanels.against_flow Uinfty (BoundVortexPanels.diff q)
                 = map top ps).
  { unfold BoundVortexPanels.against_flow. rewrite diff_panels. fold ps.
    now rewrite map_map. }
  rewrite H25, H75, Htop. split; apply assign_where_map.
Qed.

(** X5.  Whenever [_update] returns, every panel from [a] to [b] carries its
    vortex and its collocation point at the quarter points: the two are
    symmetric about the middle of the panel, half a panel apart, and the
    collocation point is never upstream of the vortex with respect to
    [Uinfty]. *)
Theorem vortex_and_collocation_points (self self' : BoundVortexPanels.t)
    (Uinfty : vec2) :
  BoundVortexPanels._update self Uinfty = Ok self' ->
  Forall2
    (fun ab vc =>
       vadd (fst vc) (snd vc) = vadd (fst ab) (snd ab)
       /\ (vsub (snd vc) (fst vc) = vscale (1 / 2) (vsub (snd ab) (fst ab))
           \/ vsub (snd vc) (fst vc) = vscale (- (1 / 2)) (vsub (snd ab) (fst ab)))
       /\ 0 <= vdot Uinfty (vsub (snd vc) (fst vc)))
    (combine (BoundVortexPanels.get_points (BoundVortexPanels._body self))
             (tl (BoundVortexPanels.get_points (BoundVortexPanels._body self))))
    (combine (BoundVortexPanels._xvort self') (BoundVortexPanels._xcoll self')).
Proof.
  intros H. apply _update_points in H. cbv zeta in H. destruct H as [-> ->].
  set (ps := combine _ _).
  assert (Hc : forall (f g : vec2 * vec2 -> vec2) (l : list (vec2 * vec2)),
             combine (map f l) (map g l) = map (fun ab => (f ab, g ab)) l).
  { intros f g l. induction l as [| a l IH]; cbn [map combine];
      [reflexivity | now rewrite IH]. }
  rewrite Hc. apply Forall2_map_self. intros [[ax ay] [bx by_]].
  cbn [fst snd]. unfold vadd, vsub, vscale, vdot. cbn [fst snd].
  destruct (Rle_dec (fst Uinfty * (bx - ax) + snd Uinfty * (by_ - ay)) 0) as [Hle | Hgt];
    cbn [fst snd].
  - split; [f_equal; lra |]. split; [right; f_equal; lra | lra].
  - split; [f_equal; lra |]. split; [left; f_equal; lra | lra].
Qed.

Lemma vortex_and_collocation_points_witness :
  Forall2
    (fun ab vc =>
       vadd (fst vc) (snd vc) = vadd (fst ab) (snd ab)
       /\ (vsub (snd vc) (fst vc) = vscale (1 / 2) (vsub (snd ab) (fst ab))
           \/ vsub (snd vc) (fst vc) = vscale (- (1 / 2)) (vsub (snd ab) (fst ab)))
       /\ 0 <= vdot (0, 1) (vsub (snd vc) (fst vc)))
    (combine (BoundVortexPanels.get_points flat_plate)
             (tl (BoundVortexPanels.get_points flat_plate)))
    (combine (BoundVortexPanels._xvort plate_across)
             (BoundVortexPanels._xcoll plate_across)).
Proof.
  exact (vortex_and_collocation_points
           (BoundVortexPanels.mk LumpedVortex._core_radius flat_plate 0
              [] [] [] (0, 0) (0, 0) [] None None None)
           plate_across (0, 1) plate_across_init).
Defined.

(** ** Bodies the constructor refuses *)

Lemma norm_zero : norm (0, 0) = 0.
Proof. now apply norm_zero_iff. Qed.

(** X6.  A body with fewer than two boundary points has no panel: the
    constructor (and [_update]) raise [IndexError], whatever the motion and
    the free stream. *)
Theorem _update_too_few_points (self : BoundVortexPanels.t) (Uinfty : vec2) :
  (length (BoundVortexPanels.get_points (BoundVortexPanels._body self)) < 2)%nat ->
  BoundVortexPanels._update self Uinfty = Raise IndexError
  /\ BoundVortexPanels.__init__ (BoundVortexPanels._body self) Uinfty
     = Raise IndexError.
Proof.
  intros Hlen.
  assert (H : forall s : BoundVortexPanels.t,
             BoundVortexPanels._body s = BoundVortexPanels._body self ->
             BoundVortexPanels._update s Uinfty = Raise IndexError).
  { intros s Hs. unfold BoundVortexPanels._update. rewrite Hs.
    destruct (BoundVortexPanels.get_points (BoundVortexPanels._body self))
      as [| p [| p' q]]; cbn [length] in Hlen; try lia.
    - reflexivity.
    - cbn [BoundVortexPanels.diff perp map div_cols existsb bind combine].
      unfold BoundVortexPanels.trailing_edge. cbn [last].
      destruct (Rlt_dec (norm (vsub p p)) 0.005) as [_ | N]; [reflexivity |].
      elim N. replace (vsub p p) with ((0, 0) : vec2)
        by (unfold vsub; f_equal; ring).
      rewrite norm_zero. lra. }
  split; [now apply H | unfold BoundVortexPanels.__init__; now apply H].
Qed.

Lemma _update_too_few_points_witness :
  BoundVortexPanels._update plate_across_solved (1, 0) <> Raise IndexError
  /\ BoundVortexPanels.__init__
       {| BoundVortexPanels.get_points := [];
          BoundVortexPanels.get_motion := None |} (1, 0)
     = Raise IndexError.
Proof.
  split.
  - unfold plate_across_solved. rewrite _update_ok;
      [discriminate | cbn; lia | exact flat_plate_panels
       | intros Hc; elim (flat_plate_open Hc)].
  - apply (_update_too_few_points
             (BoundVortexPanels.mk LumpedVortex._core_radius
                {| BoundVortexPanels.get_points := [];
                   BoundVortexPanels.get_motion := None |}
                0 [] [] [] (0, 0) (0, 0) [] None None None) (1, 0)).
    cbn. lia.
Defined.

(** X7.  Two consecutive boundary points that coincide give a panel of
    length zero; its normal is 0/0, and [_update] and the constructor
    return arrays that are not finite instead of raising. *)
Theorem _update_zero_length_panel (self : BoundVortexPanels.t) (Uinfty : vec2) :
  In (0, 0) (BoundVortexPanels.diff
               (BoundVortexPanels.get_points (BoundVortexPanels._body self))) ->
  BoundVortexPanels._update self Uinfty = NotFinite
  /\ BoundVortexPanels.__init__ (BoundVortexPanels._body self) Uinfty = NotFinite.
Proof.
  intros Hin.
  assert (H : forall s : BoundVortexPanels.t,
             BoundVortexPanels._body s = BoundVortexPanels._body self ->
             BoundVortexPanels._update s Uinfty = NotFinite).
  { intros s Hs. unfold BoundVortexPanels._update. rewrite Hs.
    unfold div_cols.
    assert (Ht : existsb is_zero
                   (map norm (BoundVortexPanels.diff
                      (BoundVortexPanels.get_points (BoundVortexPanels._body self))))
                 = true).
    { apply existsb_exists. exists (norm (0, 0)). split.
      - now apply in_map.
      - apply is_zero_true. exact norm_zero. }
    rewrite Ht. reflexivity. }
  split; [now apply H | unfold BoundVortexPanels.__init__; now apply H].
Qed.

Lemma _update_zero_length_panel_witness :
  BoundVortexPanels.__init__
    {| BoundVortexPanels.get_points := [(1, 0); (1, 0); (0, 0)];
       BoundVortexPanels.get_motion := None |} (1, 0)
  = NotFinite.
Proof.
  apply (_update_zero_length_panel
           (BoundVortexPanels.mk LumpedVortex._core_radius
              {| BoundVortexPanels.get_points := [(1, 0); (1, 0); (0, 0)];
                 BoundVortexPanels.get_motion := None |}
              0 [] [] [] (0, 0) (0, 0) [] None None None) (1, 0)).
  left. unfold vsub. cbn [fst snd]. f_equal; lra.
Defined.

(** X8.  A body that counts as closed (first and last boundary points
    closer than 0.005) and whose first and last panels are the same vector
    has the wake direction 0/0: the constructor returns values that are not
    finite.  Every body of two points less than 0.005 apart is one. *)
Theorem _update_closed_degenerate (self : BoundVortexPanels.t) (Uinfty : vec2) :
  let q := BoundVortexPanels.get_points (BoundVortexPanels._body self) in
  (2 <= length q)%nat ->
  norm (vsub (first_point q) (last_point q)) < 0.005 ->
  first_panel q = last_panel q ->
  BoundVortexPanels._update self Uinfty = NotFinite
  /\ BoundVortexPanels.__init__ (BoundVortexPanels._body self) Uinfty = NotFinite.
Proof.
  intros q Hlen Hclosed Hsame.
  assert (H : forall s : BoundVortexPanels.t,
             BoundVortexPanels._body s = BoundVortexPanels._body self ->
             BoundVortexPanels._update s Uinfty = NotFinite).
  { intros s Hs. unfold BoundVortexPanels._update. rewrite Hs. fold q.
    destruct (div_cols (perp (BoundVortexPanels.diff q))
                       (map norm (BoundVortexPanels.diff q))) as [normals | e |] eqn:E.
    - cbn [bind].
      destruct q as [| q0 [| q1 q']] eqn:Eq; cbn [length] in Hlen; try lia.
      unfold BoundVortexPanels.trailing_edge.
      assert (Hlast : last (q0 :: q1 :: q') q0 = last_point (q0 :: q1 :: q'))
        by (apply last_nonempty; discriminate).
      rewrite Hlast. change (first_point (q0 :: q1 :: q')) with q0 in Hclosed.
      destruct (Rlt_dec (norm (vsub q0 (last_point (q0 :: q1 :: q')))) 0.005)
        as [_ | N]; [| contradiction].
      pose proof (last_diff q' q0 q1 (vsub q1 q0)) as Hld.
      rewrite diff_cons_cons in *. rewrite Hld.
      change (first_panel (q0 :: q1 :: q')) with (vsub q1 q0) in Hsame.
      rewrite <- Hsame.
      replace (vscale (- 0.5) (vsub (vsub q1 q0) (vsub q1 q0))) with ((0, 0) : vec2)
        by (unfold vscale, vsub; cbn [fst snd]; f_equal; lra).
      unfold div_scalar. rewrite norm_zero, is_zero_true by reflexivity.
      reflexivity.
    - unfold div_cols in E. destruct (existsb is_zero _); discriminate.
    - reflexivity. }
  split; [now apply H | unfold BoundVortexPanels.__init__; now apply H].
Qed.

Lemma _update_closed_degenerate_witness :
  BoundVortexPanels.__init__
    {| BoundVortexPanels.get_points := [(0, 0); (0.001, 0)];
       BoundVortexPanels.get_motion := None |} (1, 0)
  = NotFinite.
Proof.
  apply (_update_closed_degenerate
           (BoundVortexPanels.mk LumpedVortex._core_radius
              {| BoundVortexPanels.get_points := [(0, 0); (0.001, 0)];
                 BoundVortexPanels.get_motion := None |}
              0 [] [] [] (0, 0) (0, 0) [] None None None) (1, 0)).
  - cbn. lia.
  - cbn. unfold norm, vsub. cbn [fst snd].
    replace ((0 - 0.001) * (0 - 0.001) + (0 - 0) * (0 - 0)) with (0.001 * 0.001)
      by lra.
    rewrite sqrt_square by lra. lra.
  - reflexivity.
Defined.

(** ** Strengths set to zero *)

Lemma point_vortex_velocity_zero_strength (r0 : R) (xv p : vec2) :
  LumpedVortex.point_vortex_velocity r0 xv 0 p = (0, 0).
Proof.
  unfold LumpedVortex.point_vortex_velocity. cbn zeta.
  f_equal; unfold Rdiv; ring.
Qed.

Lemma induced_sum_zero_strengths (r0 : R) (vs : list (vec2 * R)) (p : vec2) :
  Forall (fun v => snd v = 0) vs -> induced_sum r0 vs p = (0, 0).
Proof.
  unfold induced_sum. induction 1 as [| v vs Hv _ IH]; cbn [fold_left].
  - reflexivity.
  - rewrite Hv, point_vortex_velocity_zero_strength, vadd_zero_r. exact IH.
Qed.

Lemma combine_repeat_zero {A : Type} (l : list A) (n : nat) :
  Forall (fun v : A * R => snd v = 0) (combine l (repeat 0 n)).
Proof.
  revert n. induction l as [| a l IH]; intros n; cbn [combine]; [constructor |].
  destruct n as [| n]; cbn [repeat]; constructor; [reflexivity | apply IH].
Qed.

(** X9.  [_update] sets every strength to zero: after it (so also right
    after construction) the panels induce no velocity at any point, moving
    body or not. *)
Theorem _update_induces_nothing (self self' : BoundVortexPanels.t)
    (Uinfty : vec2) (x : array2) :
  BoundVortexPanels._update self Uinfty = Ok self' ->
  BoundVortexPanels.core_radius self <> 0 ->
  BoundVortexPanels.induced_velocity self' x = Ok (zeros_like x).
Proof.
  intros H H0.
  assert (Hcore : BoundVortexPanels.core_radius self' = BoundVortexPanels.core_radius self)
    by (now apply _update_frame in H).
  rewrite bound_induced_velocity by (rewrite Hcore; exact H0).
  f_equal. unfold zeros_like. apply map_ext. intros p.
  apply induced_sum_zero_strengths. unfold bound_vortices.
  unfold BoundVortexPanels._update in H.
  apply bind_ok in H. destruct H as [normals [_ H]].
  apply bind_ok in H. destruct H as [te [_ H]].
  injection H as <-. cbn [BoundVortexPanels._gam].
  apply combine_repeat_zero.
Qed.

Lemma _update_induces_nothing_witness :
  BoundVortexPanels.induced_velocity plate_across [(3, 4); (0.25, 0)]
  = Ok (zeros_like [(3, 4); (0.25, 0)]).
Proof.
  apply (_update_induces_nothing
           (BoundVortexPanels.mk LumpedVortex._core_radius flat_plate 0
              [] [] [] (0, 0) (0, 0) [] None None None)
           plate_across (0, 1) [(3, 4); (0.25, 0)] plate_across_init).
  cbn. unfold LumpedVortex._core_radius. lra.
Defined.

(** ** The wake: invariant, round trip, superposition *)

Lemma fold_accumulate_stuck (r0 : R) (x : array2) (vs : list (vec2 * R))
    (m : outcome array2) :
  (forall a, m <> Ok a) -> fold_left (LumpedVortex.accumulate r0 x) vs m = m.
Proof.
  revert m. induction vs as [| v vs IH]; intros m Hm; cbn [fold_left].
  - reflexivity.
  - destruct m as [a | e |]; [now elim (Hm a) | |];
      cbn [LumpedVortex.accumulate bind]; apply IH; intros a; discriminate.
Qed.

Lemma fold_accumulate_length (r0 : R) (x : array2) (vs : list (vec2 * R)) :
  forall a v : array2,
    fold_left (LumpedVortex.accumulate r0 x) vs (Ok a) = Ok v ->
    length a = length x -> length v = length x.
Proof.
  induction vs as [| u vs IH]; intros a v H Ha; cbn [fold_left] in H.
  - injection H as <-. exact Ha.
  - unfold LumpedVortex.accumulate at 2 in H. cbn [bind] in H.
    destruct (LumpedVortex.induced_velocity_single r0 x (fst u) (snd u))
      as [k | e |] eqn:E; cbn [bind] in H.
    + apply (IH _ _ H). apply induced_velocity_single_length in E.
      unfold add_arr. rewrite length_map, length_combine. lia.
    + rewrite fold_accumulate_stuck in H by (intros b; discriminate).
      discriminate.
    + rewrite fold_accumulate_stuck in H by (intros b; discriminate).
      discriminate.
Qed.

Lemma wake_induced_velocity_length (w : FreeVortexParticles.t) (x vel : array2) :
  FreeVortexParticles.induced_velocity w x = Ok vel -> length vel = length x.
Proof.
  unfold FreeVortexParticles.induced_velocity.
  destruct (FreeVortexParticles._x_vortices w) as [xs |]; [| discriminate].
  intros H. apply (fold_accumulate_length _ _ _ _ _ H).
  unfold zeros_like. apply length_map.
Qed.

Lemma advect_inv (panels : Type)
    (panels_induced_velocity : panels -> array2 -> outcome array2)
    (w w' : FreeVortexParticles.t) (dt : R) (Uinfty : option vec2)
    (body : option panels) :
  FreeVortexParticles.advect panels panels_induced_velocity w dt Uinfty body
  = Ok w' ->
  exists xs vel : array2,
    FreeVortexParticles._x_vortices w = Some xs
    /\ length vel = length xs
    /\ w' = FreeVortexParticles.mk (FreeVortexParticles.core_radius w)
               (Some (add_arr xs (scale dt vel))) (FreeVortexParticles._gamma w)
               (FreeVortexParticles._num_vortices w)
               (FreeVortexParticles._circulation w).
Proof.
  unfold FreeVortexParticles.advect. intros H.
  destruct (FreeVortexParticles._x_vortices w) as [xs |] eqn:Hxs; [| discriminate].
  apply bind_ok in H. destruct H as [v0 [Hv0 H]].
  apply bind_ok in H. destruct H as [v1 [Hv1 H]].
  injection H as <-.
  apply wake_induced_velocity_length in Hv0.
  assert (Hl1 : length v1 = length xs).
  { destruct body as [b |].
    - apply bind_ok in Hv1. destruct Hv1 as [bv [_ Hv1]].
      unfold FreeVortexParticles.iadd in Hv1.
      destruct (Nat.eqb (length v0) (length bv)) eqn:E; [| discriminate].
      injection Hv1 as <-. apply Nat.eqb_eq in E.
      unfold add_arr. rewrite length_map, length_combine. lia.
    - injection Hv1 as <-. exact Hv0. }
  exists xs. eexists. split; [reflexivity |]. split; [| reflexivity].
  destruct Uinfty as [u |]; [destruct (FreeVortexParticles.any u) |];
    unfold add_col; rewrite ?length_map; exact Hl1.
Qed.

(** X10.  Every wake a program can hold, after any sequence of [reset],
    [add_vortex], [add_newly_shed], [advect] and changes of the core radius,
    is consistent: [_num_vortices] counts the strengths and the positions,
    there is no position array exactly when the count is 0, and
    [circulation] is the sum of the strengths. *)
Theorem wake_invariant (w : FreeVortexParticles.t) :
  wake_reachable w -> wake_consistent w.
Proof.
  assert (Hadd : forall w x g, wake_consistent w ->
                   wake_consistent (FreeVortexParticles.add_vortex w x g)).
  { intros w0 x g [H1 [H2 H3]]. unfold wake_consistent, FreeVortexParticles.circulation in *.
    cbn [FreeVortexParticles.add_vortex FreeVortexParticles._gamma
         FreeVortexParticles._num_vortices FreeVortexParticles._circulation
         FreeVortexParticles._x_vortices].
    rewrite length_app, sum_list_app. cbn [length]. split; [lia |]. split.
    - rewrite H2. unfold sum_list. cbn [fold_right]. lra.
    - destruct (FreeVortexParticles._x_vortices w0) as [xs |].
      + destruct H3 as [H3 _]. rewrite length_app. cbn [length].
        split; [lia |]. intros E. now apply app_eq_nil in E as [_ E].
      + rewrite H3. split; [reflexivity | discriminate]. }
  induction 1 as [| w _ IH | w x g _ IH | w v _ IH
                  | panels piv w w' dt U body _ IH H
                  | panels pgs w w' body s s' _ IH H].
  - unfold wake_consistent. cbn. unfold sum_list. cbn. repeat split; reflexivity.
  - unfold wake_consistent. cbn. unfold sum_list. cbn. repeat split; reflexivity.
  - now apply Hadd.
  - exact IH.
  - apply advect_inv in H. destruct H as [xs [vel [Hxs [Hlen ->]]]].
    destruct IH as [H1 [H2 H3]]. rewrite Hxs in H3. destruct H3 as [H3 Hne].
    unfold wake_consistent, FreeVortexParticles.circulation in *.
    cbn [FreeVortexParticles._gamma FreeVortexParticles._num_vortices
         FreeVortexParticles._circulation FreeVortexParticles._x_vortices].
    split; [exact H1 |]. split; [exact H2 |].
    assert (Hl : length (add_arr xs (scale dt vel)) = length xs).
    { unfold add_arr, scale. rewrite length_map, length_combine, length_map. lia. }
    split; [lia |]. intros E. rewrite E in Hl. cbn in Hl.
    destruct xs; [now apply Hne | discriminate].
  - unfold FreeVortexParticles.add_newly_shed in H.
    apply bind_ok in H. destruct H as [shed [_ H]]. injection H as _ <-.
    now apply Hadd.
Qed.

Lemma wake_invariant_witness :
  wake_reachable one_vortex_wake /\ wake_consistent one_vortex_wake.
Proof.
  assert (H : wake_reachable one_vortex_wake)
    by exact (wake_add_vortex _ (2, 1) 2 wake_init).
  split; [exact H | exact (wake_invariant one_vortex_wake H)].
Defined.

Lemma add_all_positions (l : list (vec2 * R)) :
  forall w : FreeVortexParticles.t,
    FreeVortexParticles._x_vortices (add_all w l)
    = match FreeVortexParticles._x_vortices w, l with
      | None, [] => None
      | None, _ :: _ => Some (map fst l)
      | Some xs, _ => Some (xs ++ map fst l)
      end.
Proof.
  unfold add_all.
  induction l as [| xg l IH]; intros w; cbn [fold_left map].
  - destruct (FreeVortexParticles._x_vortices w); [now rewrite app_nil_r | reflexivity].
  - rewrite IH. cbn [FreeVortexParticles.add_vortex FreeVortexParticles._x_vortices].
    destruct (FreeVortexParticles._x_vortices w) as [xs |].
    + now rewrite <- app_assoc.
    + reflexivity.
Qed.

Lemma add_all_core_radius (l : list (vec2 * R)) :
  forall w : FreeVortexParticles.t,
    FreeVortexParticles.core_radius (add_all w l) = FreeVortexParticles.core_radius w.
Proof.
  unfold add_all. induction l as [| xg l IH]; intros w; cbn [fold_left];
    [reflexivity | now rewrite IH].
Qed.

(** X11.  What is added is what [vortices] gives back: after [reset()] and
    the calls [add_vortex(x_i, gamma_i)], the property holds the positions
    and the strengths in the order of the calls (and [None] for the
    positions when nothing was added). *)
Theorem vortices_after_add (w : FreeVortexParticles.t) (l : list (vec2 * R)) :
  FreeVortexParticles.vortices (add_all (FreeVortexParticles.reset w) l)
  = (match l with
     | [] => None
     | _ :: _ => Some (map fst l)
     end, map snd l).
Proof.
  unfold FreeVortexParticles.vortices.
  rewrite add_all_positions, add_all_gamma. reflexivity.
Qed.

Lemma combine_fst_snd {A B : Type} (l : list (A * B)) :
  combine (map fst l) (map snd l) = l.
Proof.
  induction l as [| [a b] l IH]; cbn [map combine fst snd];
    [reflexivity | now rewrite IH].
Qed.

Lemma add_all_induced_velocity (w : FreeVortexParticles.t)
    (l : list (vec2 * R)) (x : array2) :
  l <> [] ->
  FreeVortexParticles.core_radius w <> 0 ->
  FreeVortexParticles.induced_velocity (add_all (FreeVortexParticles.reset w) l) x
  = Ok (map (induced_sum (FreeVortexParticles.core_radius w) l) x).
Proof.
  intros Hl H0.
  assert (Hpos : FreeVortexParticles._x_vortices (add_all (FreeVortexParticles.reset w) l)
                 = Some (map fst l)).
  { rewrite add_all_positions. cbn [FreeVortexParticles.reset FreeVortexParticles._x_vortices].
    destruct l; [contradiction | reflexivity]. }
  rewrite (wake_induced_velocity _ _ x Hpos)
    by (rewrite add_all_core_radius; exact H0).
  rewrite add_all_core_radius, add_all_gamma.
  cbn [FreeVortexParticles.reset FreeVortexParticles._gamma
       FreeVortexParticles.core_radius app].
  now rewrite combine_fst_snd.
Qed.

(** X12.  [induced_velocity] of a wake is the sum of the kernel over the
    vortices added since [reset()]: as soon as one vortex is there the call
    returns an array of the shape of [x], and at every target the velocity
    is the sum, in the order of the calls, of what each vortex induces. *)
Theorem wake_superposition (w : FreeVortexParticles.t) (l : list (vec2 * R))
    (x : array2) :
  l <> [] ->
  FreeVortexParticles.core_radius w <> 0 ->
  FreeVortexParticles.induced_velocity (add_all (FreeVortexParticles.reset w) l) x
  = Ok (map (induced_sum (FreeVortexParticles.core_radius w) l) x).
Proof.
  intros Hl H0. now apply add_all_induced_velocity.
Qed.

Lemma wake_superposition_witness :
  FreeVortexParticles.induced_velocity
    (add_all (FreeVortexParticles.reset FreeVortexParticles.__init__)
             [((0, 0), 1); ((1, 0), 2)]) [(3, 4)]
  = Ok (map (induced_sum (FreeVortexParticles.core_radius FreeVortexParticles.__init__)
                         [((0, 0), 1); ((1, 0), 2)]) [(3, 4)]).
Proof.
  apply (wake_superposition FreeVortexParticles.__init__
           [((0, 0), 1); ((1, 0), 2)] [(3, 4)]).
  - discriminate.
  - cbn. unfold LumpedVortex._core_radius. lra.
Defined.

Lemma fold_vadd_components {A : Type} (f : A -> vec2) (vs : list A) :
  forall a : vec2,
    fold_left (fun acc v => vadd acc (f v)) vs a
    = (fst a + sum_list (map (fun v => fst (f v)) vs),
       snd a + sum_list (map (fun v => snd (f v)) vs)).
Proof.
  unfold sum_list.
  induction vs as [| v vs IH]; intros a; cbn [fold_left map fold_right].
  - destruct a. cbn [fst snd]. f_equal; lra.
  - rewrite IH. unfold vadd. cbn [fst snd]. f_equal; lra.
Qed.

Lemma induced_sum_components (r0 : R) (vs : list (vec2 * R)) (p : vec2) :
  induced_sum r0 vs p
  = (sum_list (map (fun v => fst (LumpedVortex.point_vortex_velocity r0 (fst v) (snd v) p)) vs),
     sum_list (map (fun v => snd (LumpedVortex.point_vortex_velocity r0 (fst v) (snd v) p)) vs)).
Proof.
  unfold induced_sum. rewrite fold_vadd_components. cbn [fst snd]. f_equal; lra.
Qed.

Lemma induced_sum_permutation (r0 : R) (l l' : list (vec2 * R)) (p : vec2) :
  Permutation l l' -> induced_sum r0 l p = induced_sum r0 l' p.
Proof.
  intros HP. rewrite !induced_sum_components.
  f_equal; apply sum_list_permutation; now apply Permutation_map.
Qed.

(** X13.  The velocity a wake induces does not depend on the order in which
    its vortices were added (in exact arithmetic), and neither does the
    failure of the call on a wake without vortices. *)
Theorem wake_velocity_order_independent (w : FreeVortexParticles.t)
    (l l' : list (vec2 * R)) (x : array2) :
  Permutation l l' ->
  FreeVortexParticles.core_radius w <> 0 ->
  FreeVortexParticles.induced_velocity (add_all (FreeVortexParticles.reset w) l) x
  = FreeVortexParticles.induced_velocity (add_all (FreeVortexParticles.reset w) l') x.
Proof.
  intros HP H0. destruct l as [| v l].
  - apply Permutation_nil in HP. now subst l'.
  - assert (Hl' : l' <> [])
      by (intros ->; apply Permutation_sym, Permutation_nil in HP; discriminate).
    rewrite !add_all_induced_velocity by (assumption || discriminate).
    f_equal. apply map_ext. intros p. now apply induced_sum_permutation.
Qed.

Lemma wake_velocity_order_independent_witness :
  FreeVortexParticles.induced_velocity
    (add_all (FreeVortexParticles.reset FreeVortexParticles.__init__)
             [((0, 0), 1); ((1, 0), 2)]) [(3, 4)]
  = FreeVortexParticles.induced_velocity
      (add_all (FreeVortexParticles.reset FreeVortexParticles.__init__)
               [((1, 0), 2); ((0, 0), 1)]) [(3, 4)].
Proof.
  apply (wake_velocity_order_independent FreeVortexParticles.__init__
           [((0, 0), 1); ((1, 0), 2)] [((1, 0), 2); ((0, 0), 1)] [(3, 4)]).
  - apply perm_swap.
  - cbn. unfold LumpedVortex._core_radius. lra.
Defined.

(** X14.  A vortex does not move itself: [advect] on a wake of one vortex,
    without body and without free stream ([Uinfty] the default (0,0), or
    [None]), returns and leaves the wake as it is, for every time step. *)
Theorem advect_single_vortex (w : FreeVortexParticles.t) (p : vec2)
    (gamma dt : R) (Uinfty : option vec2) :
  FreeVortexParticles.core_radius w <> 0 ->
  Uinfty = Some (0, 0) \/ Uinfty = None ->
  FreeVortexParticles.advect BoundVortexPanels.t
    BoundVortexPanels.induced_velocity
    (FreeVortexParticles.add_vortex (FreeVortexParticles.reset w) p gamma)
    dt Uinfty None
  = Ok (FreeVortexParticles.add_vortex (FreeVortexParticles.reset w) p gamma).
Proof.
  intros H0 HU. unfold FreeVortexParticles.advect.
  cbn [FreeVortexParticles.add_vortex FreeVortexParticles.reset
       FreeVortexParticles._x_vortices].
  rewrite (wake_induced_velocity
             (FreeVortexParticles.add_vortex (FreeVortexParticles.reset w) p gamma)
             [p] [p] eq_refl H0).
  cbn [bind map FreeVortexParticles.add_vortex FreeVortexParticles.reset
       FreeVortexParticles._gamma FreeVortexParticles.core_radius
       FreeVortexParticles._num_vortices FreeVortexParticles._circulation
       app combine].
  unfold induced_sum. cbn [fold_left fst snd].
  rewrite point_vortex_velocity_at_vortex by exact H0.
  assert (Hvel : match Uinfty with
                 | Some u => if FreeVortexParticles.any u
                             then add_col [vadd (0, 0) (0, 0)] u
                             else [vadd (0, 0) (0, 0)]
                 | None => [vadd (0, 0) (0, 0)]
                 end = [(0, 0)]).
  { assert (Hz : vadd (0, 0) (0, 0) = (0, 0)) by apply vadd_zero_r.
    destruct HU as [-> | ->]; rewrite Hz; [| reflexivity].
    unfold FreeVortexParticles.any. cbn [fst snd].
    rewrite is_zero_true by reflexivity. reflexivity. }
  rewrite Hvel. apply f_equal.
  unfold add_arr, scale. cbn [map combine fst snd].
  destruct p as [px py]. unfold vadd, vscale. cbn [fst snd].
  replace (px + dt * 0) with px by ring.
  replace (py + dt * 0) with py by ring.
  reflexivity.
Qed.

Lemma advect_single_vortex_witness :
  FreeVortexParticles.advect BoundVortexPanels.t
    BoundVortexPanels.induced_velocity
    (FreeVortexParticles.add_vortex
       (FreeVortexParticles.reset FreeVortexParticles.__init__) (2, 1) 5)
    (1 / 10) (Some (0, 0)) None
  = Ok (FreeVortexParticles.add_vortex
          (FreeVortexParticles.reset FreeVortexParticles.__init__) (2, 1) 5).
Proof.
  apply (advect_single_vortex FreeVortexParticles.__init__ (2, 1) 5 (1 / 10)
           (Some (0, 0))).
  - cbn. unfold LumpedVortex._core_radius. lra.
  - left. reflexivity.
Defined.

(** ** What the influence matrix means *)

Lemma map_seq_nth {A B : Type} (F : A -> B) (d : A) (l : list A) :
  map (fun i => F (nth i l d)) (seq 0 (length l)) = map F l.
Proof.
  induction l as [| a l IH]; [reflexivity |].
  cbn [length seq map nth]. f_equal.
  rewrite <- seq_shift, map_map. exact IH.
Qed.

Lemma sum_prod_map_l {A : Type} (f : A -> vec2) (g : A -> vec2) (l : list A) :
  sum_prod (map f l) (map g l) = map (fun a => vdot (f a) (g a)) l.
Proof.
  unfold sum_prod. induction l as [| a l IH]; cbn [map combine fst snd];
    [reflexivity | now rewrite IH].
Qed.

Lemma combine_split_maps {A B : Type} (l : list A) (l' : list B) :
  length l = length l' ->
  map fst (combine l l') = l /\ map snd (combine l l') = l'.
Proof.
  revert l'. induction l as [| a l IH]; intros [| b l'] Hlen;
    cbn [length] in Hlen; try discriminate.
  - split; reflexivity.
  - injection Hlen as Hlen. destruct (IH l' Hlen) as [H1 H2].
    cbn [combine map fst snd]. now rewrite H1, H2.
Qed.

Lemma compute_influence_matrix_rows (self : BoundVortexPanels.t) :
  shapes_agree self ->
  BoundVortexPanels.core_radius self <> 0 ->
  BoundVortexPanels.compute_influence_matrix self
  = Ok (map (fun z => map (fun xv => unit_influence (BoundVortexPanels.core_radius self) xv z)
                          (BoundVortexPanels._xvort self))
            (combine (BoundVortexPanels._xcoll self) (BoundVortexPanels._normals self))).
Proof.
  intros [Hn [Hv [Hc _]]] H0.
  set (r0 := BoundVortexPanels.core_radius self) in *.
  set (pm := combine (BoundVortexPanels._xcoll self) (BoundVortexPanels._normals self)).
  assert (Hpm : length pm = BoundVortexPanels._numpanels self)
    by (unfold pm; rewrite length_combine; lia).
  destruct (combine_split_maps (BoundVortexPanels._xcoll self)
              (BoundVortexPanels._normals self)) as [Hfst Hsnd]; [lia |].
  fold pm in Hfst, Hsnd.
  unfold BoundVortexPanels.compute_influence_matrix. fold r0.
  rewrite (map_outcome_ok _ (fun xv => map (unit_influence r0 xv) pm)).
  - cbn [bind]. f_equal. unfold BoundVortexPanels.of_columns.
    rewrite <- Hpm, <- (map_seq_nth _ ((0, 0), (0, 0)) pm).
    apply map_ext_in. intros i Hi. apply in_seq in Hi.
    destruct Hi as [_ Hi]. rewrite Nat.add_0_l in Hi.
    rewrite map_map. apply map_ext. intros xv.
    rewrite (nth_indep _ 0 (unit_influence r0 xv ((0, 0), (0, 0))))
      by (rewrite length_map; exact Hi).
    apply map_nth.
  - intros xv. rewrite induced_velocity_single_pointwise by exact H0.
    cbn [bind]. f_equal.
    clearbody pm. rewrite <- Hfst, <- Hsnd, map_map.
    apply (sum_prod_map_l (fun z => LumpedVortex.point_vortex_velocity r0 xv 1 (fst z)) snd).
Qed.

Lemma point_vortex_velocity_linear (r0 : R) (xv : vec2) (g : R) (p : vec2) :
  LumpedVortex.point_vortex_velocity r0 xv g p
  = vscale g (LumpedVortex.point_vortex_velocity r0 xv 1 p).
Proof.
  unfold LumpedVortex.point_vortex_velocity, vscale. cbn [fst snd].
  f_equal; unfold Rdiv; ring.
Qed.

Lemma row_dot (r0 : R) (z : vec2 * vec2) (xvort : array2) :
  forall gam : list R,
    dot (map (fun xv => unit_influence r0 xv z) xvort) gam
    = vdot (induced_sum r0 (combine xvort gam) (fst z)) (snd z).
Proof.
  intros gam. rewrite induced_sum_components. unfold vdot. cbn [fst snd].
  revert gam. unfold dot, sum_list.
  induction xvort as [| xv xvort IH]; intros gam.
  - cbn. ring.
  - destruct gam as [| g gam]; [cbn; ring |].
    cbn [map combine fold_right fst snd]. rewrite IH.
    rewrite (point_vortex_velocity_linear r0 xv g (fst z)).
    unfold unit_influence, vdot, vscale. cbn [fst snd]. ring.
Qed.

Lemma influence_matrix_current (self : BoundVortexPanels.t) :
  shapes_agree self ->
  cache_current self ->
  BoundVortexPanels.core_radius self <> 0 ->
  let A := map (fun z => map (fun xv => unit_influence (BoundVortexPanels.core_radius self) xv z)
                             (BoundVortexPanels._xvort self))
               (combine (BoundVortexPanels._xcoll self) (BoundVortexPanels._normals self)) in
  BoundVortexPanels.influence_matrix self
  = Ok (BoundVortexPanels.set_influence_matrix self (Some A), A).
Proof.
  intros Hs Hc H0 A. pose proof (compute_influence_matrix_rows self Hs H0) as Hrows.
  fold A in Hrows. unfold BoundVortexPanels.influence_matrix.
  destruct (BoundVortexPanels._influence_matrix self) as [B |] eqn:E.
  - specialize (Hc B E). rewrite Hrows in Hc. injection Hc as <-.
    destruct self. cbn in E. subst. reflexivity.
  - rewrite Hrows. reflexivity.
Qed.

(** X15.  For a body at rest the influence matrix is the linear map from
    strengths to normal velocities: the property returns a matrix [A] such
    that, for every vector of strengths, [A gam] is the normal component,
    at each collocation point, of the velocity that [induced_velocity]
    gives for panels of these strengths. *)
Theorem influence_matrix_meaning (self : BoundVortexPanels.t) :
  shapes_agree self ->
  cache_current self ->
  BoundVortexPanels.core_radius self <> 0 ->
  BoundVortexPanels.get_motion (BoundVortexPanels._body self) = None ->
  exists (st : BoundVortexPanels.t) (A : matrix),
    BoundVortexPanels.influence_matrix self = Ok (st, A)
    /\ forall gam : list R,
         exists vel : array2,
           BoundVortexPanels.induced_velocity (BoundVortexPanels.set_gam self gam)
             (BoundVortexPanels._xcoll self) = Ok vel
           /\ mat_vec A gam = sum_prod vel (BoundVortexPanels._normals self).
Proof.
  intros Hs Hc H0 Hm. eexists. eexists.
  split; [exact (influence_matrix_current self Hs Hc H0) |].
  intros gam. eexists. split.
  - apply bound_induced_velocity. exact H0.
  - unfold bound_vortices.
    cbn [BoundVortexPanels.set_gam BoundVortexPanels._body
         BoundVortexPanels._xvort BoundVortexPanels._gam
         BoundVortexPanels.core_radius].
    rewrite Hm. destruct Hs as [Hn [Hv [Hx _]]].
    destruct (combine_split_maps (BoundVortexPanels._xcoll self)
                (BoundVortexPanels._normals self)) as [Hfst Hsnd]; [lia |].
    set (pm := combine (BoundVortexPanels._xcoll self)
                       (BoundVortexPanels._normals self)) in *.
    clearbody pm. rewrite <- Hfst, <- Hsnd, map_map.
    rewrite (sum_prod_map_l
               (fun z => induced_sum (BoundVortexPanels.core_radius self)
                           (combine (BoundVortexPanels._xvort self) gam) (fst z)) snd).
    unfold mat_vec. rewrite map_map. apply map_ext. intros z. apply row_dot.
Qed.

Lemma plate_across_current : cache_current plate_across.
Proof. intros A E. discriminate E. Qed.

Lemma plate_across_radius : BoundVortexPanels.core_radius plate_across <> 0.
Proof. cbn. unfold LumpedVortex._core_radius. lra. Qed.

Lemma influence_matrix_meaning_witness :
  exists (st : BoundVortexPanels.t) (A : matrix),
    BoundVortexPanels.influence_matrix plate_across = Ok (st, A)
    /\ forall gam : list R,
         exists vel : array2,
           BoundVortexPanels.induced_velocity (BoundVortexPanels.set_gam plate_across gam)
             (BoundVortexPanels._xcoll plate_across) = Ok vel
           /\ mat_vec A gam = sum_prod vel (BoundVortexPanels._normals plate_across).
Proof.
  exact (influence_matrix_meaning plate_across plate_across_shapes
           plate_across_current plate_across_radius eq_refl).
Defined.

(** ** No flow through the panels *)

Lemma mat_vec_rows (r0 : R) (xvort : array2) (pm : list (vec2 * vec2))
    (gam : list R) :
  mat_vec (map (fun z => map (fun xv => unit_influence r0 xv z) xvort) pm) gam
  = map (fun z => vdot (induced_sum r0 (combine xvort gam) (fst z)) (snd z)) pm.
Proof.
  unfold mat_vec. rewrite map_map. apply map_ext. intros z. apply row_dot.
Qed.

Lemma map_eq_Forall {A B : Type} (f g : A -> B) (l : list A) :
  map f l = map g l -> Forall (fun a => f a = g a) l.
Proof.
  induction l as [| a l IH]; cbn [map]; intros H; constructor.
  - now injection H.
  - apply IH. now injection H.
Qed.

Lemma combine_repeat_l {A B : Type} (c : A) (l : list B) (n : nat) :
  length l = n -> combine (repeat c n) l = map (fun b => (c, b)) l.
Proof.
  revert n. induction l as [| b l IH]; intros [| n] Hn; cbn [length] in Hn;
    try discriminate; cbn [repeat combine map]; [reflexivity |].
  f_equal. apply IH. now injection Hn.
Qed.

Lemma compute_rhs_at_rest (self : BoundVortexPanels.t) (Uinfty : vec2)
    (wake : option FreeVortexParticles.t) (rhs : list R) :
  BoundVortexPanels.get_motion (BoundVortexPanels._body self) = None ->
  BoundVortexPanels.compute_rhs self Uinfty wake = Ok rhs ->
  exists vw : array2,
    match wake with
    | Some w => FreeVortexParticles.induced_velocity w (BoundVortexPanels._xcoll self) = Ok vw
    | None => vw = zeros2 (BoundVortexPanels._numpanels self)
    end
    /\ rhs = map Ropp (sum_prod (add_col vw Uinfty) (BoundVortexPanels._normals self)).
Proof.
  intros Hm. unfold BoundVortexPanels.compute_rhs. rewrite Hm. intros H.
  apply bind_ok in H. destruct H as [vw [Hvw H]]. injection H as <-.
  exists vw. split; [| reflexivity].
  destruct wake as [w |]; [exact Hvw | now injection Hvw].
Qed.

(** X16.  The steady solve enforces no flow through the panels.  On an
    object of agreeing shapes, with a core radius that is not zero and a
    cache that is current (no influence matrix cached, or the one of the
    present geometry and core radius: the setter of [core_radius] leaves a
    stale one), for a body at rest, after [update_strengths] with an exact
    solver, the free stream plus the velocity the panels induce has no
    normal component at any collocation point. *)
Theorem update_strengths_no_penetration
    (solve : matrix -> list R -> outcome (list R))
    (self self' : BoundVortexPanels.t) (Uinfty : vec2) :
  exact_solver solve ->
  shapes_agree self ->
  cache_current self ->
  BoundVortexPanels.core_radius self <> 0 ->
  BoundVortexPanels.get_motion (BoundVortexPanels._body self) = None ->
  BoundVortexPanels.update_strengths solve self Uinfty = Ok self' ->
  exists vel : array2,
    BoundVortexPanels.induced_velocity self' (BoundVortexPanels._xcoll self') = Ok vel
    /\ Forall (fun normal_velocity => normal_velocity = 0)
              (sum_prod (add_col vel Uinfty) (BoundVortexPanels._normals self')).
Proof.
  intros Hsolve Hs Hc H0 Hm H.
  unfold BoundVortexPanels.update_strengths in H.
  apply bind_ok in H. destruct H as [rhs [Hrhs H]].
  apply bind_ok in H. destruct H as [[st A] [Hinfl H]].
  apply bind_ok in H. destruct H as [gam [Hgam H]].
  cbn [fst snd] in H, Hgam. injection H as <-.
  rewrite (influence_matrix_current self Hs Hc H0) in Hinfl.
  injection Hinfl as <- <-.
  apply Hsolve in Hgam. destruct Hgam as [_ Hsol].
  apply (compute_rhs_at_rest self Uinfty None rhs Hm) in Hrhs.
  destruct Hrhs as [vw [-> ->]].
  eexists. split.
  - apply bound_induced_velocity. exact H0.
  - unfold bound_vortices.
    cbn [BoundVortexPanels.set_gam BoundVortexPanels.set_influence_matrix
         BoundVortexPanels._body BoundVortexPanels._xvort BoundVortexPanels._gam
         BoundVortexPanels.core_radius BoundVortexPanels._xcoll
         BoundVortexPanels._normals].
    rewrite Hm. rewrite mat_vec_rows in Hsol.
    destruct Hs as [Hn [Hv [Hx _]]].
    destruct (combine_split_maps (BoundVortexPanels._xcoll self)
                (BoundVortexPanels._normals self)) as [Hfst Hsnd]; [lia |].
    unfold zeros2, add_col, sum_prod in Hsol.
    rewrite map_repeat in Hsol. rewrite combine_repeat_l in Hsol by exact Hn.
    set (pm := combine (BoundVortexPanels._xcoll self)
                       (BoundVortexPanels._normals self)) in *.
    clearbody pm. rewrite <- Hsnd in Hsol. rewrite <- Hfst, <- Hsnd.
    rewrite !map_map in Hsol. cbn [fst snd] in Hsol.
    apply map_eq_Forall in Hsol.
    unfold add_col. rewrite !map_map.
    rewrite (sum_prod_map_l
               (fun z => vadd (induced_sum (BoundVortexPanels.core_radius self)
                                 (combine (BoundVortexPanels._xvort self) gam) (fst z))
                              Uinfty) snd).
    apply Forall_map. eapply Forall_impl; [| exact Hsol].
    intros z Hz. cbv beta in *. unfold vdot, vadd in *. cbn [fst snd] in *. lra.
Qed.

Lemma solve_1x1_exact : exact_solver solve_1x1.
Proof.
  intros A b x. unfold solve_1x1.
  destruct A as [| [| a [| ? ?]] [| ? ?]]; try discriminate.
  destruct b as [| b1 [| ? ?]]; try discriminate.
  destruct (is_zero a) eqn:Ha; [discriminate |].
  intros H. injection H as <-. split; [reflexivity |].
  assert (Hd : a <> 0) by (intros E; apply is_zero_true in E; congruence).
  unfold mat_vec, dot, sum_list. cbn [map combine fold_right fst snd].
  f_equal. field. exact Hd.
Qed.

(** The steady solve for the plate across a unit stream: one bound vortex
    of strength [PI]. *)
Lemma plate_across_update_strengths :
  BoundVortexPanels.update_strengths solve_1x1 plate_across (0, 1)
  = Ok plate_across_steady.
Proof.
  unfold plate_across, plate_across_steady.
  pose proof PI_RGT_0 as Hpi.
  assert (Hr0 : LumpedVortex._core_radius <> 0)
    by (unfold LumpedVortex._core_radius; lra).
  unfold BoundVortexPanels.update_strengths, BoundVortexPanels.compute_rhs.
  cbn [bind fst snd BoundVortexPanels._body BoundVortexPanels.get_motion flat_plate
       BoundVortexPanels._xcoll BoundVortexPanels._normals
       BoundVortexPanels._numpanels sum_prod zeros2 add_col repeat combine map].
  unfold BoundVortexPanels.influence_matrix,
    BoundVortexPanels.compute_influence_matrix.
  cbn [BoundVortexPanels._influence_matrix BoundVortexPanels._xvort
       BoundVortexPanels._xcoll BoundVortexPanels._normals
       BoundVortexPanels.core_radius BoundVortexPanels._numpanels
       BoundVortexPanels.map_outcome].
  rewrite induced_velocity_single_pointwise by exact Hr0.
  cbn [bind map]. rewrite kernel_at_vortex_side.
  cbn [bind fst snd BoundVortexPanels.of_columns sum_prod combine map seq nth].
  unfold vdot, vadd. cbn [fst snd].
  unfold solve_1x1.
  rewrite is_zero_false.
  2:{ intros E. apply (Rmult_eq_compat_r PI) in E. field_simplify in E; lra. }
  cbn [bind]. unfold BoundVortexPanels.set_gam, BoundVortexPanels.set_influence_matrix.
  cbn [BoundVortexPanels.core_radius BoundVortexPanels._body
       BoundVortexPanels._numpanels BoundVortexPanels._normals
       BoundVortexPanels._xvort BoundVortexPanels._xcoll
       BoundVortexPanels._trailing_edge BoundVortexPanels._wake_dir
       BoundVortexPanels._gam BoundVortexPanels._influence_matrix
       BoundVortexPanels._x_shed BoundVortexPanels._gam_shed].
  match goal with
  | |- Ok (BoundVortexPanels.mk _ _ _ _ _ _ _ _ [?g] (Some [[?a]]) _ _) = _ =>
      replace g with PI by (field; lra);
      replace a with (- (1 / PI)) by (field; lra)
  end.
  reflexivity.
Qed.

Lemma update_strengths_no_penetration_witness :
  exists vel : array2,
    BoundVortexPanels.induced_velocity plate_across_steady
      (BoundVortexPanels._xcoll plate_across_steady) = Ok vel
    /\ Forall (fun normal_velocity => normal_velocity = 0)
              (sum_prod (add_col vel (0, 1))
                        (BoundVortexPanels._normals plate_across_steady)).
Proof.
  exact (update_strengths_no_penetration solve_1x1 plate_across
           plate_across_steady (0, 1) solve_1x1_exact plate_across_shapes
           plate_across_current plate_across_radius eq_refl
           plate_across_update_strengths).
Defined.

Lemma dot_app (a a' b b' : list R) :
  length a = length b -> dot (a ++ a') (b ++ b') = dot a b + dot a' b'.
Proof.
  unfold dot, sum_list. revert b.
  induction a as [| u a IH]; intros [| v b] Hlen; cbn [length] in Hlen;
    try discriminate.
  - cbn [app combine map fold_right]. lra.
  - cbn [app combine map fold_right fst snd].
    rewrite IH by (now injection Hlen). lra.
Qed.

Lemma wake_velocity_as_map (wake : option FreeVortexParticles.t)
    (n : nat) (xc vw : array2) :
  length xc = n ->
  (forall w, wake = Some w -> FreeVortexParticles.core_radius w <> 0) ->
  match wake with
  | Some w => FreeVortexParticles.induced_velocity w xc = Ok vw
  | None => vw = zeros2 n
  end ->
  exists fw : vec2 -> vec2, vw = map fw xc.
Proof.
  intros Hlen Hw H. destruct wake as [w |].
  - destruct (FreeVortexParticles._x_vortices w) as [xs |] eqn:E.
    + rewrite (wake_induced_velocity w xs xc E (Hw w eq_refl)) in H.
      injection H as <-. eexists. reflexivity.
    + unfold FreeVortexParticles.induced_velocity in H. rewrite E in H.
      discriminate.
  - exists (fun _ => (0, 0)). subst vw n. unfold zeros2.
    clear Hw. induction xc as [| p xc IH]; cbn [length repeat map];
      [reflexivity | now rewrite IH].
Qed.

(** X17.  The unsteady solve enforces no flow through the panels with the
    new vortex counted in.  On an object of agreeing shapes, with a core
    radius that is not zero and a cache that is current (no influence matrix
    cached, or the one of the present geometry and core radius), for a body
    at rest and a wake, if any, with a core radius that is not zero, after
    [update_strengths_unsteady] with an exact solver, the free stream, the
    wake, the panels and the newly shed vortex together have no normal
    velocity at any collocation point. *)
Theorem update_strengths_unsteady_no_penetration
    (solve : matrix -> list R -> outcome (list R))
    (self : BoundVortexPanels.t) (s : store) (dt : R) (Uinfty : vec2)
    (wake : option FreeVortexParticles.t) (circ : option R) (wake_fac : R)
    (s' : store) (self' : BoundVortexPanels.t) :
  exact_solver solve ->
  shapes_agree self ->
  cache_current self ->
  BoundVortexPanels.core_radius self <> 0 ->
  BoundVortexPanels.get_motion (BoundVortexPanels._body self) = None ->
  (forall w, wake = Some w -> FreeVortexParticles.core_radius w <> 0) ->
  BoundVortexPanels.update_strengths_unsteady solve self s dt Uinfty wake circ
    wake_fac = Ok (s', self') ->
  exists (a : addr) (gam_shed : R) (vb vs vw : array2),
    BoundVortexPanels._x_shed self' = Some a
    /\ BoundVortexPanels._gam_shed self' = Some gam_shed
    /\ BoundVortexPanels.induced_velocity self' (BoundVortexPanels._xcoll self')
       = Ok vb
    /\ LumpedVortex.induced_velocity_single (BoundVortexPanels.core_radius self')
         (BoundVortexPanels._xcoll self') (deref s' a) gam_shed = Ok vs
    /\ match wake with
       | Some w => FreeVortexParticles.induced_velocity w
                     (BoundVortexPanels._xcoll self') = Ok vw
       | None => vw = zeros2 (BoundVortexPanels._numpanels self')
       end
    /\ Forall (fun normal_velocity => normal_velocity = 0)
              (sum_prod (add_col (add_arr (add_arr vb vs) vw) Uinfty)
                        (BoundVortexPanels._normals self')).
Proof.
  intros Hsolve Hs Hc H0 Hm Hw H.
  unfold BoundVortexPanels.update_strengths_unsteady in H.
  apply bind_ok in H. destruct H as [[st [x [A rhs]]] [Hsys H]].
  apply bind_ok in H. destruct H as [gam [Hgam H]].
  cbn [fst snd] in H, Hgam. injection H as <- <-.
  unfold BoundVortexPanels.unsteady_system in Hsys.
  rewrite induced_velocity_single_pointwise in Hsys by exact H0.
  cbn [bind] in Hsys.
  rewrite (influence_matrix_current self Hs Hc H0) in Hsys.
  cbn [bind fst snd] in Hsys.
  apply bind_ok in Hsys. destruct Hsys as [rhs0 [Hrhs Hsys]].
  injection Hsys as <- <- <- <-.
  set (x := vadd (BoundVortexPanels._trailing_edge self)
                 (vscale (wake_fac * sqrt (fst Uinfty * (fst Uinfty * 1)
                                           + snd Uinfty * (snd Uinfty * 1)) * dt)
                         (BoundVortexPanels._wake_dir self))) in *.
  set (r0 := BoundVortexPanels.core_radius self) in *.
  apply compute_rhs_at_rest in Hrhs; [| exact Hm].
  destruct Hrhs as [vw [Hvw ->]].
  cbn [BoundVortexPanels.set_influence_matrix BoundVortexPanels._xcoll
       BoundVortexPanels._numpanels BoundVortexPanels._normals] in Hvw, Hgam.
  destruct Hs as [Hn [Hv [Hx _]]].
  destruct (wake_velocity_as_map wake _ _ vw Hx Hw Hvw) as [fw Hfw].
  destruct (combine_split_maps (BoundVortexPanels._xcoll self)
              (BoundVortexPanels._normals self)) as [Hfst Hsnd]; [lia |].
  apply Hsolve in Hgam. destruct Hgam as [Hlen Hsol].
  rewrite mat_vec_app in Hsol. cbn [mat_vec map] in Hsol.
  apply app_inj_tail in Hsol. destruct Hsol as [Hbody _].
  rewrite length_app in Hlen. cbn [length] in Hlen.
  assert (Hne : gam <> []) by (intros ->; cbn in Hlen; lia).
  assert (Hgl : length (removelast gam) = BoundVortexPanels._numpanels self).
  { rewrite removelast_length, Hlen, Hfw. unfold sum_prod, add_col.
    rewrite !length_map, length_combine, !length_map, Hx, Hn, Nat.min_id. lia. }
  exists (length s), (last gam 0).
  exists (map (induced_sum r0 (combine (BoundVortexPanels._xvort self) (removelast gam)))
              (BoundVortexPanels._xcoll self)).
  exists (map (LumpedVortex.point_vortex_velocity r0 x (last gam 0))
              (BoundVortexPanels._xcoll self)).
  exists vw.
  cbn [BoundVortexPanels.set_shed BoundVortexPanels.set_gam
       BoundVortexPanels.set_influence_matrix BoundVortexPanels._x_shed
       BoundVortexPanels._gam_shed BoundVortexPanels._xcoll
       BoundVortexPanels._normals BoundVortexPanels._numpanels
       BoundVortexPanels.core_radius].
  split; [reflexivity |]. split; [reflexivity |]. split.
  { rewrite bound_induced_velocity by exact H0. unfold bound_vortices.
    cbn [BoundVortexPanels.set_shed BoundVortexPanels.set_gam
         BoundVortexPanels.set_influence_matrix
         BoundVortexPanels._body BoundVortexPanels._xvort BoundVortexPanels._gam
         BoundVortexPanels.core_radius].
    now rewrite Hm. }
  split.
  { unfold deref. rewrite nth_middle. fold r0.
    apply induced_velocity_single_pointwise. exact H0. }
  split; [exact Hvw |].
  (* the rows of the body equations, one collocation point at a time *)
  subst vw. rewrite !add_arr_map. unfold add_col. rewrite map_map.
  unfold add_col, sum_prod in Hbody.
  set (pm := combine (BoundVortexPanels._xcoll self)
                     (BoundVortexPanels._normals self)) in *.
  assert (Hshed : map (fun pq : vec2 * vec2 => vdot (fst pq) (snd pq))
                    (combine (map (LumpedVortex.point_vortex_velocity r0 x 1)
                                  (BoundVortexPanels._xcoll self))
                             (BoundVortexPanels._normals self))
                  = map (unit_influence r0 x) pm).
  { clearbody pm. rewrite <- Hfst, <- Hsnd, map_map.
    apply (sum_prod_map_l
             (fun z => LumpedVortex.point_vortex_velocity r0 x 1 (fst z)) snd). }
  rewrite Hshed in Hbody.
  assert (Htop : BoundVortexPanels.hstack_col
                   (map (fun z => map (fun xv => unit_influence r0 xv z)
                                      (BoundVortexPanels._xvort self)) pm)
                   (map (unit_influence r0 x) pm)
                 = map (fun z => map (fun xv => unit_influence r0 xv z)
                                     (BoundVortexPanels._xvort self)
                                 ++ [unit_influence r0 x z]) pm).
  { unfold BoundVortexPanels.hstack_col. clear.
    induction pm as [| z pm IH]; cbn [map combine fst snd];
      [reflexivity | now rewrite IH]. }
  rewrite Htop in Hbody.
  assert (Hrhs : map (fun pq : vec2 * vec2 => vdot (fst pq) (snd pq))
                   (combine (map (fun p => vadd p Uinfty)
                                 (map fw (BoundVortexPanels._xcoll self)))
                            (BoundVortexPanels._normals self))
                 = map (fun z => vdot (vadd (fw (fst z)) Uinfty) (snd z)) pm).
  { clearbody pm. rewrite <- Hfst, <- Hsnd, !map_map.
    apply (sum_prod_map_l (fun z => vadd (fw (fst z)) Uinfty) snd). }
  rewrite Hrhs in Hbody. unfold mat_vec in Hbody. rewrite !map_map in Hbody.
  apply map_eq_Forall in Hbody.
  assert (Hgoal : sum_prod
            (map (fun p => vadd (vadd (vadd
                     (induced_sum r0 (combine (BoundVortexPanels._xvort self)
                                              (removelast gam)) p)
                     (LumpedVortex.point_vortex_velocity r0 x (last gam 0) p))
                     (fw p)) Uinfty)
                 (BoundVortexPanels._xcoll self))
            (BoundVortexPanels._normals self)
          = map (fun z => vdot (vadd (vadd (vadd
                     (induced_sum r0 (combine (BoundVortexPanels._xvort self)
                                              (removelast gam)) (fst z))
                     (LumpedVortex.point_vortex_velocity r0 x (last gam 0) (fst z)))
                     (fw (fst z))) Uinfty) (snd z)) pm).
  { clearbody pm. rewrite <- Hfst, <- Hsnd, map_map.
    apply (sum_prod_map_l
             (fun z => vadd (vadd (vadd
                  (induced_sum r0 (combine (BoundVortexPanels._xvort self)
                                           (removelast gam)) (fst z))
                  (LumpedVortex.point_vortex_velocity r0 x (last gam 0) (fst z)))
                  (fw (fst z))) Uinfty) snd). }
  rewrite Hgoal. apply Forall_map. eapply Forall_impl; [| exact Hbody].
  intros z Hz. cbv beta in Hz.
  rewrite (app_removelast_last 0 Hne) in Hz at 1.
  rewrite dot_app in Hz.
  2:{ now rewrite length_map, Hgl. }
  rewrite row_dot in Hz.
  rewrite (point_vortex_velocity_linear r0 x (last gam 0) (fst z)).
  unfold dot, sum_list in Hz. cbn [combine map fold_right fst snd] in Hz.
  unfold unit_influence in Hz.
  unfold vdot, vadd, vscale in *. cbn [fst snd] in *. lra.
Qed.

Lemma update_strengths_unsteady_no_penetration_witness :
  exists (a : addr) (gam_shed : R) (vb vs vw : array2),
    BoundVortexPanels._x_shed plate_across_solved = Some a
    /\ BoundVortexPanels._gam_shed plate_across_solved = Some gam_shed
    /\ BoundVortexPanels.induced_velocity plate_across_solved
         (BoundVortexPanels._xcoll plate_across_solved) = Ok vb
    /\ LumpedVortex.induced_velocity_single
         (BoundVortexPanels.core_radius plate_across_solved)
         (BoundVortexPanels._xcoll plate_across_solved)
         (deref [(1.25, 0)] a) gam_shed = Ok vs
    /\ vw = zeros2 (BoundVortexPanels._numpanels plate_across_solved)
    /\ Forall (fun normal_velocity => normal_velocity = 0)
              (sum_prod (add_col (add_arr (add_arr vb vs) vw) (0, 1))
                        (BoundVortexPanels._normals plate_across_solved)).
Proof.
  apply (update_strengths_unsteady_no_penetration solve_2x2 plate_across []
           1 (0, 1) None None 0.25 [(1.25, 0)] plate_across_solved
           solve_2x2_exact plate_across_shapes plate_across_current
           plate_across_radius eq_refl).
  - intros w Hw. discriminate Hw.
  - exact plate_across_unsteady.
Defined.

(** ** The cache of the influence matrix *)

Lemma influence_matrix_keeps_current (self st : BoundVortexPanels.t) (A : matrix) :
  cache_current self ->
  BoundVortexPanels.influence_matrix self = Ok (st, A) ->
  cache_current st.
Proof.
  intros Hc H. unfold BoundVortexPanels.influence_matrix in H.
  destruct (BoundVortexPanels._influence_matrix self) as [B |] eqn:E.
  - injection H as <- <-. exact Hc.
  - apply bind_ok in H. destruct H as [B [HB H]]. injection H as <- <-.
    intros C HC. cbn in HC. injection HC as <-. exact HB.
Qed.

(** X18.  The influence matrix is computed once.  After an access that
    returned, a second access returns the same matrix and changes nothing;
    [update_positions] empties the cache, and the next access computes the
    same matrix again as long as geometry and core radius are unchanged.
    The setter of [core_radius] does not empty the cache: the next access
    still returns the matrix of the old radius. *)
Theorem influence_matrix_cached (self st : BoundVortexPanels.t) (A : matrix)
    (value : R) :
  cache_current self ->
  BoundVortexPanels.influence_matrix self = Ok (st, A) ->
  BoundVortexPanels.influence_matrix st = Ok (st, A)
  /\ BoundVortexPanels._influence_matrix (BoundVortexPanels.update_positions st) = None
  /\ BoundVortexPanels.influence_matrix (BoundVortexPanels.update_positions st)
     = Ok (st, A)
  /\ BoundVortexPanels.influence_matrix (BoundVortexPanels.set_core_radius st value)
     = Ok (BoundVortexPanels.set_core_radius st value, A).
Proof.
  intros Hc H. pose proof (influence_matrix_keeps_current _ _ _ Hc H) as Hst.
  apply influence_matrix_frame in H. subst st.
  assert (Hcomp : BoundVortexPanels.compute_influence_matrix self = Ok A)
    by (apply (Hst A); reflexivity).
  split; [reflexivity |]. split; [reflexivity |]. split; [| reflexivity].
  unfold BoundVortexPanels.influence_matrix, BoundVortexPanels.update_positions.
  cbn [BoundVortexPanels.set_influence_matrix BoundVortexPanels._influence_matrix].
  assert (Hsame : forall (s0 : BoundVortexPanels.t) (c : option matrix),
             BoundVortexPanels.compute_influence_matrix
               (BoundVortexPanels.set_influence_matrix s0 c)
             = BoundVortexPanels.compute_influence_matrix s0) by reflexivity.
  change (BoundVortexPanels.compute_influence_matrix _)
    with (BoundVortexPanels.compute_influence_matrix
            (BoundVortexPanels.set_influence_matrix self None)).
  rewrite Hsame, Hcomp. reflexivity.
Qed.

Lemma influence_matrix_cached_witness :
  exists (st : BoundVortexPanels.t) (A : matrix),
    BoundVortexPanels.influence_matrix plate_across = Ok (st, A)
    /\ BoundVortexPanels.influence_matrix st = Ok (st, A)
    /\ BoundVortexPanels.influence_matrix (BoundVortexPanels.update_positions st)
       = Ok (st, A)
    /\ BoundVortexPanels.influence_matrix (BoundVortexPanels.set_core_radius st 1)
       = Ok (BoundVortexPanels.set_core_radius st 1, A).
Proof.
  destruct (influence_matrix_ok plate_across plate_across_radius) as [A [B H]].
  exists (BoundVortexPanels.set_influence_matrix plate_across (Some A)), B.
  split; [exact H |].
  destruct (influence_matrix_cached plate_across _ B 1 plate_across_current H)
    as [H1 [_ [H3 H4]]].
  split; [exact H1 |]. split; [exact H3 | exact H4].
Defined.

(** ** One time step: solve, then shed into the wake *)

Lemma update_strengths_unsteady_inv
    (solve : matrix -> list R -> outcome (list R))
    (self : BoundVortexPanels.t) (s : store) (dt : R) (Uinfty : vec2)
    (wake : option FreeVortexParticles.t) (circ : option R) (wake_fac : R)
    (s' : store) (self' : BoundVortexPanels.t) :
  BoundVortexPanels.update_strengths_unsteady solve self s dt Uinfty wake circ
    wake_fac = Ok (s', self') ->
  exists (cache : matrix) (A : matrix) (rhs gam : list R),
    let x := vadd (BoundVortexPanels._trailing_edge self)
                  (vscale (wake_fac * sqrt (fst Uinfty ^ 2 + snd Uinfty ^ 2) * dt)
                          (BoundVortexPanels._wake_dir self)) in
    BoundVortexPanels.unsteady_system self dt Uinfty wake circ wake_fac
    = Ok (BoundVortexPanels.set_influence_matrix self (Some cache), (x, (A, rhs)))
    /\ solve A rhs = Ok gam
    /\ s' = s ++ [x]
    /\ self' = BoundVortexPanels.set_shed
                 (BoundVortexPanels.set_gam
                    (BoundVortexPanels.set_influence_matrix self (Some cache))
                    (removelast gam))
                 (length s) (last gam 0).
Proof.
  intros H. unfold BoundVortexPanels.update_strengths_unsteady in H.
  apply bind_ok in H. destruct H as [[st [x [A rhs]]] [Hsys H]].
  apply bind_ok in H. destruct H as [gam [Hgam H]].
  cbn [fst snd] in H, Hgam. unfold alloc in H. cbn [fst snd] in H.
  injection H as <- <-.
  pose proof (unsteady_system_shape _ _ _ _ _ _ _ _ _ _ Hsys) as Hshape.
  destruct Hshape as [top [cache [rhs0 [_ [_ [_ [Hst [Hx _]]]]]]]].
  subst st x. exists cache, A, rhs, gam. cbv zeta.
  split; [exact Hsys |]. split; [exact Hgam |]. split; reflexivity.
Qed.

Lemma unsteady_solution_sum
    (solve : matrix -> list R -> outcome (list R))
    (self st : BoundVortexPanels.t) (dt : R) (Uinfty : vec2)
    (wake : option FreeVortexParticles.t) (circ : option R) (wake_fac : R)
    (x : vec2) (A : matrix) (rhs gam : list R) :
  exact_solver solve ->
  shapes_agree self ->
  BoundVortexPanels.unsteady_system self dt Uinfty wake circ wake_fac
  = Ok (st, (x, (A, rhs))) ->
  solve A rhs = Ok gam ->
  sum_list (removelast gam) + last gam 0
  = BoundVortexPanels.total_circulation circ wake.
Proof.
  intros Hsolve Hshape Hsys Hgam.
  apply unsteady_system_shape in Hsys.
  destruct Hsys as [top [cache [rhs0 [-> [-> [Htop _]]]]]].
  specialize (Htop Hshape).
  apply Hsolve in Hgam. destruct Hgam as [Hlen Hsol].
  rewrite mat_vec_app in Hsol. cbn [mat_vec map] in Hsol.
  apply app_inj_tail in Hsol. destruct Hsol as [Hbody Hlast].
  assert (Hrows : length rhs0 = length top)
    by (rewrite <- Hbody; unfold mat_vec; apply length_map).
  rewrite length_app in Hlen. cbn [length] in Hlen.
  assert (Hne : gam <> []) by (intros ->; cbn in Hlen; lia).
  rewrite <- sum_list_removelast by exact Hne.
  rewrite <- Hlast. symmetry. apply dot_ones. lia.
Qed.

(** X19.  One time step conserves the circulation of body and wake.  After
    [update_strengths_unsteady] returned with an exact solver,
    [wake.add_newly_shed(body)] returns; the wake has one vortex more, at
    the image in the inertial frame of the position the solve recorded; and
    the strengths of the panels plus the circulation of the wake equal the
    total of the solve (the supplied [circ]; without one, 0 when the solve
    had no wake and minus the circulation of the wake it had) plus the
    circulation the wake had.  When the solve was given this wake and no
    [circ], that sum is zero. *)
Theorem shed_vortex_conserves_circulation
    (solve : matrix -> list R -> outcome (list R))
    (self : BoundVortexPanels.t) (s : store) (dt : R) (Uinfty : vec2)
    (wake : option FreeVortexParticles.t) (circ : option R) (wake_fac : R)
    (s1 : store) (self1 : BoundVortexPanels.t) (w : FreeVortexParticles.t) :
  exact_solver solve ->
  shapes_agree self ->
  BoundVortexPanels.update_strengths_unsteady solve self s dt Uinfty wake circ
    wake_fac = Ok (s1, self1) ->
  exists (s2 : store) (w2 : FreeVortexParticles.t),
    FreeVortexParticles.add_newly_shed BoundVortexPanels.t
      BoundVortexPanels.get_newly_shed w self1 s1 = Ok (s2, w2)
    /\ FreeVortexParticles._num_vortices w2
       = (FreeVortexParticles._num_vortices w + 1)%nat
    /\ FreeVortexParticles._x_vortices w2
       = Some (match FreeVortexParticles._x_vortices w with
               | Some xs => xs
               | None => []
               end
               ++ [let x := vadd (BoundVortexPanels._trailing_edge self)
                              (vscale (wake_fac
                                       * sqrt (fst Uinfty ^ 2 + snd Uinfty ^ 2)
                                       * dt)
                                      (BoundVortexPanels._wake_dir self)) in
                   match BoundVortexPanels.get_motion (BoundVortexPanels._body self) with
                   | Some motion => BoundVortexPanels.map_position motion x
                   | None => x
                   end])
    /\ sum_list (BoundVortexPanels._gam self1) + FreeVortexParticles.circulation w2
       = match circ with
         | Some c => c
         | None =>
             match wake with
             | None => 0
             | Some w0 => - FreeVortexParticles.circulation w0
             end
         end
         + FreeVortexParticles.circulation w
    /\ (circ = None -> wake = Some w ->
        sum_list (BoundVortexPanels._gam self1)
        + FreeVortexParticles.circulation w2 = 0).
Proof.
  intros Hsolve Hshape H.
  destruct (update_strengths_unsteady_inv _ _ _ _ _ _ _ _ _ _ H)
    as [cache [A [rhs [gam [Hsys [Hgam [-> ->]]]]]]].
  pose proof (unsteady_solution_sum _ _ _ _ _ _ _ _ _ _ _ _ Hsolve Hshape Hsys Hgam)
    as Hsum.
  unfold BoundVortexPanels.total_circulation in Hsum.
  set (x := vadd (BoundVortexPanels._trailing_edge self)
                 (vscale (wake_fac * sqrt (fst Uinfty ^ 2 + snd Uinfty ^ 2) * dt)
                         (BoundVortexPanels._wake_dir self))) in *.
  unfold FreeVortexParticles.add_newly_shed, BoundVortexPanels.get_newly_shed.
  cbn [BoundVortexPanels.set_shed BoundVortexPanels.set_gam
       BoundVortexPanels.set_influence_matrix BoundVortexPanels._x_shed
       BoundVortexPanels._gam_shed BoundVortexPanels._body BoundVortexPanels._gam].
  assert (Hderef : deref (s ++ [x]) (length s) = x)
    by apply (deref_alloc_new s x).
  rewrite Hderef.
  set (image := match BoundVortexPanels.get_motion (BoundVortexPanels._body self) with
                | Some motion => BoundVortexPanels.map_position motion x
                | None => x
                end).
  exists (fst (alloc (s ++ [x]) image)),
         (FreeVortexParticles.add_vortex w image (last gam 0)).
  split.
  { unfold image.
    destruct (BoundVortexPanels.get_motion (BoundVortexPanels._body self));
      cbn [bind fst snd]; now rewrite deref_alloc_new. }
  split; [reflexivity |]. split.
  { cbn [FreeVortexParticles.add_vortex FreeVortexParticles._x_vortices].
    now destruct (FreeVortexParticles._x_vortices w). }
  assert (Htotal : sum_list (removelast gam)
                   + FreeVortexParticles.circulation
                       (FreeVortexParticles.add_vortex w image (last gam 0))
                   = match circ with
                     | Some c => c
                     | None =>
                         match wake with
                         | None => 0
                         | Some w0 => - FreeVortexParticles.circulation w0
                         end
                     end
                     + FreeVortexParticles.circulation w).
  { unfold FreeVortexParticles.circulation in *.
    cbn [FreeVortexParticles.add_vortex FreeVortexParticles._circulation]. lra. }
  split; [exact Htotal |].
  intros -> ->. rewrite Htotal. lra.
Qed.

Lemma shed_vortex_conserves_circulation_witness :
  exists (s2 : store) (w2 : FreeVortexParticles.t),
    FreeVortexParticles.add_newly_shed BoundVortexPanels.t
      BoundVortexPanels.get_newly_shed one_vortex_wake
      (plate_across_given 1) [(1.25, 0)] = Ok (s2, w2)
    /\ FreeVortexParticles._num_vortices w2 = 2%nat
    /\ FreeVortexParticles._x_vortices w2
       = Some [(2, 1);
               vadd (1, 0) (vscale (0.25 * sqrt (0 ^ 2 + 1 ^ 2) * 1) (1, 0))]
    /\ sum_list (BoundVortexPanels._gam (plate_across_given 1))
       + FreeVortexParticles.circulation w2
       = 1 + FreeVortexParticles.circulation one_vortex_wake.
Proof.
  destruct (shed_vortex_conserves_circulation solve_2x2 plate_across [] 1 (0, 1)
              None (Some 1) 0.25 [(1.25, 0)] (plate_across_given 1)
              one_vortex_wake
              solve_2x2_exact plate_across_shapes (plate_across_unsteady_given 1))
    as [s2 [w2 [H1 [H2 [H3 [H4 _]]]]]].
  exists s2, w2.
  split; [exact H1 |]. split; [exact H2 |]. split; [exact H3 | exact H4].
Defined.

(** X20.  A wake object that holds no vortex (after the constructor or
    [reset()]) cannot be given to the unsteady solve: the object is true, so
    [compute_rhs] calls its [induced_velocity], which raises [TypeError];
    [update_strengths_unsteady] raises with it before the solver is called,
    whatever [circ] is.  The first step of a simulation has to pass
    [wake=None]. *)
Theorem unsteady_solve_empty_wake
    (solve : matrix -> list R -> outcome (list R))
    (self : BoundVortexPanels.t) (s : store) (dt : R) (Uinfty : vec2)
    (w : FreeVortexParticles.t) (circ : option R) (wake_fac : R) :
  shapes_agree self ->
  BoundVortexPanels.core_radius self <> 0 ->
  FreeVortexParticles._x_vortices w = None ->
  BoundVortexPanels.compute_rhs self Uinfty (Some w) = Raise TypeError
  /\ BoundVortexPanels.update_strengths_unsteady solve self s dt Uinfty
       (Some w) circ wake_fac = Raise TypeError.
Proof.
  intros _ H0 Hx.
  assert (Hrhs : forall st : BoundVortexPanels.t,
             BoundVortexPanels.compute_rhs st Uinfty (Some w) = Raise TypeError).
  { intros st. unfold BoundVortexPanels.compute_rhs,
      FreeVortexParticles.induced_velocity. now rewrite Hx. }
  split; [apply Hrhs |].
  unfold BoundVortexPanels.update_strengths_unsteady,
    BoundVortexPanels.unsteady_system.
  rewrite induced_velocity_single_pointwise by exact H0. cbn [bind].
  destruct (influence_matrix_ok self H0) as [A [B HA]]. rewrite HA.
  cbn [bind fst snd]. rewrite Hrhs. reflexivity.
Qed.

Lemma unsteady_solve_empty_wake_witness :
  BoundVortexPanels.compute_rhs plate_across (0, 1)
    (Some FreeVortexParticles.__init__) = Raise TypeError
  /\ BoundVortexPanels.update_strengths_unsteady solve_2x2 plate_across [] 1
       (0, 1) (Some FreeVortexParticles.__init__) None 0.25 = Raise TypeError.
Proof.
  apply (unsteady_solve_empty_wake solve_2x2 plate_across [] 1 (0, 1)
           FreeVortexParticles.__init__ None 0.25 plate_across_shapes
           plate_across_radius).
  reflexivity.
Defined.

(** ** The wake moves its centre of vorticity with the stream *)

Lemma sum_list_map_add {A : Type} (f g : A -> R) (l : list A) :
  sum_list (map (fun a => f a + g a) l)
  = sum_list (map f l) + sum_list (map g l).
Proof.
  unfold sum_list. induction l as [| a l IH]; cbn [map fold_right];
    [lra | rewrite IH; lra].
Qed.

Lemma sum_list_map_scale {A : Type} (c : R) (f : A -> R) (l : list A) :
  sum_list (map (fun a => c * f a) l) = c * sum_list (map f l).
Proof.
  unfold sum_list. induction l as [| a l IH]; cbn [map fold_right];
    [lra | rewrite IH; lra].
Qed.

(** A double sum of an antisymmetric term vanishes. *)
Lemma double_sum_antisymmetric {A : Type} (f : A -> A -> R) (l : list A) :
  (forall a b : A, f a b = - f b a) ->
  sum_list (map (fun a => sum_list (map (f a) l)) l) = 0.
Proof.
  intros Hf. induction l as [| a l IH]; [reflexivity |].
  cbn [map]. unfold sum_list at 1. cbn [fold_right].
  fold (sum_list (map (fun a0 => sum_list (f a0 a :: map (f a0) l)) l)).
  unfold sum_list at 1. cbn [fold_right]. fold (sum_list (map (f a) l)).
  assert (Hrest : sum_list (map (fun a0 => sum_list (f a0 a :: map (f a0) l)) l)
                  = sum_list (map (fun a0 => f a0 a) l)
                    + sum_list (map (fun a0 => sum_list (map (f a0) l)) l)).
  { rewrite <- sum_list_map_add. f_equal. }
  rewrite Hrest, IH.
  assert (Hcol : sum_list (map (fun a0 => f a0 a) l)
                 = - sum_list (map (f a) l)).
  { rewrite (map_ext (fun a0 => f a0 a) (fun a0 => (-1) * f a a0))
      by (intros a0; rewrite (Hf a0 a); ring).
    rewrite sum_list_map_scale. ring. }
  rewrite Hcol. pose proof (Hf a a). lra.
Qed.

(** The kernel is odd: what a unit vortex at [p] induces at [q] is the
    opposite of what a unit vortex at [q] induces at [p]. *)
Lemma point_vortex_velocity_odd (r0 : R) (p q : vec2) (g : R) :
  LumpedVortex.point_vortex_velocity r0 q g p
  = vscale (-1) (LumpedVortex.point_vortex_velocity r0 p g q).
Proof.
  unfold LumpedVortex.point_vortex_velocity, vscale. cbn [fst snd].
  replace ((fst q - fst p) * (fst q - fst p) + (snd q - snd p) * (snd q - snd p))
    with ((fst p - fst q) * (fst p - fst q) + (snd p - snd q) * (snd p - snd q))
    by ring.
  f_equal; unfold Rdiv; ring.
Qed.

Lemma combine_map_both {A B C : Type} (f : A -> B) (g : A -> C) (l : list A) :
  combine (map f l) (map g l) = map (fun a => (f a, g a)) l.
Proof.
  induction l as [| a l IH]; cbn [map combine]; [reflexivity | now rewrite IH].
Qed.

(** The strength-weighted sum of one Euler step, for each coordinate
    [c] (a linear map on vectors). *)
Lemma moment_step (c : vec2 -> R) (r0 dt : R) (u0 : vec2) (l : list (vec2 * R)) :
  (forall a b : vec2, c (vadd a b) = c a + c b) ->
  (forall (k : R) (a : vec2), c (vscale k a) = k * c a) ->
  sum_list (map (fun z => snd z * c (vadd (fst z)
                                        (vscale dt (vadd (induced_sum r0 l (fst z)) u0))))
                l)
  = sum_list (map (fun z => snd z * c (fst z)) l)
    + dt * sum_list (map snd l) * c u0.
Proof.
  intros Hadd Hscale.
  assert (Hsum : forall (vs : list (vec2 * R)) (p a : vec2),
             c (fold_left
                  (fun acc v =>
                     vadd acc (LumpedVortex.point_vortex_velocity r0 (fst v) (snd v) p))
                  vs a)
             = c a + sum_list
                       (map (fun v => c (LumpedVortex.point_vortex_velocity
                                           r0 (fst v) (snd v) p)) vs)).
  { unfold sum_list.
    induction vs as [| v vs IH]; intros p a; cbn [fold_left map fold_right].
    - lra.
    - rewrite IH, Hadd. lra. }
  assert (Hzero : c (0, 0) = 0).
  { replace ((0, 0) : vec2) with (vscale 0 (0, 0))
      by (unfold vscale; cbn [fst snd]; f_equal; ring).
    rewrite Hscale. ring. }
  rewrite (map_ext
             (fun z => snd z * c (vadd (fst z)
                                     (vscale dt (vadd (induced_sum r0 l (fst z)) u0))))
             (fun z => (snd z * c (fst z) + (dt * c u0) * snd z)
                       + dt * sum_list
                                (map (fun v => snd z
                                               * c (LumpedVortex.point_vortex_velocity
                                                      r0 (fst v) (snd v) (fst z))) l))).
  2:{ intros z. rewrite Hadd, Hscale, Hadd. unfold induced_sum.
      rewrite Hsum, Hzero, sum_list_map_scale. ring. }
  rewrite sum_list_map_add, sum_list_map_add.
  rewrite (sum_list_map_scale (dt * c u0) snd l).
  rewrite (sum_list_map_scale dt
             (fun z => sum_list
                         (map (fun v => snd z
                                        * c (LumpedVortex.point_vortex_velocity
                                               r0 (fst v) (snd v) (fst z))) l)) l).
  rewrite (double_sum_antisymmetric
             (fun z v => snd z * c (LumpedVortex.point_vortex_velocity
                                      r0 (fst v) (snd v) (fst z))) l).
  - ring.
  - intros a b.
    rewrite (point_vortex_velocity_odd r0 (fst a) (fst b) (snd b)), Hscale.
    rewrite (point_vortex_velocity_linear r0 (fst a) (snd b) (fst b)), Hscale.
    rewrite (point_vortex_velocity_linear r0 (fst a) (snd a) (fst b)), Hscale.
    ring.
Qed.

(** X21.  The wake alone conserves its centre of vorticity.  For a wake
    whose attributes agree, one [advect] step without body moves the sum of
    the strength-weighted positions by [dt] times the circulation times the
    free stream, whatever the vortices induce on each other: the mutual
    velocities cancel in the sum.  Without free stream the sum stays where
    it is. *)
Theorem advect_vorticity_moment (w w' : FreeVortexParticles.t) (dt : R)
    (Uinfty : option vec2) :
  wake_consistent w ->
  FreeVortexParticles.core_radius w <> 0 ->
  FreeVortexParticles.advect BoundVortexPanels.t
    BoundVortexPanels.induced_velocity w dt Uinfty None = Ok w' ->
  exists xs xs' : array2,
    FreeVortexParticles._x_vortices w = Some xs
    /\ FreeVortexParticles._x_vortices w' = Some xs'
    /\ vorticity_moment xs' (FreeVortexParticles._gamma w')
       = vadd (vorticity_moment xs (FreeVortexParticles._gamma w))
              (vscale (dt * FreeVortexParticles.circulation w)
                      (match Uinfty with
                       | Some u => u
                       | None => (0, 0)
                       end)).
Proof.
  intros [Hg [Hcirc Hpos]] H0 H. unfold FreeVortexParticles.advect in H.
  destruct (FreeVortexParticles._x_vortices w) as [xs |] eqn:E; [| discriminate].
  destruct Hpos as [Hxs _].
  rewrite (wake_induced_velocity w xs xs E H0) in H. cbn [bind] in H.
  set (r0 := FreeVortexParticles.core_radius w) in *.
  set (gs := FreeVortexParticles._gamma w) in *.
  set (u0 := match Uinfty with
             | Some u => u
             | None => (0, 0)
             end).
  assert (Hvel : match Uinfty with
                 | Some u =>
                     if FreeVortexParticles.any u
                     then add_col (map (induced_sum r0 (combine xs gs)) xs) u
                     else map (induced_sum r0 (combine xs gs)) xs
                 | None => map (induced_sum r0 (combine xs gs)) xs
                 end
                 = map (fun p => vadd (induced_sum r0 (combine xs gs) p) u0) xs).
  { unfold u0. destruct Uinfty as [u |].
    - destruct (FreeVortexParticles.any u) eqn:Eany.
      + unfold add_col. now rewrite map_map.
      + apply any_false in Eany. subst u. apply map_ext. intros p.
        now rewrite vadd_zero_r.
    - apply map_ext. intros p. now rewrite vadd_zero_r. }
  rewrite Hvel in H. injection H as <-.
  exists xs. eexists. split; [reflexivity |].
  cbn [FreeVortexParticles._x_vortices FreeVortexParticles._gamma].
  split; [reflexivity |]. fold gs.
  unfold scale. rewrite map_map, add_arr_map_r.
  destruct (combine_split_maps xs gs) as [Hfst Hsnd]; [lia |].
  set (l := combine xs gs) in *.
  unfold vorticity_moment.
  assert (Hnew : combine (map (fun p => vadd p (vscale dt (vadd (induced_sum r0 l p) u0))) xs)
                         gs
                 = map (fun z => (vadd (fst z)
                                       (vscale dt (vadd (induced_sum r0 l (fst z)) u0)),
                                  snd z)) l).
  { clearbody l. rewrite <- Hfst at 1. rewrite <- Hsnd at 1.
    rewrite map_map. apply combine_map_both. }
  rewrite Hnew, !map_map. cbn [fst snd].
  rewrite (moment_step fst r0 dt u0 l) by (intros; reflexivity).
  rewrite (moment_step snd r0 dt u0 l) by (intros; reflexivity).
  rewrite Hsnd. unfold FreeVortexParticles.circulation in *.
  rewrite Hcirc. fold gs.
  unfold vadd, vscale. cbn [fst snd]. f_equal; ring.
Qed.

Lemma advect_alone_returns (w : FreeVortexParticles.t) (xs : array2) (dt : R)
    (Uinfty : option vec2) :
  FreeVortexParticles._x_vortices w = Some xs ->
  FreeVortexParticles.core_radius w <> 0 ->
  exists w' : FreeVortexParticles.t,
    FreeVortexParticles.advect BoundVortexPanels.t
      BoundVortexPanels.induced_velocity w dt Uinfty None = Ok w'.
Proof.
  intros E H0. unfold FreeVortexParticles.advect. rewrite E.
  rewrite (wake_induced_velocity w xs xs E H0). cbn [bind].
  eexists. reflexivity.
Qed.

Lemma advect_vorticity_moment_witness :
  let w := add_all (FreeVortexParticles.reset FreeVortexParticles.__init__)
                   [((0, 0), 1); ((1, 0), 2)] in
  exists w' : FreeVortexParticles.t,
    FreeVortexParticles.advect BoundVortexPanels.t
      BoundVortexPanels.induced_velocity w (1 / 10) (Some (1, 0)) None = Ok w'
    /\ exists xs xs' : array2,
         FreeVortexParticles._x_vortices w = Some xs
         /\ FreeVortexParticles._x_vortices w' = Some xs'
         /\ vorticity_moment xs' (FreeVortexParticles._gamma w')
            = vadd (vorticity_moment xs (FreeVortexParticles._gamma w))
                   (vscale (1 / 10 * FreeVortexParticles.circulation w) (1, 0)).
Proof.
  intros w.
  assert (H0 : FreeVortexParticles.core_radius w <> 0)
    by (cbn; unfold LumpedVortex._core_radius; lra).
  destruct (advect_alone_returns w [(0, 0); (1, 0)] (1 / 10) (Some (1, 0))
              eq_refl H0) as [w' Hw'].
  exists w'. split; [exact Hw' |].
  apply (advect_vorticity_moment w w' (1 / 10) (Some (1, 0))).
  - unfold wake_consistent, FreeVortexParticles.circulation. cbn.
    split; [reflexivity |]. split; [unfold sum_list; cbn; lra |].
    split; [reflexivity | discriminate].
  - exact H0.
  - exact Hw'.
Defined.

(** ** Symmetries of the kernel *)

Lemma div_cols_scale (a : R) (r : array2) :
  forall (c : R) (d : list R),
    map (fun ps : vec2 * R => (fst (fst ps) / snd ps, snd (fst ps) / snd ps))
        (combine (scale (a * c) r) d)
    = scale a (map (fun ps : vec2 * R => (fst (fst ps) / snd ps, snd (fst ps) / snd ps))
                   (combine (scale c r) d)).
Proof.
  intros c. unfold scale.
  induction r as [| p r IH]; intros d; [reflexivity |].
  destruct d as [| k d]; [reflexivity |].
  cbn [map combine fst snd]. rewrite IH.
  apply (f_equal2 (@cons vec2)); [| reflexivity].
  unfold vscale. cbn [fst snd]. apply f_equal2; unfold Rdiv; ring.
Qed.

(** X22.  Symmetries of [induced_velocity_single], for every core radius.
    Moving the targets and the vortex by one vector changes nothing; the
    velocity is linear in the strength; and what a vortex at [p] induces at
    [q] is the opposite of what the same vortex at [q] induces at [p].  The
    equalities cover the calls that produce [inf] or [nan] as well. *)
Theorem induced_velocity_single_symmetries (r0 : R) (x : array2)
    (xv d p q : vec2) (gam a : R) :
  LumpedVortex.induced_velocity_single r0 (add_col x d) (vadd xv d) gam
  = LumpedVortex.induced_velocity_single r0 x xv gam
  /\ LumpedVortex.induced_velocity_single r0 x xv (a * gam)
     = (v <- LumpedVortex.induced_velocity_single r0 x xv gam ;; Ok (scale a v))
  /\ LumpedVortex.induced_velocity_single r0 [q] p gam
     = (v <- LumpedVortex.induced_velocity_single r0 [p] q gam ;;
        Ok (scale (-1) v)).
Proof.
  split; [| split].
  - unfold LumpedVortex.induced_velocity_single.
    assert (Hr : sub_col (add_col x d) (vadd xv d) = sub_col x xv).
    { unfold sub_col, add_col. rewrite map_map. apply map_ext. intros z.
      unfold vsub, vadd. cbn [fst snd]. f_equal; ring. }
    now rewrite Hr.
  - unfold LumpedVortex.induced_velocity_single, div_cols.
    destruct (existsb is_zero _); [reflexivity |]. cbn [bind].
    replace (a * gam / (2 * PI)) with (a * (gam / (2 * PI)))
      by (unfold Rdiv; ring).
    apply f_equal, div_cols_scale.
  - unfold LumpedVortex.induced_velocity_single, div_cols,
      LumpedVortex.maximum, LumpedVortex.sum_sq, sub_col, perp, scale.
    cbn [map existsb combine fst snd vsub].
    assert (Hd : (fst q - fst p) * (fst q - fst p) + (snd q - snd p) * (snd q - snd p)
                 = (fst p - fst q) * (fst p - fst q) + (snd p - snd q) * (snd p - snd q))
      by ring.
    rewrite Hd.
    destruct (is_zero _); cbn [orb bind map]; [reflexivity |].
    apply f_equal. apply (f_equal2 (@cons vec2)); [| reflexivity].
    unfold vscale, vsub. cbn [fst snd].
    apply f_equal2; unfold Rdiv; ring.
Qed.

(** ** What the panel object keeps *)

Lemma step_shed_frame (self self' : BoundVortexPanels.t) :
  step self self' ->
  BoundVortexPanels._x_shed self' = BoundVortexPanels._x_shed self
  /\ BoundVortexPanels._gam_shed self' = BoundVortexPanels._gam_shed self.
Proof.
  intros Hstep.
  destruct Hstep as [self | self self' U H | solve self self' U H
                     | self self' A H | self v | self b].
  - split; reflexivity.
  - apply _update_frame in H. destruct H as [_ [H1 [H2 _]]]. now split.
  - unfold BoundVortexPanels.update_strengths in H.
    apply bind_ok in H. destruct H as [rhs [_ H]].
    apply bind_ok in H. destruct H as [[st A] [Hinfl H]].
    apply bind_ok in H. destruct H as [gam [_ H]].
    cbn [fst snd] in H. injection H as <-.
    apply influence_matrix_frame in Hinfl. subst st. split; reflexivity.
  - apply influence_matrix_frame in H. subst self'. split; reflexivity.
  - split; reflexivity.
  - split; reflexivity.
Qed.

(** X23.  Invariants of a panel object.  On every object built by the
    constructor and changed by [update_positions], [_update],
    [update_strengths], [update_strengths_unsteady], an access to
    [influence_matrix], the setter of [core_radius] or a change of the body,
    with any solver: the normals, the vortex positions and the collocation
    points are as many as [_numpanels], a cached influence matrix has that
    many rows, and [_x_shed] exists exactly when [_gam_shed] does. *)
Theorem panels_invariant (self : BoundVortexPanels.t) :
  reachable self ->
  shapes_agree self
  /\ (BoundVortexPanels._x_shed self = None
      <-> BoundVortexPanels._gam_shed self = None).
Proof.
  intros Hr. split; [now apply reachable_shapes |].
  induction Hr as [body U self H | self self' _ IH Hstep
                   | solve self self' s s' dt U wake circ wf _ _ H].
  - unfold BoundVortexPanels.__init__ in H. apply _update_frame in H.
    destruct H as [_ [H1 [H2 _]]]. rewrite H1, H2. split; reflexivity.
  - destruct (step_shed_frame self self' Hstep) as [H1 H2].
    now rewrite H1, H2.
  - destruct (update_strengths_unsteady_inv _ _ _ _ _ _ _ _ _ _ H)
      as [cache [A [rhs [gam [_ [_ [_ ->]]]]]]].
    split; discriminate.
Qed.

Lemma panels_invariant_witness :
  shapes_agree plate_across_solved
  /\ (BoundVortexPanels._x_shed plate_across_solved = None
      <-> BoundVortexPanels._gam_shed plate_across_solved = None).
Proof.
  apply (panels_invariant plate_across_solved).
  apply (reachable_unsteady solve_2x2 plate_across plate_across_solved []
           [(1.25, 0)] 1 (0, 1) None None 0.25).
  - exact (reachable_init flat_plate (0, 1) plate_across plate_across_init).
  - exact plate_across_unsteady.
Defined.

(** X24.  What the unsteady solve leaves alone.  A completed
    [update_strengths_unsteady] changes the strengths, the record of the
    shed vortex and the cache of the influence matrix, and nothing else: the
    body, the core radius and the geometry of the panels (normals, vortex
    and collocation points, trailing edge, wake direction) are as before,
    the cache is filled (a matrix that was cached stays), one array is
    allocated and the arrays that existed are untouched. *)
Theorem update_strengths_unsteady_frame
    (solve : matrix -> list R -> outcome (list R))
    (self : BoundVortexPanels.t) (s : store) (dt : R) (Uinfty : vec2)
    (wake : option FreeVortexParticles.t) (circ : option R) (wake_fac : R)
    (s' : store) (self' : BoundVortexPanels.t) :
  BoundVortexPanels.update_strengths_unsteady solve self s dt Uinfty wake circ
    wake_fac = Ok (s', self') ->
  BoundVortexPanels._body self' = BoundVortexPanels._body self
  /\ BoundVortexPanels.core_radius self' = BoundVortexPanels.core_radius self
  /\ BoundVortexPanels._numpanels self' = BoundVortexPanels._numpanels self
  /\ BoundVortexPanels._normals self' = BoundVortexPanels._normals self
  /\ BoundVortexPanels._xvort self' = BoundVortexPanels._xvort self
  /\ BoundVortexPanels._xcoll self' = BoundVortexPanels._xcoll self
  /\ BoundVortexPanels._trailing_edge self' = BoundVortexPanels._trailing_edge self
  /\ BoundVortexPanels._wake_dir self' = BoundVortexPanels._wake_dir self
  /\ BoundVortexPanels._influence_matrix self' <> None
  /\ (forall A : matrix,
        BoundVortexPanels._influence_matrix self = Some A ->
        BoundVortexPanels._influence_matrix self' = Some A)
  /\ length s' = S (length s)
  /\ (forall a : addr, (a < length s)%nat -> deref s' a = deref s a).
Proof.
  intros H.
  destruct (update_strengths_unsteady_inv _ _ _ _ _ _ _ _ _ _ H)
    as [cache [A [rhs [gam [Hsys [_ [-> ->]]]]]]].
  cbn [BoundVortexPanels.set_shed BoundVortexPanels.set_gam
       BoundVortexPanels.set_influence_matrix BoundVortexPanels._body
       BoundVortexPanels.core_radius BoundVortexPanels._numpanels
       BoundVortexPanels._normals BoundVortexPanels._xvort
       BoundVortexPanels._xcoll BoundVortexPanels._trailing_edge
       BoundVortexPanels._wake_dir BoundVortexPanels._influence_matrix].
  repeat (split; [reflexivity |]).
  split; [discriminate |]. split.
  - intros B HB.
    unfold BoundVortexPanels.unsteady_system in Hsys.
    apply bind_ok in Hsys. destruct Hsys as [shed_vel [_ Hsys]].
    apply bind_ok in Hsys. destruct Hsys as [[st1 infl] [Hinfl Hsys]].
    apply bind_ok in Hsys. destruct Hsys as [rhs0 [_ Hsys]].
    cbn [fst snd] in Hsys.
    assert (Hst : st1 = BoundVortexPanels.set_influence_matrix self (Some cache))
      by congruence.
    unfold BoundVortexPanels.influence_matrix in Hinfl. rewrite HB in Hinfl.
    assert (Hself : self = st1) by congruence.
    rewrite <- Hself in Hst. rewrite Hst in HB. cbn in HB.
    now rewrite HB.
  - split.
    + rewrite length_app. cbn [length]. lia.
    + intros a Ha. unfold deref. now apply app_nth1.
Qed.

Lemma update_strengths_unsteady_frame_witness :
  BoundVortexPanels._body plate_across_solved = BoundVortexPanels._body plate_across
  /\ BoundVortexPanels.core_radius plate_across_solved
     = BoundVortexPanels.core_radius plate_across
  /\ BoundVortexPanels._numpanels plate_across_solved
     = BoundVortexPanels._numpanels plate_across
  /\ BoundVortexPanels._normals plate_across_solved
     = BoundVortexPanels._normals plate_across
  /\ BoundVortexPanels._xvort plate_across_solved
     = BoundVortexPanels._xvort plate_across
  /\ BoundVortexPanels._xcoll plate_across_solved
     = BoundVortexPanels._xcoll plate_across
  /\ BoundVortexPanels._trailing_edge plate_across_solved
     = BoundVortexPanels._trailing_edge plate_across
  /\ BoundVortexPanels._wake_dir plate_across_solved
     = BoundVortexPanels._wake_dir plate_across
  /\ BoundVortexPanels._influence_matrix plate_across_solved <> None
  /\ (forall A : matrix,
        BoundVortexPanels._influence_matrix plate_across = Some A ->
        BoundVortexPanels._influence_matrix plate_across_solved = Some A)
  /\ length [((1.25, 0) : vec2)] = S (length ([] : store))
  /\ (forall a : addr, (a < length ([] : store))%nat ->
        deref [(1.25, 0)] a = deref [] a).
Proof.
  exact (update_strengths_unsteady_frame solve_2x2 plate_across [] 1 (0, 1)
           None None 0.25 [(1.25, 0)] plate_across_solved plate_across_unsteady).
Defined.

(** ** No flow through the panels of a moving body *)

Lemma rigid_kernel (m : BoundVortexPanels.Motion) (r0 : R) (xv : vec2) (g : R)
    (p : vec2) :
  rigid m ->
  LumpedVortex.point_vortex_velocity r0 (BoundVortexPanels.map_position m xv) g
    (BoundVortexPanels.map_position m p)
  = BoundVortexPanels.map_vector m (LumpedVortex.point_vortex_velocity r0 xv g p).
Proof.
  intros [c [s [tx [ty [Hcs [HP HV]]]]]]. rewrite !HP, HV.
  unfold LumpedVortex.point_vortex_velocity. cbn [fst snd].
  set (rx := fst p - fst xv). set (ry := snd p - snd xv).
  replace (c * fst p - s * snd p + tx - (c * fst xv - s * snd xv + tx))
    with (c * rx - s * ry) by (unfold rx, ry; ring).
  replace (s * fst p + c * snd p + ty - (s * fst xv + c * snd xv + ty))
    with (s * rx + c * ry) by (unfold rx, ry; ring).
  replace ((c * rx - s * ry) * (c * rx - s * ry)
           + (s * rx + c * ry) * (s * rx + c * ry))
    with ((c * c + s * s) * (rx * rx + ry * ry)) by ring.
  rewrite Hcs, Rmult_1_l.
  apply f_equal2; unfold Rdiv; ring.
Qed.

Lemma rigid_vdot (m : BoundVortexPanels.Motion) (a b : vec2) :
  rigid m ->
  vdot (BoundVortexPanels.map_vector m a) (BoundVortexPanels.map_vector m b)
  = vdot a b.
Proof.
  intros [c [s [tx [ty [Hcs [_ HV]]]]]]. rewrite !HV. unfold vdot. cbn [fst snd].
  replace ((c * fst a - s * snd a) * (c * fst b - s * snd b)
           + (s * fst a + c * snd a) * (s * fst b + c * snd b))
    with ((c * c + s * s) * (fst a * fst b + snd a * snd b)) by ring.
  rewrite Hcs. ring.
Qed.

Lemma rigid_vadd (m : BoundVortexPanels.Motion) (a b : vec2) :
  rigid m ->
  BoundVortexPanels.map_vector m (vadd a b)
  = vadd (BoundVortexPanels.map_vector m a) (BoundVortexPanels.map_vector m b).
Proof.
  intros [c [s [tx [ty [_ [_ HV]]]]]]. rewrite !HV. unfold vadd. cbn [fst snd].
  apply f_equal2; ring.
Qed.

Lemma rigid_zero (m : BoundVortexPanels.Motion) :
  rigid m -> BoundVortexPanels.map_vector m (0, 0) = (0, 0).
Proof.
  intros [c [s [tx [ty [_ [_ HV]]]]]]. rewrite HV. cbn [fst snd].
  apply f_equal2; ring.
Qed.

(** Turned and moved vortices induce, at the turned and moved point, the
    turned velocity. *)
Lemma rigid_induced_sum (m : BoundVortexPanels.Motion) (r0 : R) (xs : array2)
    (gs : list R) (p : vec2) :
  rigid m ->
  induced_sum r0 (combine (map (BoundVortexPanels.map_position m) xs) gs)
    (BoundVortexPanels.map_position m p)
  = BoundVortexPanels.map_vector m (induced_sum r0 (combine xs gs) p).
Proof.
  intros Hm. unfold induced_sum. rewrite <- (rigid_zero m Hm) at 1.
  generalize ((0, 0) : vec2) as a. revert gs.
  induction xs as [| x xs IH]; intros gs a; [reflexivity |].
  destruct gs as [| g gs]; [reflexivity |].
  cbn [map combine fold_left fst snd].
  rewrite (rigid_kernel m r0 x g p Hm), <- (rigid_vadd m _ _ Hm). apply IH.
Qed.

Lemma sub_arr_map_any {A : Type} (f g : A -> vec2) (l : list A) :
  BoundVortexPanels.sub_arr (map f l) (map g l)
  = map (fun a => vsub (f a) (g a)) l.
Proof.
  unfold BoundVortexPanels.sub_arr.
  induction l as [| a l IH]; cbn [map combine fst snd];
    [reflexivity | now rewrite IH].
Qed.

Lemma compute_rhs_moving (self : BoundVortexPanels.t) (Uinfty : vec2)
    (wake : option FreeVortexParticles.t) (rhs : list R)
    (m : BoundVortexPanels.Motion) :
  BoundVortexPanels.get_motion (BoundVortexPanels._body self) = Some m ->
  BoundVortexPanels.compute_rhs self Uinfty wake = Ok rhs ->
  exists vw : array2,
    match wake with
    | Some w =>
        FreeVortexParticles.induced_velocity w
          (map (BoundVortexPanels.map_position m) (BoundVortexPanels._xcoll self))
        = Ok vw
    | None => vw = zeros2 (BoundVortexPanels._numpanels self)
    end
    /\ rhs = map Ropp
               (sum_prod
                  (add_col
                     (BoundVortexPanels.sub_arr vw
                        (map (BoundVortexPanels.map_velocity m)
                             (BoundVortexPanels._xcoll self)))
                     Uinfty)
                  (map (BoundVortexPanels.map_vector m)
                       (BoundVortexPanels._normals self))).
Proof.
  intros Hm. unfold BoundVortexPanels.compute_rhs. rewrite Hm. intros H.
  apply bind_ok in H. destruct H as [vw [Hvw H]]. injection H as <-.
  exists vw. split; [| reflexivity].
  destruct wake as [w |]; [exact Hvw | now injection Hvw].
Qed.

(** X25.  The unsteady solve enforces no flow through the panels of a
    moving body, in the inertial frame.  On an object of agreeing shapes,
    with a core radius that is not zero and a cache that is current (no
    influence matrix cached, or the one of the present geometry and core
    radius), for a body with a rigid motion and a wake, if any, with a core
    radius that is not zero,
    after [update_strengths_unsteady] with an exact solver, [get_newly_shed]
    returns the shed vortex at its inertial position, and at the inertial
    collocation points the velocity of the wake, of the panels (as
    [induced_velocity] gives it) and of the shed vortex, plus the free stream
    and minus the velocity of the body point, has no component along the
    inertial normal: the system solved in the body frame is the right one
    for the inertial frame. *)
Theorem update_strengths_unsteady_no_penetration_moving
    (solve : matrix -> list R -> outcome (list R))
    (self : BoundVortexPanels.t) (s : store) (dt : R) (Uinfty : vec2)
    (wake : option FreeVortexParticles.t) (circ : option R) (wake_fac : R)
    (s' : store) (self' : BoundVortexPanels.t) (m : BoundVortexPanels.Motion) :
  exact_solver solve ->
  shapes_agree self ->
  cache_current self ->
  BoundVortexPanels.core_radius self <> 0 ->
  BoundVortexPanels.get_motion (BoundVortexPanels._body self) = Some m ->
  rigid m ->
  (forall w, wake = Some w -> FreeVortexParticles.core_radius w <> 0) ->
  BoundVortexPanels.update_strengths_unsteady solve self s dt Uinfty wake circ
    wake_fac = Ok (s', self') ->
  let xcoll_inertial :=
    map (BoundVortexPanels.map_position m) (BoundVortexPanels._xcoll self') in
  let normals_inertial :=
    map (BoundVortexPanels.map_vector m) (BoundVortexPanels._normals self') in
  exists (s2 : store) (a : addr) (gam_shed : R) (vb vs vw : array2),
    BoundVortexPanels.get_newly_shed self' s' = Ok (s2, (a, gam_shed))
    /\ BoundVortexPanels.induced_velocity self' xcoll_inertial = Ok vb
    /\ LumpedVortex.induced_velocity_single (BoundVortexPanels.core_radius self')
         xcoll_inertial (deref s2 a) gam_shed = Ok vs
    /\ match wake with
       | Some w => FreeVortexParticles.induced_velocity w xcoll_inertial = Ok vw
       | None => vw = zeros2 (BoundVortexPanels._numpanels self')
       end
    /\ Forall (fun normal_velocity => normal_velocity = 0)
              (sum_prod
                 (add_col
                    (BoundVortexPanels.sub_arr
                       (add_arr (add_arr vb vs) vw)
                       (map (BoundVortexPanels.map_velocity m)
                            (BoundVortexPanels._xcoll self')))
                    Uinfty)
                 normals_inertial).
Proof.
  intros Hsolve Hs Hc H0 Hm Hrigid Hw H xci ni.
  destruct (update_strengths_unsteady_inv _ _ _ _ _ _ _ _ _ _ H)
    as [cache [A [rhs [gam [Hsys [Hgam [-> ->]]]]]]].
  subst xci ni.
  set (x := vadd (BoundVortexPanels._trailing_edge self)
                 (vscale (wake_fac * sqrt (fst Uinfty ^ 2 + snd Uinfty ^ 2) * dt)
                         (BoundVortexPanels._wake_dir self))) in *.
  set (r0 := BoundVortexPanels.core_radius self) in *.
  set (P := BoundVortexPanels.map_position m).
  set (V := BoundVortexPanels.map_vector m).
  set (mv := BoundVortexPanels.map_velocity m).
  unfold BoundVortexPanels.unsteady_system in Hsys.
  fold x r0 in Hsys.
  rewrite induced_velocity_single_pointwise in Hsys by exact H0.
  cbn [bind] in Hsys.
  rewrite (influence_matrix_current self Hs Hc H0) in Hsys.
  cbn [bind fst snd] in Hsys. fold r0 in Hsys.
  apply bind_ok in Hsys. destruct Hsys as [rhs0 [Hrhs Hsys]].
  apply (compute_rhs_moving _ Uinfty wake rhs0 m) in Hrhs; [| exact Hm].
  destruct Hrhs as [vw [Hvw Hrhs0]].
  cbn [BoundVortexPanels.set_influence_matrix BoundVortexPanels._xcoll
       BoundVortexPanels._numpanels BoundVortexPanels._normals] in Hvw, Hrhs0.
  fold P in Hvw. fold mv V in Hrhs0.
  destruct Hs as [Hn [Hv [Hx _]]].
  assert (HxP : length (map P (BoundVortexPanels._xcoll self))
                = BoundVortexPanels._numpanels self)
    by (rewrite length_map; exact Hx).
  destruct (wake_velocity_as_map wake _ _ vw HxP Hw Hvw) as [fw Hfw].
  destruct (combine_split_maps (BoundVortexPanels._xcoll self)
              (BoundVortexPanels._normals self)) as [Hfst Hsnd]; [lia |].
  set (pm := combine (BoundVortexPanels._xcoll self)
                     (BoundVortexPanels._normals self)) in *.
  assert (Hpm : length pm = BoundVortexPanels._numpanels self)
    by (unfold pm; rewrite length_combine; lia).
  assert (HA : A = BoundVortexPanels.hstack_col
                     (map (fun z => map (fun xv => unit_influence r0 xv z)
                                        (BoundVortexPanels._xvort self)) pm)
                     (sum_prod (map (LumpedVortex.point_vortex_velocity r0 x 1)
                                    (BoundVortexPanels._xcoll self))
                               (BoundVortexPanels._normals self))
                   ++ [repeat 1 (BoundVortexPanels._numpanels self + 1)])
    by congruence.
  assert (Hrhs : rhs = rhs0 ++ [BoundVortexPanels.total_circulation circ wake])
    by congruence.
  clear Hsys. subst A rhs.
  apply Hsolve in Hgam. destruct Hgam as [Hlen Hsol].
  rewrite mat_vec_app in Hsol. cbn [mat_vec map] in Hsol.
  apply app_inj_tail in Hsol. destruct Hsol as [Hbody _].
  rewrite length_app in Hlen. cbn [length] in Hlen.
  assert (Hne : gam <> []) by (intros ->; cbn in Hlen; lia).
  assert (Hr0len : length rhs0 = BoundVortexPanels._numpanels self).
  { rewrite Hrhs0, Hfw. unfold sum_prod, add_col, BoundVortexPanels.sub_arr.
    rewrite !length_map, length_combine, !length_map, length_combine,
      !length_map, Hx, Hn, !Nat.min_id. reflexivity. }
  assert (Hgl : length (removelast gam) = BoundVortexPanels._numpanels self)
    by (rewrite removelast_length, Hlen, Hr0len; lia).
  cbn [BoundVortexPanels.set_shed BoundVortexPanels.set_gam
       BoundVortexPanels.set_influence_matrix BoundVortexPanels._xcoll
       BoundVortexPanels._normals BoundVortexPanels._numpanels
       BoundVortexPanels.core_radius].
  fold r0.
  exists (fst (alloc (s ++ [x]) (P x))), (snd (alloc (s ++ [x]) (P x))),
         (last gam 0).
  exists (map (induced_sum r0 (combine (map P (BoundVortexPanels._xvort self))
                                       (removelast gam)))
              (map P (BoundVortexPanels._xcoll self))).
  exists (map (LumpedVortex.point_vortex_velocity r0 (P x) (last gam 0))
              (map P (BoundVortexPanels._xcoll self))).
  exists vw.
  split.
  { unfold BoundVortexPanels.get_newly_shed.
    cbn [BoundVortexPanels.set_shed BoundVortexPanels.set_gam
         BoundVortexPanels.set_influence_matrix BoundVortexPanels._x_shed
         BoundVortexPanels._gam_shed BoundVortexPanels._body].
    assert (Hderef : deref (s ++ [x]) (length s) = x)
      by apply (deref_alloc_new s x).
    rewrite Hm, Hderef. reflexivity. }
  split.
  { rewrite bound_induced_velocity
      by (cbn [BoundVortexPanels.set_shed BoundVortexPanels.set_gam
               BoundVortexPanels.set_influence_matrix
               BoundVortexPanels.core_radius]; exact H0).
    unfold bound_vortices.
    cbn [BoundVortexPanels.set_shed BoundVortexPanels.set_gam
         BoundVortexPanels.set_influence_matrix
         BoundVortexPanels._body BoundVortexPanels._xvort BoundVortexPanels._gam
         BoundVortexPanels.core_radius].
    now rewrite Hm. }
  split.
  { rewrite deref_alloc_new.
    apply induced_velocity_single_pointwise. exact H0. }
  split; [exact Hvw |].
  (* every array as a map over the pairs of collocation point and normal *)
  subst vw. rewrite Hrhs0 in Hbody. clear Hrhs0 Hvw.
  assert (Hshed : sum_prod (map (LumpedVortex.point_vortex_velocity r0 x 1)
                                (BoundVortexPanels._xcoll self))
                           (BoundVortexPanels._normals self)
                  = map (unit_influence r0 x) pm).
  { clearbody pm. rewrite <- Hfst, <- Hsnd, map_map.
    apply (sum_prod_map_l
             (fun z => LumpedVortex.point_vortex_velocity r0 x 1 (fst z)) snd). }
  rewrite Hshed in Hbody.
  assert (Htop : BoundVortexPanels.hstack_col
                   (map (fun z => map (fun xv => unit_influence r0 xv z)
                                      (BoundVortexPanels._xvort self)) pm)
                   (map (unit_influence r0 x) pm)
                 = map (fun z => map (fun xv => unit_influence r0 xv z)
                                     (BoundVortexPanels._xvort self)
                                 ++ [unit_influence r0 x z]) pm).
  { unfold BoundVortexPanels.hstack_col. clear.
    induction pm as [| z pm IH]; cbn [map combine fst snd];
      [reflexivity | now rewrite IH]. }
  rewrite Htop in Hbody.
  clearbody pm. rewrite <- Hfst, <- Hsnd in Hbody. rewrite <- Hfst, <- Hsnd.
  repeat rewrite map_map in Hbody. repeat rewrite map_map.
  rewrite !add_arr_map_any, sub_arr_map_any.
  rewrite sub_arr_map_any in Hbody.
  unfold add_col in Hbody. unfold add_col.
  repeat rewrite map_map in Hbody. repeat rewrite map_map.
  rewrite (sum_prod_map_l
             (fun z => vadd (vsub (fw (P (fst z))) (mv (fst z))) Uinfty)
             (fun z => V (snd z))) in Hbody.
  rewrite (sum_prod_map_l
             (fun z => vadd (vsub
                  (vadd (vadd (induced_sum r0
                                 (combine (map P (BoundVortexPanels._xvort self))
                                          (removelast gam)) (P (fst z)))
                              (LumpedVortex.point_vortex_velocity r0 (P x)
                                 (last gam 0) (P (fst z))))
                        (fw (P (fst z))))
                  (mv (fst z))) Uinfty)
             (fun z => V (snd z))).
  unfold mat_vec in Hbody. rewrite !map_map in Hbody.
  apply map_eq_Forall in Hbody.
  apply Forall_map. eapply Forall_impl; [| exact Hbody].
  intros z Hz. cbv beta in Hz.
  rewrite (app_removelast_last 0 Hne) in Hz at 1.
  rewrite dot_app in Hz by (now rewrite length_map, Hgl).
  rewrite row_dot in Hz.
  subst P.
  rewrite (rigid_induced_sum m r0 _ _ (fst z) Hrigid).
  rewrite (rigid_kernel m r0 x (last gam 0) (fst z) Hrigid).
  fold V.
  rewrite (point_vortex_velocity_linear r0 x (last gam 0) (fst z)).
  unfold dot, sum_list in Hz. cbn [combine map fold_right fst snd] in Hz.
  unfold unit_influence in Hz.
  pose proof (rigid_vdot m
                (induced_sum r0 (combine (BoundVortexPanels._xvort self)
                                         (removelast gam)) (fst z))
                (snd z) Hrigid) as Hd1.
  pose proof (rigid_vdot m
                (vscale (last gam 0)
                        (LumpedVortex.point_vortex_velocity r0 x 1 (fst z)))
                (snd z) Hrigid) as Hd2.
  fold V in Hd1, Hd2.
  set (Va := V (induced_sum r0 (combine (BoundVortexPanels._xvort self)
                                        (removelast gam)) (fst z))) in *.
  set (Vb := V (vscale (last gam 0)
                       (LumpedVortex.point_vortex_velocity r0 x 1 (fst z)))) in *.
  set (Vn := V (snd z)) in *.
  set (fz := fw (BoundVortexPanels.map_position m (fst z))) in *.
  clearbody Va Vb Vn fz.
  unfold vdot, vadd, vsub, vscale in *. cbn [fst snd] in *. lra.
Qed.

Lemma shift_rigid : rigid shift.
Proof.
  exists 1, 0, 1, 2. split; [ring |]. split.
  - intros p. unfold shift. cbn [BoundVortexPanels.map_position].
    apply f_equal2; ring.
  - intros v. unfold shift. cbn [BoundVortexPanels.map_vector].
    destruct v as [a b]. cbn [fst snd]. apply f_equal2; ring.
Qed.

(** The unsteady solve for the plate held at (1,2) across a unit stream:
    the strengths of the plate at the origin. *)
Lemma plate_shifted_unsteady :
  BoundVortexPanels.update_strengths_unsteady solve_2x2 plate_shifted
    [] 1 (0, 1) None None 0.25
  = Ok ([(1.25, 0)], plate_shifted_solved).
Proof.
  unfold plate_shifted, plate_shifted_solved.
  pose proof PI_RGT_0 as Hpi.
  assert (Hr0 : LumpedVortex._core_radius <> 0)
    by (unfold LumpedVortex._core_radius; lra).
  unfold BoundVortexPanels.update_strengths_unsteady,
    BoundVortexPanels.unsteady_system.
  cbn [BoundVortexPanels._trailing_edge BoundVortexPanels._wake_dir
       BoundVortexPanels.core_radius BoundVortexPanels._xcoll
       BoundVortexPanels._normals BoundVortexPanels._numpanels fst snd].
  assert (Hshed : vadd (1, 0) (vscale (0.25 * sqrt (0 ^ 2 + 1 ^ 2) * 1) (1, 0))
                  = (1.25, 0)).
  { replace (0 ^ 2 + 1 ^ 2) with 1 by ring. rewrite sqrt_1.
    unfold vadd, vscale. cbn [fst snd]. f_equal; lra. }
  rewrite Hshed.
  rewrite induced_velocity_single_pointwise by exact Hr0.
  cbn [bind map]. rewrite kernel_at_shed_side.
  unfold BoundVortexPanels.influence_matrix,
    BoundVortexPanels.compute_influence_matrix.
  cbn [BoundVortexPanels._influence_matrix BoundVortexPanels._xvort
       BoundVortexPanels._xcoll BoundVortexPanels._normals
       BoundVortexPanels.core_radius BoundVortexPanels._numpanels
       BoundVortexPanels.map_outcome].
  rewrite induced_velocity_single_pointwise by exact Hr0.
  cbn [bind map]. rewrite kernel_at_vortex_side.
  unfold BoundVortexPanels.compute_rhs, BoundVortexPanels.sub_arr.
  cbn [bind fst snd BoundVortexPanels.set_influence_matrix
       BoundVortexPanels._body BoundVortexPanels.get_motion shifted_plate shift
       BoundVortexPanels.map_position BoundVortexPanels.map_vector
       BoundVortexPanels.map_velocity
       BoundVortexPanels._xcoll BoundVortexPanels._normals
       BoundVortexPanels._numpanels BoundVortexPanels.of_columns
       BoundVortexPanels.hstack_col BoundVortexPanels.total_circulation
       sum_prod zeros2 add_col repeat combine map seq nth app Nat.add].
  unfold vdot, vadd, vsub. cbn [fst snd].
  unfold solve_2x2.
  rewrite is_zero_false.
  2:{ intros E. apply (Rmult_eq_compat_r PI) in E. field_simplify in E; lra. }
  cbn [bind alloc fst snd app length removelast last].
  unfold BoundVortexPanels.set_shed, BoundVortexPanels.set_gam,
    BoundVortexPanels.set_influence_matrix.
  cbn [BoundVortexPanels.core_radius BoundVortexPanels._body
       BoundVortexPanels._numpanels BoundVortexPanels._normals
       BoundVortexPanels._xvort BoundVortexPanels._xcoll
       BoundVortexPanels._trailing_edge BoundVortexPanels._wake_dir
       BoundVortexPanels._gam BoundVortexPanels._influence_matrix
       BoundVortexPanels._x_shed BoundVortexPanels._gam_shed].
  match goal with
  | |- Ok (_, BoundVortexPanels.mk _ _ _ _ _ _ _ _ [?g] (Some [[?a]]) _ (Some ?gs))
       = _ =>
      replace g with (PI / 2) by (field; lra);
      replace gs with (- (PI / 2)) by (field; lra);
      replace a with (- (1 / PI)) by (field; lra)
  end.
  reflexivity.
Qed.

Lemma plate_shifted_shapes : shapes_agree plate_shifted.
Proof.
  unfold shapes_agree, plate_shifted. cbn.
  repeat split; try reflexivity. intros A E. discriminate E.
Qed.

Lemma update_strengths_unsteady_no_penetration_moving_witness :
  exists (s2 : store) (a : addr) (gam_shed : R) (vb vs vw : array2),
    BoundVortexPanels.get_newly_shed plate_shifted_solved [(1.25, 0)]
    = Ok (s2, (a, gam_shed))
    /\ BoundVortexPanels.induced_velocity plate_shifted_solved
         (map (BoundVortexPanels.map_position shift)
              (BoundVortexPanels._xcoll plate_shifted_solved)) = Ok vb
    /\ LumpedVortex.induced_velocity_single
         (BoundVortexPanels.core_radius plate_shifted_solved)
         (map (BoundVortexPanels.map_position shift)
              (BoundVortexPanels._xcoll plate_shifted_solved))
         (deref s2 a) gam_shed = Ok vs
    /\ vw = zeros2 (BoundVortexPanels._numpanels plate_shifted_solved)
    /\ Forall (fun normal_velocity => normal_velocity = 0)
              (sum_prod
                 (add_col
                    (BoundVortexPanels.sub_arr
                       (add_arr (add_arr vb vs) vw)
                       (map (BoundVortexPanels.map_velocity shift)
                            (BoundVortexPanels._xcoll plate_shifted_solved)))
                    (0, 1))
                 (map (BoundVortexPanels.map_vector shift)
                      (BoundVortexPanels._normals plate_shifted_solved))).
Proof.
  apply (update_strengths_unsteady_no_penetration_moving solve_2x2 plate_shifted
           [] 1 (0, 1) None None 0.25 [(1.25, 0)] plate_shifted_solved shift
           solve_2x2_exact plate_shifted_shapes).
  - intros A E. discriminate E.
  - cbn. unfold LumpedVortex._core_radius. lra.
  - reflexivity.
  - exact shift_rigid.
  - intros w Hw. discriminate Hw.
  - exact plate_shifted_unsteady.
Defined.

(** ** The array given to the first [add_vortex] *)

Lemma deref_write_same (s : store) :
  forall (a : addr) (v : vec2), (a < length s)%nat -> deref (write s a v) a = v.
Proof.
  unfold deref.
  induction s as [| u s IH]; intros a v Ha; cbn [length] in Ha; [lia |].
  destruct a as [| a]; cbn [write nth]; [reflexivity |].
  apply IH. lia.
Qed.

(** X26.  The wake keeps the caller's array.  After [reset()], the array
    [x] given to the first [add_vortex] is the position array of the wake: a
    following [advect] in a free stream [u] returns and writes the new
    position [x + dt u] into the caller's [x], leaving every other array
    alone.  Once a second vortex is added the wake has an array of its own,
    and [advect] leaves the arrays of the caller alone. *)
Theorem advect_writes_callers_array (self : InPlace.t) (s : store) (x : addr)
    (gamma dt : R) (u : vec2) :
  (x < length s)%nat ->
  FreeVortexParticles.core_radius (InPlace.wake self) <> 0 ->
  exists (s' : store) (self' : InPlace.t),
    InPlace.advect BoundVortexPanels.t BoundVortexPanels.induced_velocity
      (InPlace.add_vortex (InPlace.reset self) s x gamma) s dt (Some u) None
    = Ok (s', self')
    /\ deref s' x = vadd (deref s x) (vscale dt u)
    /\ (forall y : addr, y <> x -> deref s' y = deref s y)
    /\ FreeVortexParticles._x_vortices (InPlace.wake self') = Some [deref s' x]
    /\ forall (y : addr) (gamma2 : R) (s2 : store) (self2 : InPlace.t),
         InPlace.advect BoundVortexPanels.t BoundVortexPanels.induced_velocity
           (InPlace.add_vortex self' s' y gamma2) s' dt (Some u) None
         = Ok (s2, self2) ->
         s2 = s'.
Proof.
  intros Hx H0.
  set (w := FreeVortexParticles.add_vortex
              (FreeVortexParticles.reset (InPlace.wake self)) (deref s x) gamma).
  assert (Hadv : FreeVortexParticles.advect BoundVortexPanels.t
                   BoundVortexPanels.induced_velocity w dt (Some u) None
                 = Ok (FreeVortexParticles.mk
                         (FreeVortexParticles.core_radius (InPlace.wake self))
                         (Some [vadd (deref s x) (vscale dt u)]) [gamma] 1 (0 + gamma))).
  { unfold FreeVortexParticles.advect, w.
    cbn [FreeVortexParticles.add_vortex FreeVortexParticles.reset
         FreeVortexParticles._x_vortices].
    rewrite (wake_induced_velocity
               (FreeVortexParticles.add_vortex
                  (FreeVortexParticles.reset (InPlace.wake self)) (deref s x) gamma)
               [deref s x] [deref s x] eq_refl H0).
    cbn [bind map FreeVortexParticles.add_vortex FreeVortexParticles.reset
         FreeVortexParticles._gamma FreeVortexParticles.core_radius
         FreeVortexParticles._num_vortices FreeVortexParticles._circulation
         app combine].
    unfold induced_sum. cbn [fold_left fst snd].
    rewrite point_vortex_velocity_at_vortex by exact H0.
    assert (Hvel : (if FreeVortexParticles.any u
                    then add_col [vadd (0, 0) (0, 0)] u
                    else [vadd (0, 0) (0, 0)])
                   = [u]).
    { destruct (FreeVortexParticles.any u) eqn:Eany.
      - unfold add_col, vadd. cbn [map fst snd]. destruct u as [a b].
        cbn [fst snd]. do 2 f_equal; ring.
      - apply any_false in Eany. subst u. unfold vadd. cbn [fst snd].
        do 2 f_equal; ring. }
    rewrite Hvel. reflexivity. }
  unfold InPlace.advect, InPlace.add_vortex, InPlace.reset.
  cbn [InPlace.wake InPlace.base FreeVortexParticles.reset
       FreeVortexParticles._x_vortices].
  fold w. rewrite Hadv. cbn [bind FreeVortexParticles._x_vortices].
  eexists. eexists. split; [reflexivity |].
  split; [now apply deref_write_same |].
  split; [intros y Hy; apply deref_write_other; congruence |].
  split.
  { cbn [InPlace.wake FreeVortexParticles._x_vortices].
    now rewrite deref_write_same by exact Hx. }
  intros y gamma2 s2 self2 H2.
  cbn [InPlace.wake InPlace.base FreeVortexParticles._x_vortices] in H2.
  apply bind_ok in H2. destruct H2 as [w2 [_ H2]].
  now injection H2 as <- _.
Qed.

Lemma advect_writes_callers_array_witness :
  exists (s' : store) (self' : InPlace.t),
    InPlace.advect BoundVortexPanels.t BoundVortexPanels.induced_velocity
      (InPlace.add_vortex
         (InPlace.reset (InPlace.mk FreeVortexParticles.__init__ None))
         [(2, 1)] 0%nat 5)
      [(2, 1)] (1 / 10) (Some (1, 0)) None
    = Ok (s', self')
    /\ deref s' 0%nat = vadd (deref [(2, 1)] 0%nat) (vscale (1 / 10) (1, 0)).
Proof.
  destruct (advect_writes_callers_array
              (InPlace.mk FreeVortexParticles.__init__ None) [(2, 1)] 0%nat 5
              (1 / 10) (1, 0)) as [s' [self' [H1 [H2 _]]]].
  - cbn. lia.
  - cbn. unfold LumpedVortex._core_radius. lra.
  - exists s', self'. split; [exact H1 | exact H2].
Defined.
